(** * asmlib.call: genotype calls, per-haplotype fields and contig filters

    A shallow embedding of [asmlib/call.py] (PAV): [get_gt], [val_per_hap],
    [filter_by_tig_tree] and [merge_haplotypes], with the parts of Python,
    pandas and intervaltree these four functions rely on.

    Scope.  A cell of a table is a Python [str], an [int] or the
    missing marker NaN; the column names of a frame are distinct.  Strings are
    sequences of 8-bit characters and the regular expression class [\d] is the
    ten ASCII digits.  Exceptions are values of [exn]; a computation is a
    [result].  An interval tree is followed as long as the boundaries stored
    in it are integers: a run that stores another boundary ends in
    [Unmodelled], which is no exception of the program.  The clustering merge
    of analib and the file readers of pandas are collaborators outside the
    module: [merge_haplotypes] takes them as functions. *)

From Stdlib Require Import ZArith String Ascii List Bool Lia.
From stdpp Require Import base decidable option list countable gmap strings pretty.

Local Open Scope string_scope.
Local Open Scope Z_scope.

(** ** Python values, exceptions and results *)

Inductive value :=
  | VStr (s : string)
  | VInt (z : Z)
  | VNaN.

#[global] Instance value_eq_dec : EqDecision value.
Proof. solve_decision. Defined.

#[global] Instance value_countable : Countable value.
Proof.
  refine (inj_countable'
    (fun v => match v with
              | VStr s => inl s
              | VInt z => inr (inl z)
              | VNaN => inr (inr tt)
              end)
    (fun x => match x with
              | inl s => VStr s
              | inr (inl z) => VInt z
              | inr (inr _) => VNaN
              end) _).
  intros []; reflexivity.
Defined.

(** The exceptions of the program, and [Unmodelled]: the mark of a run that
    leaves what the embedding follows.  The program raises nothing there; no
    statement is made about such a run. *)
Inductive exn :=
  | KeyError
  | AttributeError
  | TypeError
  | ValueError
  | UnboundLocalError (name : string)
  | RuntimeError (msg : string)
  | Unmodelled.

Inductive result (A : Type) :=
  | Ok (a : A)
  | Raise (e : exn).
Arguments Ok {A} a.
Arguments Raise {A} e.

#[global] Instance result_ret : MRet result := fun A a => Ok a.
#[global] Instance result_bind : MBind result := fun A B f r =>
  match r with
  | Ok a => f a
  | Raise e => Raise e
  end.

(** [for x in xs: acc = body(acc, x)] with exceptions leaving the loop. *)
Fixpoint for_each {A S : Type} (body : S -> A -> result S) (xs : list A) (acc : S)
  : result S :=
  match xs with
  | [] => Ok acc
  | x :: xs' => acc' ← body acc x; for_each body xs' acc'
  end.

(** A comprehension / [Series.apply]: the calls are made in order and the
    first exception ends the evaluation. *)
Fixpoint map_result {A B : Type} (f : A -> result B) (xs : list A) : result (list B) :=
  match xs with
  | [] => Ok []
  | x :: xs' => y ← f x; ys ← map_result f xs'; Ok (y :: ys)
  end.

(** ** Python strings *)

(** [s.split(sep)] for a one-character separator: never an empty list. *)
Fixpoint split (sep : ascii) (s : string) : list string :=
  match s with
  | EmptyString => [EmptyString]
  | String c s' =>
      if Ascii.eqb c sep then EmptyString :: split sep s'
      else match split sep s' with
           | [] => [String c EmptyString]
           | w :: ws => String c w :: ws
           end
  end.

(** [delim.join(items)] *)
Definition join (delim : string) (items : list string) : string :=
  String.concat delim items.

(** [str(v)], also what ['{}'.format(v)] prints. *)
Definition py_str (v : value) : string :=
  match v with
  | VStr s => s
  | VInt z => pretty z
  | VNaN => "nan"
  end.

(** [val.split(sep)] on a cell: only [str] has the method. *)
Definition value_split (sep : ascii) (v : value) : result (list string) :=
  match v with
  | VStr s => Ok (split sep s)
  | _ => Raise AttributeError
  end.

(** ** intervaltree *)

(** [Interval(begin, end, data)]; the data is never read by this module. *)
Definition Interval : Type := Z * Z.
Definition ibegin (iv : Interval) : Z := fst iv.
Definition iend (iv : Interval) : Z := snd iv.

Abbreviation IntervalTree := (gset Interval).

(** [tree.overlap(begin, end)], also [tree[begin:end]]: the stored intervals
    that share a point with the half-open range.  An empty tree answers before
    looking at the range, and a range with [begin >= end] overlaps nothing. *)
Definition overlap (tree : IntervalTree) (b e : Z) : IntervalTree :=
  if decide (tree = ∅) then ∅
  else if b >=? e then ∅
  else filter (fun iv => ibegin iv < e ∧ b < iend iv) tree.

(** The same call on cells.  An empty tree answers before it looks at the
    range.  Otherwise the library tests [begin >= end], collects the intervals
    that hold [begin], and then those that hold a boundary of the tree between
    the places where [begin] and [end] would be inserted among the sorted
    boundaries.  Every comparison with a NaN is false and a NaN is inserted
    before every boundary: with a NaN [begin] the answer is every interval that
    begins before [end], with a NaN [end] the intervals that hold [begin], with
    both none.  Two strings are compared with each other first, and then, when
    [begin < end], with the integer boundaries, which is a TypeError as is a
    range of mixed types. *)
Definition overlap_cells (tree : IntervalTree) (b e : value) : result IntervalTree :=
  if decide (tree = ∅) then Ok ∅
  else match b, e with
       | VInt b, VInt e => Ok (overlap tree b e)
       | VNaN, VInt e => Ok (filter (fun iv => ibegin iv < e) tree)
       | VInt b, VNaN => Ok (filter (fun iv => ibegin iv ≤ b ∧ b < iend iv) tree)
       | VNaN, VNaN => Ok ∅
       | VStr b, VStr e => if String.leb e b then Ok ∅ else Raise TypeError
       | _, _ => Raise TypeError
       end.

(** [tree[begin:end] = data]: [addi], which refuses a null interval. *)
Definition tree_setitem (tree : IntervalTree) (b e : Z) : result IntervalTree :=
  if b >=? e then Raise ValueError else Ok ({[ (b, e) ]} ∪ tree).

(** [collections.defaultdict(intervaltree.IntervalTree)].  A key that was
    never stored reads as a new empty tree.  (Python also stores that empty
    tree under the key; an empty tree answers every query like a missing key,
    so the mapping is kept as it is.) *)
Abbreviation defaultdict := (gmap value IntervalTree).

Definition dd_getitem (d : defaultdict) (k : value) : IntervalTree :=
  default ∅ (d !! k).

(** ** Rows *)

(** A row as [df.apply(..., axis=1)] and [df.iterrows()] hand it out: a Series
    from column name to cell. *)
Definition Row : Type := list (string * value).

Fixpoint assoc {A : Type} (k : string) (l : list (string * A)) : option A :=
  match l with
  | [] => None
  | (k', v) :: l' => if decide (k' = k) then Some v else assoc k l'
  end.

(** [row[name]] *)
Definition row_getitem (row : Row) (name : string) : result value :=
  match assoc name row with
  | Some v => Ok v
  | None => Raise KeyError
  end.

(** ** get_gt *)

(** [bound <= cell] and [bound >= cell] for an integer boundary of the tree:
    false against a NaN, a TypeError against a string. *)
Definition int_le_cell (a : Z) (c : value) : result bool :=
  match c with
  | VInt z => Ok (a <=? z)%Z
  | VNaN => Ok false
  | VStr _ => Raise TypeError
  end.

Definition int_ge_cell (a : Z) (c : value) : result bool :=
  match c with
  | VInt z => Ok (a >=? z)%Z
  | VNaN => Ok false
  | VStr _ => Raise TypeError
  end.

(** [for x in xs: if test(x): return ...]: does some element pass the test?
    The tests run in order and stop at the first success. *)
Fixpoint any_result {A : Type} (test : A -> result bool) (xs : list A) : result bool :=
  match xs with
  | [] => Ok false
  | x :: xs' => b ← test x; if b : bool then Ok true else any_result test xs'
  end.

Definition get_gt (row : Row) (hap : string) (map_tree : defaultdict) : result string :=
  h ← row_getitem row "HAP";
  labels ← value_split ";" h;
  if bool_decide (hap ∈ labels) then Ok "1"
  else
    chrom ← row_getitem row "#CHROM";
    let tree := dd_getitem map_tree chrom in
    pos ← row_getitem row "POS";
    end_ ← row_getitem row "END";
    hits ← overlap_cells tree pos end_;
    found ← any_result
      (fun interval =>
         lo ← int_le_cell (ibegin interval) pos;
         if lo : bool then int_ge_cell (iend interval) end_ else Ok false)
      (elements hits);
    if found : bool then Ok "0" else Ok ".".

(** ** pandas frames *)

(** A Series keyed by index labels. *)
Definition Series : Type := list (value * value).

(** A DataFrame: the column names, and the rows in order, each under its index
    label.  Every row carries one cell per column name. *)
Record DataFrame := {
  columns : list string;
  records : list (value * Row)
}.

#[global] Instance DataFrame_inhabited : Inhabited DataFrame :=
  populate {| columns := []; records := [] |}.

(** [df.index] *)
Definition index (df : DataFrame) : list value := map fst (records df).

(** [df.loc[mask]] for a list of booleans: a new frame with the rows whose
    flag is set. *)
Definition loc_mask (df : DataFrame) (mask : list bool) : DataFrame :=
  {| columns := columns df;
     records := map snd (filter (fun p => fst p = true) (zip mask (records df))) |}.

(** What [df.loc[label, name]] hands back: one cell when a single row carries
    the label, a Series of cells when several do. *)
Inductive loc_value :=
  | Cell (v : value)
  | Cells (vs : list value).

(** [df.loc[label, name]] for a string label *)
Definition frame_loc (df : DataFrame) (label name : string) : result loc_value :=
  match filter (fun r => fst r = VStr label) (records df) with
  | [] => Raise KeyError
  | [(_, row)] => v ← row_getitem row name; Ok (Cell v)
  | rows => vs ← map_result (fun r => row_getitem (snd r) name) rows; Ok (Cells vs)
  end.

(** [delim.join(...)] over looked-up items: every item has to be a [str]. *)
Fixpoint join_items (items : list loc_value) : result (list string) :=
  match items with
  | [] => Ok []
  | Cell (VStr s) :: items' => ss ← join_items items'; Ok (s :: ss)
  | _ :: _ => Raise TypeError
  end.

(** ** val_per_hap *)

Definition df_dict (df_h1 df_h2 : DataFrame) (hap : string) : result DataFrame :=
  if decide (hap = "h1") then Ok df_h1
  else if decide (hap = "h2") then Ok df_h2
  else Raise KeyError.

(** The first [apply]: the tuple of (hap, id) pairs of a row. *)
Definition hap_id_pairs (row : Row) : result (list (string * string)) :=
  h ← row_getitem row "HAP";
  haps ← value_split ";" h;
  v ← row_getitem row "HAP_VARIANTS";
  ids ← value_split ";" v;
  Ok (zip haps ids).

(** The second [apply]: the generator is run to its end, then joined. *)
Definition join_per_hap (df_h1 df_h2 : DataFrame) (col_name delim : string)
    (val_list : list (string * string)) : result string :=
  items ← map_result
    (fun val => d ← df_dict df_h1 df_h2 (fst val); frame_loc d (snd val) col_name)
    val_list;
  strs ← join_items items;
  Ok (join delim strs).

(** On a frame without rows pandas calls neither function per row: the first
    [apply] hands back an empty copy of the frame and the second one runs over
    its columns, each an empty Series, which joins to the empty string. *)
Definition val_per_hap (df df_h1 df_h2 : DataFrame) (col_name delim : string)
  : result Series :=
  match records df with
  | [] => Ok (map (fun c => (VStr c, VStr "")) (columns df))
  | rows =>
      tuples ← map_result
        (fun r => val_list ← hap_id_pairs (snd r); Ok (fst r, val_list)) rows;
      map_result
        (fun t => s ← join_per_hap df_h1 df_h2 col_name delim (snd t);
                  Ok (fst t, VStr s))
        tuples
  end.

(** ** filter_by_tig_tree *)

Definition is_digit (c : ascii) : bool :=
  (48 <=? nat_of_ascii c)%nat && (nat_of_ascii c <=? 57)%nat.

Definition not_colon (c : ascii) : bool := negb (Ascii.eqb c ":").

(** The longest prefix of characters that pass [p], and the rest. *)
Fixpoint span (p : ascii -> bool) (s : string) : string * string :=
  match s with
  | EmptyString => (EmptyString, EmptyString)
  | String c s' =>
      if p c then let (a, b) := span p s' in (String c a, b)
      else (EmptyString, s)
  end.

(** [$]: the end of the string, or just before a newline that ends it. *)
Definition at_end (s : string) : bool :=
  match s with
  | EmptyString => true
  | String c EmptyString => Ascii.eqb c "010"
  | _ => false
  end.

(** A literal character of the pattern: the rest after it. *)
Definition expect (c : ascii) (s : string) : option string :=
  match s with
  | EmptyString => None
  | String x rest => if Ascii.eqb x c then Some rest else None
  end.

Definition nonempty (s : string) : bool :=
  match s with
  | EmptyString => false
  | String _ _ => true
  end.

(** [re.match('^([^:]+):(\d+)-(\d+)$', s)]: the three groups.  Each repetition
    is followed by a character outside its class, so the greedy choice is the
    only one that can match. *)
Definition re_match_tig_region (s : string) : option (string * string * string) :=
  let (contig, r1) := span not_colon s in
  r2 ← expect ":" r1;
  let (start, r3) := span is_digit r2 in
  r4 ← expect "-" r3;
  let (stop, r5) := span is_digit r4 in
  if nonempty contig && nonempty start && nonempty stop && at_end r5
  then Some (contig, start, stop)
  else None.

(** [re.match] on a cell: the subject has to be a [str]. *)
Definition re_match_cell (v : value) : result (option (string * string * string)) :=
  match v with
  | VStr s => Ok (re_match_tig_region s)
  | _ => Raise TypeError
  end.

Definition digit_val (c : ascii) : Z := Z.of_nat (nat_of_ascii c) - 48.

Fixpoint int_digits (acc : Z) (s : string) : Z :=
  match s with
  | EmptyString => acc
  | String c s' => int_digits (10 * acc + digit_val c) s'
  end.

(** [int(s)] for a string of decimal digits *)
Definition int_of_string (s : string) : Z := int_digits 0 s.

Definition unrecognized_tig_region (index region : value) : exn :=
  RuntimeError ("Unrecognized TIG_REGION format for record " ++ py_str index
                ++ ": " ++ py_str region).

(** [val in rm_index_set] for a label read from the index.  A NaN label is a
    float object of its own each time the index is walked; it is equal to
    nothing, the NaN that the loop added included, so the test never finds
    it. *)
Definition set_contains (s : gset value) (val : value) : bool :=
  match val with
  | VNaN => false
  | _ => bool_decide (val ∈ s)
  end.

(** The body of the [iterrows] loop, on the set collected so far.  A NaN
    label is added like any other: the set is no longer empty, and
    [set_contains] is the only reading of its elements. *)
Definition mark_record (tig_filter_tree : defaultdict) (rm_index_set : gset value)
    (r : value * Row) : result (gset value) :=
  let (index, row) := r in
  region ← row_getitem row "TIG_REGION";
  match_obj ← re_match_cell region;
  match match_obj with
  | None => Raise (unrecognized_tig_region index region)
  | Some (contig, start, stop) =>
      if decide (overlap (dd_getitem tig_filter_tree (VStr contig))
                   (int_of_string start - 1) (int_of_string stop) = ∅)
      then Ok rm_index_set
      else Ok ({[ index ]} ∪ rm_index_set)
  end.

(** Frames are objects: a name holds a reference into the store, and two names
    may hold the same one. *)
Definition ref : Type := nat.
Abbreviation store := (gmap ref DataFrame).

Definition filter_by_tig_tree (h : store) (df : ref) (tig_filter_tree : option defaultdict)
  : result (ref * store) :=
  match tig_filter_tree with
  | None => Ok (df, h)
  | Some tree =>
      rm_index_set ← for_each (mark_record tree) (records (h !!! df)) ∅;
      if decide (rm_index_set = ∅) then Ok (df, h)
      else
        let kept :=
          loc_mask (h !!! df)
            (map (fun val => negb (set_contains rm_index_set val)) (index (h !!! df))) in
        let new := fresh (dom h) in
        Ok (new, <[new := kept]> h)
  end.

(** ** Column operations of pandas *)

Fixpoint assoc_set (k : string) (v : value) (row : Row) : Row :=
  match row with
  | [] => [(k, v)]
  | (k', v') :: row' =>
      if decide (k' = k) then (k, v) :: row' else (k', v') :: assoc_set k v row'
  end.

Fixpoint assoc_del (k : string) (row : Row) : Row :=
  match row with
  | [] => []
  | (k', v') :: row' =>
      if decide (k' = k) then row' else (k', v') :: assoc_del k row'
  end.

(** [df[name]]: the cells of a column, in row order. *)
Definition getitem_col (df : DataFrame) (name : string) : result (list value) :=
  if decide (name ∈ columns df)
  then map_result (fun r => row_getitem (snd r) name) (records df)
  else Raise KeyError.

(** [df[name] = cells], for cells computed row by row from [df] itself: an
    existing column keeps its place, a new one goes last. *)
Definition setitem_col (df : DataFrame) (name : string) (cells : list value) : DataFrame :=
  {| columns := if decide (name ∈ columns df) then columns df else columns df ++ [name];
     records := zip_with (fun r c => (fst r, assoc_set name c (snd r))) (records df) cells |}.

(** [df[name] = v] for a scalar *)
Definition setitem_scalar (df : DataFrame) (name : string) (v : value) : DataFrame :=
  setitem_col df name (map (fun _ => v) (records df)).

Fixpoint remove_first (k : string) (l : list string) : list string :=
  match l with
  | [] => []
  | k' :: l' => if decide (k' = k) then l' else k' :: remove_first k l'
  end.

(** [del df[name]] *)
Definition delitem (df : DataFrame) (name : string) : result DataFrame :=
  if decide (name ∈ columns df)
  then Ok {| columns := remove_first name (columns df);
             records := map (fun r => (fst r, assoc_del name (snd r))) (records df) |}
  else Raise KeyError.

(** [df.columns = [f(val) for val in df.columns]] *)
Definition rename_columns (f : string -> string) (df : DataFrame) : DataFrame :=
  {| columns := map f (columns df);
     records := map (fun r => (fst r, map (fun kv => (f (fst kv), snd kv)) (snd r)))
                    (records df) |}.

(** [df.set_index(name, inplace=True, drop=False)] *)
Definition set_index (df : DataFrame) (name : string) : result DataFrame :=
  labels ← getitem_col df name;
  Ok {| columns := columns df;
        records := zip_with (fun l r => (l, snd r)) labels (records df) |}.

(** [df[name] = df[name].apply(f)] *)
Definition apply_col (df : DataFrame) (name : string) (f : value -> result value)
  : result DataFrame :=
  cells ← getitem_col df name;
  cells' ← map_result f cells;
  Ok (setitem_col df name cells').

(** [df.apply(f, axis=1)] on a frame that has rows *)
Definition apply_rows (df : DataFrame) (f : Row -> result value) : result (list value) :=
  map_result (fun r => f (snd r)) (records df).

(** [df.astype(str)]: every cell becomes its [str]; the index is kept. *)
Definition astype_str (df : DataFrame) : DataFrame :=
  {| columns := columns df;
     records := map (fun r => (fst r, map (fun kv => (fst kv, VStr (py_str (snd kv)))) (snd r)))
                    (records df) |}.

(** [df[name].fillna(fill, inplace=True)]: the column of [df] is filled. *)
Definition fillna_col (df : DataFrame) (name : string) (fill : value) : result DataFrame :=
  apply_col df name (fun v => Ok (match v with VNaN => fill | _ => v end)).

(** [re.sub('^MERGE_', 'HAP_', val)] *)
Definition sub_merge_prefix (val : string) : string :=
  match val with
  | String "M" (String "E" (String "R" (String "G" (String "E" (String "_" rest))))) =>
      "HAP_" ++ rest
  | _ => val
  end.

(** [';'.join(val.split(','))] *)
Definition comma_to_semicolon (val : value) : result value :=
  parts ← value_split "," val;
  Ok (VStr (join ";" parts)).

Definition if_present (df : DataFrame) (name : string) (f : DataFrame -> result DataFrame)
  : result DataFrame :=
  if decide (name ∈ columns df) then f df else Ok df.

(** ** merge_haplotypes *)

Definition count_inv (cells : list value) : nat :=
  length (filter (fun v => v = VStr "INV") cells).

Definition not_all_inv (n total : nat) : exn :=
  RuntimeError ("Detected inversions in merge, but not all variants are inversions ("
                ++ pretty n ++ " of " ++ pretty total ++ ")").

Definition found_00 : exn :=
  RuntimeError "Program bug: Found 0|0 genotypes after merging haplotypes".

(** The loop that fills a mappability tree from a table of callable regions.
    The tree tests [begin >= end] on the new interval before it stores it: a
    TypeError between a string and a number, a ValueError for two strings with
    [begin >= end] as for two such integers.  Two strings with [begin < end]
    pass the test and meet the integer boundaries of a tree that stores
    something, a TypeError again.  An interval with a NaN boundary, or of two
    such strings for an empty tree, is stored; the embedding does not follow a
    tree that holds one. *)
Definition add_region (map_tree : defaultdict) (r : value * Row) : result defaultdict :=
  chrom ← row_getitem (snd r) "#CHROM";
  pos ← row_getitem (snd r) "POS";
  end_ ← row_getitem (snd r) "END";
  match pos, end_ with
  | VInt b, VInt e =>
      tree ← tree_setitem (dd_getitem map_tree chrom) b e;
      Ok (<[chrom := tree]> map_tree)
  | VStr b, VStr e =>
      if String.leb e b then Raise ValueError
      else if decide (dd_getitem map_tree chrom = ∅) then Raise Unmodelled
      else Raise TypeError
  | VStr _, _ | _, VStr _ => Raise TypeError
  | _, _ => Raise Unmodelled
  end.

Definition load_map_tree (df_map : DataFrame) : result defaultdict :=
  for_each add_region (records df_map) ∅.

(** Reading one haplotype's calls: index by ID, fill CLUSTER_MATCH, all text. *)
Definition prepare_hap_table (df_h : DataFrame) : result DataFrame :=
  df_h ← set_index df_h "ID";
  df_h ← fillna_col df_h "CLUSTER_MATCH" (VStr "NA");
  Ok (astype_str df_h).

(** [df[name] = asmlib.call.val_per_hap(df, df_h1, df_h2, name)] *)
Definition set_val_per_hap (df_h1 df_h2 : DataFrame) (name : string) (df : DataFrame)
  : result DataFrame :=
  s ← val_per_hap df df_h1 df_h2 name ";";
  Ok (setitem_col df name (map snd s)).

(** The four [del] statements of inversion mode. *)
Definition del_inv_columns (df : DataFrame) : result DataFrame :=
  df ← delitem df "RGN_REF_DISC";
  df ← delitem df "RGN_TIG_DISC";
  df ← delitem df "FLAG_ID";
  delitem df "FLAG_TYPE".

(** ['{}|{}'.format(row['GT_H1'], row['GT_H2'])] *)
Definition format_gt (row : Row) : result value :=
  a ← row_getitem row "GT_H1";
  b ← row_getitem row "GT_H2";
  Ok (VStr (py_str a ++ "|" ++ py_str b)).

(** Genotypes: the two calls per record, the assembled GT, the 0|0 check and
    the removal of the two helper columns. *)
Definition call_genotypes (map_tree_h1 map_tree_h2 : defaultdict) (df : DataFrame)
  : result DataFrame :=
  gt_h1 ← apply_rows df (fun row => g ← get_gt row "h1" map_tree_h1; Ok (VStr g));
  let df := setitem_col df "GT_H1" gt_h1 in
  gt_h2 ← apply_rows df (fun row => g ← get_gt row "h2" map_tree_h2; Ok (VStr g));
  let df := setitem_col df "GT_H2" gt_h2 in
  gt ← apply_rows df format_gt;
  let df := setitem_col df "GT" gt in
  gt_cells ← getitem_col df "GT";
  if existsb (fun val => bool_decide (val = VStr "0|0")) gt_cells
  then Raise found_00
  else
    df ← delitem df "GT_H1";
    delitem df "GT_H2".

Section Orchestrator.

(** The collaborators outside this module: the clustering merge of analib
    and the two table readers. *)
Variable merge_variants :
  forall (bed_list sample_names : list string) (strategy : string) (threads : Z)
         (subset_chrom : option string), result DataFrame.
Variable read_csv_chrom : forall (file_name : string) (chrom : option string),
  result DataFrame.
Variable read_csv : forall (file_name : string), result DataFrame.

(** The branch for a merge that has records. *)
Definition fill_merged (h1_file_name h2_file_name h1_callable h2_callable : string)
    (chrom : option string) (is_inv : bool) (df : DataFrame) : result DataFrame :=
  df ← apply_col df "HAP" comma_to_semicolon;
  df ← apply_col df "HAP_VARIANTS" comma_to_semicolon;
  df ← if_present df "HAP_RO" (fun df => apply_col df "HAP_RO" comma_to_semicolon);
  df ← if_present df "HAP_OFFSET" (fun df => apply_col df "HAP_OFFSET" comma_to_semicolon);
  df ← if_present df "HAP_SZRO" (fun df => apply_col df "HAP_SZRO" comma_to_semicolon);
  df ← if_present df "HAP_OFFSZ" (fun df => apply_col df "HAP_OFFSZ" comma_to_semicolon);
  df_h1 ← read_csv_chrom h1_file_name chrom;
  df_h1 ← prepare_hap_table df_h1;
  df_h2 ← read_csv_chrom h2_file_name chrom;
  df_h2 ← prepare_hap_table df_h2;
  df ← set_val_per_hap df_h1 df_h2 "TIG_REGION" df;
  df ← set_val_per_hap df_h1 df_h2 "QUERY_STRAND" df;
  df ← set_val_per_hap df_h1 df_h2 "CI" df;
  df ← set_val_per_hap df_h1 df_h2 "ALIGN_INDEX" df;
  df ← set_val_per_hap df_h1 df_h2 "CLUSTER_MATCH" df;
  df ← set_val_per_hap df_h1 df_h2 "CALL_SOURCE" df;
  df ← (if is_inv
        then df ← del_inv_columns df;
             df ← set_val_per_hap df_h1 df_h2 "RGN_REF_INNER" df;
             set_val_per_hap df_h1 df_h2 "RGN_TIG_INNER" df
        else Ok df);
  df_map_h1 ← read_csv h1_callable;
  df_map_h2 ← read_csv h2_callable;
  map_tree_h1 ← load_map_tree df_map_h1;
  map_tree_h2 ← load_map_tree df_map_h2;
  call_genotypes map_tree_h1 map_tree_h2 df.

(** The branch for a merge without records: the columns are added, empty. *)
Definition fill_empty (is_inv : bool) (df : DataFrame) : result DataFrame :=
  let df := setitem_scalar df "TIG_REGION" VNaN in
  let df := setitem_scalar df "QUERY_STRAND" VNaN in
  let df := setitem_scalar df "CI" VNaN in
  let df := setitem_scalar df "ALIGN_INDEX" VNaN in
  let df := setitem_scalar df "CLUSTER_MATCH" VNaN in
  let df := setitem_scalar df "CALL_SOURCE" VNaN in
  df ← (if is_inv
        then df ← del_inv_columns df;
             let df := setitem_scalar df "RGN_REF_INNER" VNaN in
             Ok (setitem_scalar df "RGN_TIG_INNER" VNaN)
        else Ok df);
  Ok (setitem_scalar df "GT" VNaN).

Definition merge_haplotypes (h1_file_name h2_file_name h1_callable h2_callable : string)
    (config_def : string) (threads : Z) (chrom : option string) (is_inv : option bool)
  : result DataFrame :=
  (* Set is_inv: [df] is a local name that is bound only by the merge below *)
  is_inv ← match is_inv with
           | None => Raise (UnboundLocalError "df")
           | Some b => Ok b
           end;
  (* Merge *)
  df ← merge_variants [h1_file_name; h2_file_name] ["h1"; "h2"] config_def threads chrom;
  df ← set_index df "ID";
  (* Check is_inv *)
  _ ← (if is_inv : bool
       then svtype ← getitem_col df "SVTYPE";
            if forallb (fun v => bool_decide (v = VStr "INV")) svtype then Ok tt
            else Raise (not_all_inv (count_inv svtype) (length (records df)))
       else Ok tt);
  (* Restructure columns *)
  df ← if_present df "HAP" (fun df => delitem df "HAP");
  df ← if_present df "DISC_CLASS" (fun df => delitem df "DISC_CLASS");
  let df := rename_columns sub_merge_prefix df in
  df ← delitem df "HAP_SRC";
  df ← delitem df "HAP_SRC_ID";
  df ← delitem df "HAP_AC";
  df ← delitem df "HAP_AF";
  let df := rename_columns (fun val => if decide (val = "HAP_SAMPLES") then "HAP" else val) df in
  if (0 <? length (records df))%nat
  then fill_merged h1_file_name h2_file_name h1_callable h2_callable chrom is_inv df
  else fill_empty is_inv df.

End Orchestrator.

(** ** Reading the specification *)

(** Some single stored interval on the chromosome holds the whole placement:
    [interval.begin <= POS] and [END <= interval.end]. *)
Definition covered (map_tree : defaultdict) (chrom : value) (p e : Z) : Prop :=
  set_Exists (fun iv => ibegin iv ≤ p ∧ e ≤ iend iv) (dd_getitem map_tree chrom).



(** Where a repetition of the class [p] has to stop: at the end of the string
    or before a character outside the class. *)
Definition stops_at (p : ascii -> bool) (r : string) : Prop :=
  match r with
  | EmptyString => True
  | String c _ => p c = false
  end.

Fixpoint all_chars (p : ascii -> bool) (s : string) : bool :=
  match s with
  | EmptyString => true
  | String c s' => p c && all_chars p s'
  end.

(** The strings the pattern ["^([^:]+):(\d+)-(\d+)$"] accepts, with the three
    groups: a contig of one or more characters other than [':'], a colon, one
    or more digits, a dash, one or more digits, and then the end of the string
    (Python lets [$] stand before one final newline as well). *)
Definition tig_pattern (s contig start stop : string) : Prop :=
  exists tail,
    s = contig ++ ":" ++ start ++ "-" ++ stop ++ tail /\
    contig <> "" /\ all_chars not_colon contig = true /\
    start <> "" /\ all_chars is_digit start = true /\
    stop <> "" /\ all_chars is_digit stop = true /\
    (tail = "" \/ tail = String "010" "").

(** The contig range a record's TIG_REGION names: ["contig:start-end"] read as
    the half-open [[start - 1, end)] on that contig. *)
Definition tig_range (row : Row) (contig : string) (b e : Z) : Prop :=
  exists s start stop,
    row_getitem row "TIG_REGION" = Ok (VStr s) /\
    tig_pattern s contig start stop /\
    b = int_of_string start - 1 /\ e = int_of_string stop.

(** Every TIG_REGION of the frame has the expected form. *)
Definition well_formed_regions (df : DataFrame) : Prop :=
  Forall (fun r => exists contig b e, tig_range (snd r) contig b e) (records df).

(** The record's contig range and some interval of the exclusion tree have a
    position in common. *)
Definition hits_tree (tree : defaultdict) (row : Row) : Prop :=
  exists contig b e iv x,
    tig_range row contig b e /\
    iv ∈ dd_getitem tree (VStr contig) /\
    b ≤ x < e /\ ibegin iv ≤ x < iend iv.

(** What intervaltree guarantees of every tree: no stored interval is null. *)
Definition tree_wf (tree : defaultdict) : Prop :=
  forall k t iv, tree !! k = Some t -> iv ∈ t -> ibegin iv < iend iv.

(** A record whose TIG_REGION is a string the pattern rejects. *)
Definition malformed (row : Row) (s : string) : Prop :=
  row_getitem row "TIG_REGION" = Ok (VStr s) /\
  forall contig start stop, ~ tig_pattern s contig start stop.

(** The table of original calls that a haplotype label stands for. *)
Definition table_of_label (df_h1 df_h2 : DataFrame) (hap : string) (d : DataFrame) : Prop :=
  (hap = "h1" /\ d = df_h1) \/ (hap = "h2" /\ d = df_h2).

(** The record of a table that an identifier names: the table holds it under
    the identifier as index label, and no other record before or after it
    under the same label. *)
Definition named_record (d : DataFrame) (id : string) (row : Row) : Prop :=
  exists before after,
    records d = (before ++ (VStr id, row) :: after)%list /\
    (VStr id ∉ map fst before) /\ (VStr id ∉ map fst after).

(** The named field of the source record [id] of haplotype [hap]: the text in
    column [col_name] of the record that [id] names in the table of [hap]. *)
Definition source_field (df_h1 df_h2 : DataFrame) (col_name hap id v : string) : Prop :=
  exists d row,
    table_of_label df_h1 df_h2 hap d /\
    named_record d id row /\
    assoc col_name row = Some (VStr v).

(** The labels of HAP and the identifiers of HAP_VARIANTS of a merged record. *)
Definition hap_labels (row : Row) (haps ids : list string) : Prop :=
  exists h v,
    row_getitem row "HAP" = Ok (VStr h) /\ split ";" h = haps /\
    row_getitem row "HAP_VARIANTS" = Ok (VStr v) /\ split ";" v = ids.

(** The reconciled field of a record with one or two labels, each paired with
    the identifier at its position: the field of the first label's source
    record, then, after the delimiter, the field of the second label's. *)
Inductive reconciled (df_h1 df_h2 : DataFrame) (col_name delim : string) (row : Row)
  : string -> Prop :=
  | reconciled_one (hap id v : string) (more : list string) :
      hap_labels row [hap] (id :: more) ->
      source_field df_h1 df_h2 col_name hap id v ->
      reconciled df_h1 df_h2 col_name delim row v
  | reconciled_two (hap1 hap2 id1 id2 v1 v2 : string) (more : list string) :
      hap_labels row [hap1; hap2] (id1 :: id2 :: more) ->
      source_field df_h1 df_h2 col_name hap1 id1 v1 ->
      source_field df_h1 df_h2 col_name hap2 id2 v2 ->
      reconciled df_h1 df_h2 col_name delim row (v1 ++ delim ++ v2).

(** A source table as the orchestrator prepares it: distinct index labels and
    a text cell in the column for every record. *)
Definition text_table (d : DataFrame) (col_name : string) : Prop :=
  NoDup (index d) /\
  Forall (fun r => exists s, row_getitem (snd r) col_name = Ok (VStr s)) (records d).

(** A record one of whose identifiers is missing from the index of the table
    of the label it is paired with. *)
Definition dangling (df_h1 df_h2 : DataFrame) (row : Row) : Prop :=
  exists val_list hap id d,
    hap_id_pairs row = Ok val_list /\ (hap, id) ∈ val_list /\
    df_dict df_h1 df_h2 hap = Ok d /\ VStr id ∉ index d.

(** A row of a callable-region table. *)
Definition region_row (row : Row) (chrom : value) (b e : Z) : Prop :=
  row_getitem row "#CHROM" = Ok chrom /\
  row_getitem row "POS" = Ok (VInt b) /\
  row_getitem row "END" = Ok (VInt e).

(** ** Sample data *)

(** Variant v1 on chr1, placed at [[100, 200)], called in h1 only. *)
Definition row_v1 : Row :=
  [("ID", VStr "v1"); ("#CHROM", VStr "chr1"); ("POS", VInt 100); ("END", VInt 200);
   ("HAP", VStr "h1"); ("HAP_VARIANTS", VStr "v1")].


(** chr1 callable over [[50, 300)]. *)
Definition map_wide : defaultdict := {[ VStr "chr1" := {[ (50, 300) ]} ]}.

(** chr1 callable over [[100, 150)] only. *)
Definition map_partial : defaultdict := {[ VStr "chr1" := {[ (100, 150) ]} ]}.

(** Two records on contig c, the first inside the excluded [[0, 10)], the
    second far from it. *)
Definition row_near : Row := [("ID", VStr "a"); ("TIG_REGION", VStr "c:1-5")].
Definition row_far : Row := [("ID", VStr "b"); ("TIG_REGION", VStr "c:100-200")].
Definition row_bad : Row := [("ID", VStr "x"); ("TIG_REGION", VStr "c:1-5;c:7-9")].

Definition calls : DataFrame :=
  {| columns := ["ID"; "TIG_REGION"];
     records := [(VStr "a", row_near); (VStr "b", row_far)] |}.

(** The same two records under one shared index label. *)
Definition calls_same_label : DataFrame :=
  {| columns := ["ID"; "TIG_REGION"];
     records := [(VStr "a", row_near); (VStr "a", row_far)] |}.

Definition calls_far : DataFrame :=
  {| columns := ["ID"; "TIG_REGION"]; records := [(VStr "b", row_far)] |}.

Definition calls_bad : DataFrame :=
  {| columns := ["ID"; "TIG_REGION"];
     records := [(VStr "b", row_far); (VStr "x", row_bad); (VStr "a", row_near)] |}.

Definition exclude_c : defaultdict := {[ VStr "c" := {[ (0, 10) ]} ]}.

(** Sample: the merged record m1 of both haplotypes, v1 in h1 and v9 in h2. *)
Definition merged_m1 : DataFrame :=
  {| columns := ["HAP"; "HAP_VARIANTS"];
     records := [(VStr "m1", [("HAP", VStr "h1;h2"); ("HAP_VARIANTS", VStr "v1;v9")])] |}.

Definition source_h1 : DataFrame :=
  {| columns := ["CI"]; records := [(VStr "v1", [("CI", VStr "0,5")])] |}.

Definition source_h2 : DataFrame :=
  {| columns := ["CI"]; records := [(VStr "v9", [("CI", VStr "0,3")])] |}.

(** Source tables of two records each: v1 is the second record of h1, v9 the
    first of h2. *)
Definition source_h1_pair : DataFrame :=
  {| columns := ["CI"];
     records := [(VStr "v0", [("CI", VStr "9,9")]); (VStr "v1", [("CI", VStr "0,5")])] |}.

Definition source_h2_pair : DataFrame :=
  {| columns := ["CI"];
     records := [(VStr "v9", [("CI", VStr "0,3")]); (VStr "v8", [("CI", VStr "7,7")])] |}.

Definition source_h2_other : DataFrame :=
  {| columns := ["CI"]; records := [(VStr "v7", [("CI", VStr "0,3")])] |}.

(** Sample merge: the clustering hands back v1, called in h1 only; both
    haplotypes are callable over chr1 [[50, 300)]. *)
Definition merged_table : DataFrame :=
  {| columns := ["#CHROM"; "POS"; "END"; "ID"; "SVTYPE"; "MERGE_SAMPLES"; "MERGE_VARIANTS";
                 "MERGE_SRC"; "MERGE_SRC_ID"; "MERGE_AC"; "MERGE_AF"];
     records :=
       [(VInt 0,
         [("#CHROM", VStr "chr1"); ("POS", VInt 100); ("END", VInt 200); ("ID", VStr "v1");
          ("SVTYPE", VStr "DEL"); ("MERGE_SAMPLES", VStr "h1"); ("MERGE_VARIANTS", VStr "v1");
          ("MERGE_SRC", VStr "h1"); ("MERGE_SRC_ID", VStr "v1"); ("MERGE_AC", VInt 1);
          ("MERGE_AF", VStr "0.5")])] |}.

Definition hap_columns : list string :=
  ["ID"; "TIG_REGION"; "QUERY_STRAND"; "CI"; "ALIGN_INDEX"; "CLUSTER_MATCH"; "CALL_SOURCE"].

Definition h1_table : DataFrame :=
  {| columns := hap_columns;
     records :=
       [(VInt 0,
         [("ID", VStr "v1"); ("TIG_REGION", VStr "tig1:1100-1200"); ("QUERY_STRAND", VStr "+");
          ("CI", VStr "0,5"); ("ALIGN_INDEX", VInt 3); ("CLUSTER_MATCH", VNaN);
          ("CALL_SOURCE", VStr "CIGAR")])] |}.

Definition h2_table : DataFrame :=
  {| columns := hap_columns;
     records :=
       [(VInt 0,
         [("ID", VStr "v9"); ("TIG_REGION", VStr "tig7:40-90"); ("QUERY_STRAND", VStr "-");
          ("CI", VStr "0,3"); ("ALIGN_INDEX", VInt 8); ("CLUSTER_MATCH", VNaN);
          ("CALL_SOURCE", VStr "CIGAR")])] |}.

Definition callable_table : DataFrame :=
  {| columns := ["#CHROM"; "POS"; "END"];
     records := [(VInt 0, [("#CHROM", VStr "chr1"); ("POS", VInt 50); ("END", VInt 300)])] |}.

Definition sample_merge_variants (bed_list sample_names : list string) (strategy : string)
    (threads : Z) (subset_chrom : option string) : result DataFrame :=
  Ok merged_table.

Definition sample_read_csv_chrom (file_name : string) (chrom : option string)
  : result DataFrame :=
  if decide (file_name = "h1.bed") then Ok h1_table else Ok h2_table.

Definition sample_read_csv (file_name : string) : result DataFrame := Ok callable_table.

Definition sample_merge (is_inv : option bool) : result DataFrame :=
  merge_haplotypes sample_merge_variants sample_read_csv_chrom sample_read_csv
    "h1.bed" "h2.bed" "h1_callable.bed" "h2_callable.bed" "nr:szro=50" 1 None is_inv.

(** The table the sample merge hands back. *)
Definition sample_merged : DataFrame :=
  {| columns := ["#CHROM"; "POS"; "END"; "ID"; "SVTYPE"; "HAP"; "HAP_VARIANTS";
                 "TIG_REGION"; "QUERY_STRAND"; "CI"; "ALIGN_INDEX"; "CLUSTER_MATCH";
                 "CALL_SOURCE"; "GT"];
     records :=
       [(VStr "v1",
         [("#CHROM", VStr "chr1"); ("POS", VInt 100); ("END", VInt 200); ("ID", VStr "v1");
          ("SVTYPE", VStr "DEL"); ("HAP", VStr "h1"); ("HAP_VARIANTS", VStr "v1");
          ("TIG_REGION", VStr "tig1:1100-1200"); ("QUERY_STRAND", VStr "+");
          ("CI", VStr "0,5"); ("ALIGN_INDEX", VStr "3"); ("CLUSTER_MATCH", VStr "NA");
          ("CALL_SOURCE", VStr "CIGAR"); ("GT", VStr "1|0")])] |}.

(** A frame in which no haplotype carries the record, callable in both. *)
Definition uncalled : DataFrame :=
  {| columns := ["#CHROM"; "POS"; "END"; "HAP"];
     records := [(VStr "v1", [("#CHROM", VStr "chr1"); ("POS", VInt 100);
                              ("END", VInt 200); ("HAP", VStr "")])] |}.

(** A record on chr2, where the sample callable table has no region. *)
Definition row_chr2 : Row :=
  [("ID", VStr "v2"); ("#CHROM", VStr "chr2"); ("POS", VInt 100); ("END", VInt 200);
   ("HAP", VStr "h1"); ("HAP_VARIANTS", VStr "v2")].

(** ** Further readings of the code *)


(** A row of a callable-region table that the loop can store: integer
    [POS < END] under some chromosome. *)
Definition valid_region (row : Row) : Prop :=
  exists chrom b e, region_row row chrom b e /\ b < e.





(** A callable table whose second region is null: [POS = END]. *)
Definition callable_null : DataFrame :=
  {| columns := ["#CHROM"; "POS"; "END"];
     records :=
       [(VInt 0, [("#CHROM", VStr "chr1"); ("POS", VInt 50); ("END", VInt 300)]);
        (VInt 1, [("#CHROM", VStr "chr1"); ("POS", VInt 400); ("END", VInt 400)])] |}.

(** Variant v1 with a missing POS. *)
Definition row_nan_pos : Row :=
  [("ID", VStr "v1"); ("#CHROM", VStr "chr1"); ("POS", VNaN); ("END", VInt 200);
   ("HAP", VStr "h1"); ("HAP_VARIANTS", VStr "v1")].

(** The record inside the excluded [[0, 10)] under a NaN index label. *)
Definition calls_nan_label : DataFrame :=
  {| columns := ["ID"; "TIG_REGION"]; records := [(VNaN, row_near)] |}.

(** The label of a record is carried by some record of the frame whose contig
    range hits the tree. *)
Definition label_hit (tree : defaultdict) (d : DataFrame) (label : value) : Prop :=
  exists row, (label, row) ∈ records d /\ hits_tree tree row.

(** The test of the loop body in coordinates: the 1-based inclusive
    [start..stop] meets a stored interval [[begin, end)] of the contig. *)
Definition meets_contig (tree : defaultdict) (contig : string) (start stop : Z) : Prop :=
  start ≤ stop /\
  set_Exists (fun iv => ibegin iv < stop ∧ start ≤ iend iv)
             (dd_getitem tree (VStr contig)).

(** Records next to the excluded [[0, 10)] of contig c: 1-based position 10 is
    its last base, position 11 the first one after it. *)
Definition row_touching : Row := [("ID", VStr "t"); ("TIG_REGION", VStr "c:10-20")].
Definition row_after : Row := [("ID", VStr "u"); ("TIG_REGION", VStr "c:11-20")].

(** A record of both haplotypes as the merge writes its TIG_REGION. *)
Definition row_joined : Row :=
  [("ID", VStr "m1"); ("TIG_REGION", VStr "tig1:1100-1200;tig7:40-90")].

Definition calls_joined : DataFrame :=
  {| columns := ["ID"; "TIG_REGION"];
     records := [(VStr "b", row_far); (VStr "m1", row_joined)] |}.

#[global] Instance meets_contig_dec (tree : defaultdict) (contig : string) (start stop : Z) :
  Decision (meets_contig tree contig start stop).
Proof. unfold meets_contig. apply _. Defined.

(** A TIG_REGION cell that joins a well-formed region to something else with
    the [';'] of [val_per_hap]. *)
Definition joined_region (row : Row) : Prop :=
  exists v1 v2 contig start stop,
    row_getitem row "TIG_REGION" = Ok (VStr (v1 ++ ";" ++ v2)) /\
    tig_pattern v1 contig start stop.

(** The value of a record with any number of labels: the labels are paired
    with the identifiers position by position, as far as both lists go, each
    pair is looked up, and the text fields found are joined in that order. *)
Definition resolved (df_h1 df_h2 : DataFrame) (col_name delim : string) (row : Row)
    (out : string) : Prop :=
  exists haps ids vs,
    hap_labels row haps ids /\
    Forall2 (fun p v => source_field df_h1 df_h2 col_name (fst p) (snd p) v)
            (zip haps ids) vs /\
    out = join delim vs.

(** A record one of whose paired labels is neither h1 nor h2. *)
Definition unknown_label (row : Row) : Prop :=
  exists val_list hap id,
    hap_id_pairs row = Ok val_list /\ (hap, id) ∈ val_list /\
    hap <> "h1" /\ hap <> "h2".

(** A merged record that names a third haplotype. *)
Definition merged_h3 : DataFrame :=
  {| columns := ["HAP"; "HAP_VARIANTS"];
     records := [(VStr "m1", [("HAP", VStr "h1;h3"); ("HAP_VARIANTS", VStr "v1;v9")])] |}.

(** A merged record with two labels and a single identifier. *)
Definition merged_short : DataFrame :=
  {| columns := ["HAP"; "HAP_VARIANTS"];
     records := [(VStr "m1", [("HAP", VStr "h1;h2"); ("HAP_VARIANTS", VStr "v1")])] |}.

(** [s.replace(a, b)] for single characters. *)
Fixpoint replace_char (a b : ascii) (s : string) : string :=
  match s with
  | EmptyString => EmptyString
  | String c s' => String (if Ascii.eqb c a then b else c) (replace_char a b s')
  end.

Definition not_semicolon (c : ascii) : bool := negb (Ascii.eqb c ";").

(** The text a cell of column [k] has after the preparation of a haplotype
    table: a missing CLUSTER_MATCH reads NA, any other cell reads as [str]
    prints it. *)
Definition text_of (k : string) (v : value) : string :=
  match v with
  | VNaN => if decide (k = "CLUSTER_MATCH") then "NA" else "nan"
  | _ => py_str v
  end.

(** A table as read from a haplotype's call file has the columns ID and
    CLUSTER_MATCH, with a cell in every row. *)
Definition hap_table (d : DataFrame) : Prop :=
  "ID" ∈ columns d /\ "CLUSTER_MATCH" ∈ columns d /\
  Forall (fun r => (exists v, row_getitem (snd r) "ID" = Ok v) /\
                   (exists v, row_getitem (snd r) "CLUSTER_MATCH" = Ok v)) (records d).

(** A merge of two records of which one only is an inversion. *)
Definition merged_mixed : DataFrame :=
  {| columns := ["ID"; "SVTYPE"];
     records := [(VInt 0, [("ID", VStr "v1"); ("SVTYPE", VStr "INV")]);
                 (VInt 1, [("ID", VStr "v2"); ("SVTYPE", VStr "DEL")])] |}.

Definition mixed_merge_variants (bed_list sample_names : list string) (strategy : string)
    (threads : Z) (subset_chrom : option string) : result DataFrame :=
  Ok merged_mixed.

(** A merge without records, with the columns the clustering writes. *)
Definition merged_none : DataFrame :=
  {| columns := ["#CHROM"; "POS"; "END"; "ID"; "SVTYPE"; "MERGE_SAMPLES"; "MERGE_VARIANTS";
                 "MERGE_SRC"; "MERGE_SRC_ID"; "MERGE_AC"; "MERGE_AF"];
     records := [] |}.

Definition none_merge_variants (bed_list sample_names : list string) (strategy : string)
    (threads : Z) (subset_chrom : option string) : result DataFrame :=
  Ok merged_none.

(** Readers of files that do not exist. *)
Definition missing_read_csv_chrom (file_name : string) (chrom : option string)
  : result DataFrame :=
  Raise (RuntimeError "no such file").

Definition missing_read_csv (file_name : string) : result DataFrame :=
  Raise (RuntimeError "no such file").

(** The record is called in h1 or in h2. *)
Definition called_somewhere (row : Row) : Prop :=
  exists h, row_getitem row "HAP" = Ok (VStr h) /\
            (("h1" ∈ split ";" h) \/ ("h2" ∈ split ";" h)).

(** One side of a genotype against the HAP labels: ['1'] for a haplotype that
    carries the record, ['0'] or ['.'] for one that does not. *)
Definition gt_side (hap h g : string) : Prop :=
  ((hap ∈ split ";" h) /\ g = "1") \/ ((hap ∉ split ";" h) /\ (g = "0" \/ g = ".")).

(** The GT of a record agrees with its HAP, and one side at least is ['1']. *)
Definition gt_agrees (row : Row) : Prop :=
  exists h g1 g2,
    row_getitem row "HAP" = Ok (VStr h) /\
    row_getitem row "GT" = Ok (VStr (g1 ++ "|" ++ g2)) /\
    gt_side "h1" h g1 /\ gt_side "h2" h g2 /\ (g1 = "1" \/ g2 = "1").

(** What the genotype stage does to a record: the GT of the two calls is
    written and every cell of another column is as it was. *)
Definition genotyped (map_tree_h1 map_tree_h2 : defaultdict) (r r' : value * Row) : Prop :=
  fst r' = fst r /\
  exists g1 g2,
    get_gt (snd r) "h1" map_tree_h1 = Ok g1 /\
    get_gt (snd r) "h2" map_tree_h2 = Ok g2 /\
    row_getitem (snd r') "GT" = Ok (VStr (g1 ++ "|" ++ g2)) /\
    forall k, k <> "GT" -> k <> "GT_H1" -> k <> "GT_H2" ->
              row_getitem (snd r') k = row_getitem (snd r) k.

(** Two records ready for the genotype stage. *)
Definition to_genotype : DataFrame :=
  {| columns := ["#CHROM"; "POS"; "END"; "HAP"];
     records :=
       [(VStr "v1", [("#CHROM", VStr "chr1"); ("POS", VInt 100); ("END", VInt 200);
                     ("HAP", VStr "h1")]);
        (VStr "v2", [("#CHROM", VStr "chr2"); ("POS", VInt 5); ("END", VInt 9);
                     ("HAP", VStr "h1;h2")])] |}.

Definition genotyped_sample : DataFrame :=
  {| columns := ["#CHROM"; "POS"; "END"; "HAP"; "GT"];
     records :=
       [(VStr "v1", [("#CHROM", VStr "chr1"); ("POS", VInt 100); ("END", VInt 200);
                     ("HAP", VStr "h1"); ("GT", VStr "1|0")]);
        (VStr "v2", [("#CHROM", VStr "chr2"); ("POS", VInt 5); ("END", VInt 9);
                     ("HAP", VStr "h1;h2"); ("GT", VStr "1|1")])] |}.

(** A column name left by the clustering merge: it starts with ["MERGE_"]. *)
Definition merge_prefixed (name : string) : Prop :=
  exists rest, name = "MERGE_" ++ rest.

(** The helper columns that later steps of the merge delete again. *)
Definition scratch_columns : list string :=
  ["RGN_REF_DISC"; "RGN_TIG_DISC"; "FLAG_ID"; "FLAG_TYPE"; "GT_H1"; "GT_H2"].

(** The columns every merged table carries. *)
Definition reconciled_columns : list string :=
  ["TIG_REGION"; "QUERY_STRAND"; "CI"; "ALIGN_INDEX"; "CLUSTER_MATCH"; "CALL_SOURCE"; "GT"].

(** From [df] to [df'] no column is lost but scratch columns, and no
    [MERGE_] column appears. *)
Definition keeps_columns (df df' : DataFrame) : Prop :=
  (forall c, c ∈ columns df -> c ∉ scratch_columns -> c ∈ columns df') /\
  (Forall (fun c => ~ merge_prefixed c) (columns df) ->
   Forall (fun c => ~ merge_prefixed c) (columns df')).

(** The frame has every column of the list. *)
Definition carries (names : list string) (df : DataFrame) : Prop :=
  Forall (fun c => c ∈ columns df) names.

(** A merge of inversions without records, with the columns of an inversion
    call set. *)
Definition merged_no_inversions : DataFrame :=
  {| columns := ["#CHROM"; "POS"; "END"; "ID"; "SVTYPE"; "RGN_REF_DISC"; "RGN_TIG_DISC";
                 "FLAG_ID"; "FLAG_TYPE"; "MERGE_SAMPLES"; "MERGE_VARIANTS";
                 "MERGE_SRC"; "MERGE_SRC_ID"; "MERGE_AC"; "MERGE_AF"];
     records := [] |}.

Definition no_inversions_merge_variants (bed_list sample_names : list string)
    (strategy : string) (threads : Z) (subset_chrom : option string) : result DataFrame :=
  Ok merged_no_inversions.

(** The table the merge without inversions hands back in inversion mode. *)
Definition no_inversions_merged : DataFrame :=
  {| columns := ["#CHROM"; "POS"; "END"; "ID"; "SVTYPE"; "HAP"; "HAP_VARIANTS";
                 "TIG_REGION"; "QUERY_STRAND"; "CI"; "ALIGN_INDEX"; "CLUSTER_MATCH";
                 "CALL_SOURCE"; "RGN_REF_INNER"; "RGN_TIG_INNER"; "GT"];
     records := [] |}.

(** The columns that [merge_haplotypes] deletes or writes by name. *)
Definition rewritten_columns : list string :=
  ["DISC_CLASS"; "TIG_REGION"; "QUERY_STRAND"; "CI"; "ALIGN_INDEX"; "CLUSTER_MATCH";
   "CALL_SOURCE"; "RGN_REF_DISC"; "RGN_TIG_DISC"; "FLAG_ID"; "FLAG_TYPE";
   "RGN_REF_INNER"; "RGN_TIG_INNER"; "GT_H1"; "GT_H2"; "GT"].

(** A column the merge passes through: its name starts neither with
    ["MERGE_"] nor with ["HAP"], and no statement deletes or writes it. *)
Definition passes_through (c : string) : bool :=
  negb (String.prefix "MERGE_" c) && negb (String.prefix "HAP" c)
  && bool_decide (c ∉ rewritten_columns).

(** The record keeps its index label and its cells of the columns that pass
    through. *)
Definition kept (r r' : value * Row) : Prop :=
  fst r' = fst r /\
  forall c, passes_through c = true -> row_getitem (snd r') c = row_getitem (snd r) c.

(** A record of the clustering merge and the record handed back for it: the
    index label is the ID, the cells of the columns that pass through are
    those of the merge. *)
Definition handed_back (r r' : value * Row) : Prop :=
  row_getitem (snd r) "ID" = Ok (fst r') /\
  forall c, passes_through c = true -> row_getitem (snd r') c = row_getitem (snd r) c.

(** The bookkeeping fields of the clustering merge that [merge_haplotypes]
    deletes by name after the renaming. *)
Definition merge_fields : list string := ["SRC"; "SRC_ID"; "AC"; "AF"].

(** The frame has the field under its [MERGE_] or its [HAP_] name. *)
Definition has_merge_field (df : DataFrame) (field : string) : Prop :=
  (("MERGE_" ++ field) ∈ columns df) \/ (("HAP_" ++ field) ∈ columns df).

(** * Properties *)

(** ** The result monad *)

Lemma bind_Ok {A B : Type} (f : A -> result B) (a : A) : (Ok a ≫= f) = f a.
Proof. reflexivity. Qed.

Lemma bind_Raise {A B : Type} (f : A -> result B) (e : exn) : (Raise e ≫= f) = Raise e.
Proof. reflexivity. Qed.

Lemma bind_Ok_inv {A B : Type} (f : A -> result B) (r : result A) (b : B) :
  (r ≫= f) = Ok b -> exists a, r = Ok a /\ f a = Ok b.
Proof. destruct r as [a|e]; simpl; [eauto | discriminate]. Qed.

Lemma for_each_cons {A S : Type} (body : S -> A -> result S) (x : A) (xs : list A) (acc : S) :
  for_each body (x :: xs) acc = (body acc x ≫= for_each body xs).
Proof. reflexivity. Qed.

Lemma map_result_cons {A B : Type} (f : A -> result B) (x : A) (xs : list A) :
  map_result f (x :: xs) = (f x ≫= fun y => map_result f xs ≫= fun ys => Ok (y :: ys)).
Proof. reflexivity. Qed.

Lemma map_result_Forall2 {A B : Type} (f : A -> result B) (xs : list A) (ys : list B) :
  map_result f xs = Ok ys <-> Forall2 (fun x y => f x = Ok y) xs ys.
Proof.
  split.
  - revert ys. induction xs as [|x xs IH]; simpl; intros ys H.
    + injection H as <-. constructor.
    + apply bind_Ok_inv in H as (y & Hy & H).
      apply bind_Ok_inv in H as (ys' & Hys & H). injection H as <-.
      constructor; [assumption | by apply IH].
  - induction 1 as [|x y xs ys Hxy _ IH]; [reflexivity |].
    rewrite map_result_cons, Hxy. simpl. by rewrite IH.
Qed.

(** ** get_gt *)

Lemma any_result_contains (pos end_ : Z) (l : list Interval) :
  any_result
    (fun interval =>
       lo ← int_le_cell (ibegin interval) (VInt pos);
       if lo : bool then int_ge_cell (iend interval) (VInt end_) else Ok false) l
  = Ok (existsb (fun iv => (ibegin iv <=? pos) && (iend iv >=? end_)) l).
Proof.
  induction l as [|iv l IH]; simpl; [reflexivity |].
  destruct (ibegin iv <=? pos); simpl.
  - destruct (iend iv >=? end_); simpl; [reflexivity | exact IH].
  - exact IH.
Qed.

Lemma overlap_holds_covering (tree : IntervalTree) (p e : Z) (iv : Interval) :
  p < e -> iv ∈ tree -> ibegin iv ≤ p -> e ≤ iend iv -> iv ∈ overlap tree p e.
Proof.
  intros Hpe Hin Hb He. unfold overlap.
  destruct (decide (tree = ∅)) as [->|_]; [set_solver |].
  destruct (Z.geb_spec p e); [lia |].
  apply elem_of_filter. split; [lia | assumption].
Qed.

Lemma overlap_subseteq (tree : IntervalTree) (p e : Z) : overlap tree p e ⊆ tree.
Proof.
  unfold overlap. destruct (decide (tree = ∅)); [set_solver |].
  destruct (p >=? e); [set_solver |].
  intros iv [_ Hin]%elem_of_filter. exact Hin.
Qed.

Lemma existsb_covering (tree : IntervalTree) (p e : Z) :
  p < e ->
  existsb (fun iv => (ibegin iv <=? p) && (iend iv >=? e)) (elements (overlap tree p e)) = true
  <-> set_Exists (fun iv => ibegin iv ≤ p ∧ e ≤ iend iv) tree.
Proof.
  intros Hpe. rewrite existsb_exists. split.
  - intros (iv & Hin & Hc). exists iv.
    apply list_elem_of_In, elem_of_elements, overlap_subseteq in Hin.
    apply andb_true_iff in Hc as [Hb He].
    apply Z.leb_le in Hb. apply Z.geb_le in He. split; [assumption | lia].
  - intros (iv & Hin & Hb & He). exists iv. split.
    + apply list_elem_of_In, elem_of_elements. by apply overlap_holds_covering.
    + apply andb_true_iff. split; [by apply Z.leb_le | apply Z.geb_le; lia].
Qed.



(** The scenarios of the specification: full cover gives 0, partial cover a
    no-call, the calling haplotype 1. *)
Example get_gt_scenarios :
  get_gt row_v1 "h1" map_wide = Ok "1" /\
  get_gt row_v1 "h2" map_wide = Ok "0" /\
  get_gt row_v1 "h2" map_partial = Ok ".".
Proof. repeat split; vm_compute; reflexivity. Qed.


(** C9: a record that lacks the queried haplotype and whose chromosome has no
    stored interval in the mappability tree gets ['.'], whatever its POS and
    END cells hold: an unknown chromosome reads as an empty tree and nothing is
    raised. *)
Theorem get_gt_unknown_chrom (row : Row) (hap : string) (map_tree : defaultdict)
    (h : string) (chrom pos end_ : value) :
  row_getitem row "HAP" = Ok (VStr h) ->
  hap ∉ split ";" h ->
  row_getitem row "#CHROM" = Ok chrom ->
  row_getitem row "POS" = Ok pos ->
  row_getitem row "END" = Ok end_ ->
  (forall iv, iv ∉ dd_getitem map_tree chrom) ->
  get_gt row hap map_tree = Ok ".".
Proof.
  intros HH Hin HC HP HE Hnone. unfold get_gt.
  rewrite HH. simpl. rewrite bool_decide_eq_false_2 by assumption.
  rewrite HC, HP, HE. simpl. unfold overlap_cells.
  rewrite decide_True by (apply set_eq; intros iv; specialize (Hnone iv); set_solver).
  simpl. rewrite elements_empty. reflexivity.
Qed.

Lemma get_gt_unknown_chrom_witness :
  get_gt row_chr2 "h2" map_wide = Ok ".".
Proof.
  apply (get_gt_unknown_chrom row_chr2 "h2" map_wide "h1" (VStr "chr2") (VInt 100) (VInt 200));
    try reflexivity.
  - apply (bool_decide_unpack ("h2" ∉ split ";" "h1")). vm_compute. exact I.
  - intros iv. unfold dd_getitem, map_wide.
    rewrite lookup_singleton_ne by discriminate. simpl. set_solver.
Defined.

(** ** The TIG_REGION pattern *)

Lemma span_spec (p : ascii -> bool) (s a r : string) :
  span p s = (a, r) -> s = a ++ r /\ all_chars p a = true /\ stops_at p r.
Proof.
  revert a r. induction s as [|c s IH]; simpl; intros a r H.
  - injection H as <- <-. done.
  - destruct (p c) eqn:Hc.
    + destruct (span p s) as [a' r'] eqn:Hs. injection H as <- <-.
      destruct (IH a' r' eq_refl) as (-> & Ha & Hr). simpl. by rewrite Hc, Ha.
    + injection H as <- <-. simpl. done.
Qed.

Lemma span_app (p : ascii -> bool) (a r : string) :
  all_chars p a = true -> stops_at p r -> span p (a ++ r) = (a, r).
Proof.
  intros Ha Hr. induction a as [|c a IH]; simpl in *.
  - destruct r as [|c r]; simpl in *; [reflexivity | by rewrite Hr].
  - apply andb_true_iff in Ha as [-> Ha]. by rewrite (IH Ha).
Qed.

Lemma at_end_spec (s : string) : at_end s = true <-> s = "" \/ s = String "010" "".
Proof.
  destruct s as [|c [|c' s]]; simpl.
  - split; [by left | done].
  - rewrite Ascii.eqb_eq. split; [intros ->; by right | by intros [? | [= ->]]].
  - split; [done | by intros [? | ?]].
Qed.

Lemma expect_Some (c : ascii) (s rest : string) :
  expect c s = Some rest <-> s = String c rest.
Proof.
  destruct s as [|x s]; simpl; [done |].
  destruct (Ascii.eqb_spec x c) as [->|Hne]; split; intros H; by simplify_eq.
Qed.

Lemma nonempty_spec (s : string) : nonempty s = true <-> s <> "".
Proof. by destruct s. Qed.

(** The matcher accepts exactly the strings of the pattern, with its groups. *)
Lemma re_match_tig_region_Some (s contig start stop : string) :
  re_match_tig_region s = Some (contig, start, stop) <-> tig_pattern s contig start stop.
Proof.
  unfold re_match_tig_region, tig_pattern. split.
  - destruct (span not_colon s) as [c r1] eqn:H1.
    destruct (expect ":" r1) as [r2|] eqn:E1; [| discriminate]. simpl.
    destruct (span is_digit r2) as [a r3] eqn:H2.
    destruct (expect "-" r3) as [r4|] eqn:E2; [| discriminate]. simpl.
    destruct (span is_digit r4) as [b r5] eqn:H3.
    destruct (_ && _) eqn:Hall; [| discriminate]. intros [= <- <- <-].
    apply andb_true_iff in Hall as [Hall H5].
    apply andb_true_iff in Hall as [Hall Hb'].
    apply andb_true_iff in Hall as [Hc' Ha'].
    apply expect_Some in E1 as ->. apply expect_Some in E2 as ->.
    apply span_spec in H1 as (-> & Hc & _). apply span_spec in H2 as (-> & Ha & _).
    apply span_spec in H3 as (-> & Hb & _). apply at_end_spec in H5.
    exists r5. rewrite nonempty_spec in Hc', Ha', Hb'. repeat split; try done.
  - intros (tail & -> & Hc & Hcs & Ha & Has & Hb & Hbs & Htail).
    change (contig ++ ":" ++ start ++ "-" ++ stop ++ tail)
      with (contig ++ String ":" (start ++ String "-" (stop ++ tail))).
    rewrite (span_app not_colon contig) by done.
    rewrite (proj2 (expect_Some ":" _ _) eq_refl). cbn [mbind option_bind].
    rewrite (span_app is_digit start) by done.
    rewrite (proj2 (expect_Some "-" _ _) eq_refl). cbn [mbind option_bind].
    rewrite (span_app is_digit stop) by (try done; by destruct Htail as [-> | ->]).
    rewrite (proj2 (nonempty_spec contig) Hc), (proj2 (nonempty_spec start) Ha),
      (proj2 (nonempty_spec stop) Hb), (proj2 (at_end_spec tail) Htail).
    reflexivity.
Qed.

Example re_match_tig_region_samples :
  re_match_tig_region "tig1:1100-1200" = Some ("tig1", "1100", "1200") /\
  re_match_tig_region "c:1-5;c:7-9" = None /\
  re_match_tig_region "c:1" = None /\
  re_match_tig_region ":1-5" = None /\
  re_match_tig_region (String "c" (String ":" (String "1" (String "-" (String "5"
    (String "010" ""))))))
  = Some ("c", "1", "5").
Proof. repeat split; reflexivity. Qed.

Lemma re_match_tig_region_None (s : string) :
  re_match_tig_region s = None <-> forall contig start stop, ~ tig_pattern s contig start stop.
Proof.
  split.
  - intros Hnone c a b Hp. apply re_match_tig_region_Some in Hp. congruence.
  - intros Hno. destruct (re_match_tig_region s) as [[[c a] b]|] eqn:Hm; [| reflexivity].
    apply re_match_tig_region_Some in Hm. by destruct (Hno c a b).
Qed.

Lemma tig_range_match (row : Row) (contig : string) (b e : Z) :
  tig_range row contig b e <->
  exists s start stop,
    row_getitem row "TIG_REGION" = Ok (VStr s) /\
    re_match_tig_region s = Some (contig, start, stop) /\
    b = int_of_string start - 1 /\ e = int_of_string stop.
Proof.
  unfold tig_range. split; intros (s & start & stop & Hs & Hm & Hb & He);
    exists s, start, stop; repeat split; try done; by apply re_match_tig_region_Some.
Qed.

Lemma malformed_match (row : Row) (s : string) :
  malformed row s <->
  row_getitem row "TIG_REGION" = Ok (VStr s) /\ re_match_tig_region s = None.
Proof. unfold malformed. by rewrite re_match_tig_region_None. Qed.

(** ** filter_by_tig_tree *)

Lemma overlap_nonempty_iff (t : IntervalTree) (b e : Z) :
  (forall iv, iv ∈ t -> ibegin iv < iend iv) ->
  overlap t b e <> ∅ <->
  exists iv x, iv ∈ t /\ b ≤ x < e /\ ibegin iv ≤ x < iend iv.
Proof.
  intros Hwf. unfold overlap. split.
  - intros Hne. destruct (decide (t = ∅)); [done |].
    destruct (Z.geb_spec b e); [done |].
    apply set_choose_L in Hne as [iv [[H1 H2] Hin]%elem_of_filter].
    specialize (Hwf iv Hin).
    exists iv, (Z.max b (ibegin iv)). split; [assumption | lia].
  - intros (iv & x & Hin & Hx & Hiv).
    destruct (decide (t = ∅)) as [->|_]; [set_solver |].
    destruct (Z.geb_spec b e); [lia |].
    intros Hempty.
    assert (iv ∈ filter (fun iv => ibegin iv < e ∧ b < iend iv) t) as Hf
      by (apply elem_of_filter; split; [lia | assumption]).
    rewrite Hempty in Hf. set_solver.
Qed.

Lemma dd_getitem_wf (tree : defaultdict) (k : value) (iv : Interval) :
  tree_wf tree -> iv ∈ dd_getitem tree k -> ibegin iv < iend iv.
Proof.
  intros Hwf. unfold dd_getitem. destruct (tree !! k) as [t|] eqn:Hk; simpl.
  - by apply (Hwf k t).
  - set_solver.
Qed.

Lemma tig_range_fun (row : Row) (c c' : string) (b b' e e' : Z) :
  tig_range row c b e -> tig_range row c' b' e' -> c = c' /\ b = b' /\ e = e'.
Proof.
  intros (s & a1 & a2 & Hs & Hm & -> & ->)%tig_range_match.
  intros (s' & a1' & a2' & Hs' & Hm' & -> & ->)%tig_range_match.
  rewrite Hs in Hs'. injection Hs' as <-. rewrite Hm in Hm'.
  by injection Hm' as <- <- <-.
Qed.

(** One turn of the loop on a record whose region has the expected form. *)
Lemma mark_record_parsed (tree : defaultdict) (rm : gset value) (index : value) (row : Row) :
  tree_wf tree ->
  (exists contig b e, tig_range row contig b e) ->
  exists rm', mark_record tree rm (index, row) = Ok rm' /\
    forall l, l ∈ rm' <-> l ∈ rm \/ (l = index /\ hits_tree tree row).
Proof.
  intros Hwf (contig & b & e & Hr).
  pose proof (proj1 (tig_range_match _ _ _ _) Hr) as (s & start & stop & Hs & Hm & -> & ->).
  unfold mark_record. rewrite Hs. simpl. rewrite Hm.
  pose proof (overlap_nonempty_iff (dd_getitem tree (VStr contig))
    (int_of_string start - 1) (int_of_string stop)
    (fun iv => dd_getitem_wf tree (VStr contig) iv Hwf)) as Hov.
  destruct (decide (overlap _ _ _ = ∅)) as [Hempty|Hne].
  - eexists. split; [reflexivity |]. intros l. split; [by left |].
    intros [Hl | [_ (c' & b' & e' & iv & x & Hr' & Hin & Hx & Hiv)]]; [assumption |].
    destruct (tig_range_fun _ _ _ _ _ _ _ Hr Hr') as (<- & <- & <-).
    exfalso. apply (proj2 Hov); eauto.
  - eexists. split; [reflexivity |]. intros l.
    rewrite elem_of_union, elem_of_singleton. split.
    + intros [-> | Hl]; [| by left]. right. split; [reflexivity |].
      apply Hov in Hne as (iv & x & Hin & Hx & Hiv).
      exists contig, (int_of_string start - 1), (int_of_string stop), iv, x. done.
    + intros [Hl | [-> _]]; [by right | by left].
Qed.

(** The whole loop on a frame of well-formed regions: the labels collected are
    those of the records that hit the tree. *)
Lemma mark_records_parsed (tree : defaultdict) (rows : list (value * Row)) (rm : gset value) :
  tree_wf tree ->
  Forall (fun r => exists contig b e, tig_range (snd r) contig b e) rows ->
  exists rm', for_each (mark_record tree) rows rm = Ok rm' /\
    forall l, l ∈ rm' <->
      l ∈ rm \/ exists row, (l, row) ∈ rows /\ hits_tree tree row.
Proof.
  intros Hwf Hrows. revert rm.
  induction Hrows as [|[index row] rows Hrow Hrows IH]; intros rm.
  - exists rm. split; [reflexivity |]. intros l. split; [by left |].
    intros [Hl | (row & Hin & _)]; [assumption | by apply elem_of_nil in Hin].
  - destruct (mark_record_parsed tree rm index row Hwf Hrow) as (rm1 & Hstep & Hrm1).
    destruct (IH rm1) as (rm' & Hloop & Hrm').
    exists rm'. split.
    + rewrite for_each_cons, Hstep. exact Hloop.
    + intros l. rewrite Hrm', Hrm1. split.
      * intros [[Hl | [-> Hhit]] | (row' & Hin & Hhit)].
        -- by left.
        -- right. exists row. split; [by left | assumption].
        -- right. exists row'. split; [by right | assumption].
      * intros [Hl | (row' & Hin & Hhit)]; [by left; left |].
        apply elem_of_cons in Hin as [Heq | Hin].
        -- injection Heq as -> ->. left. right. done.
        -- right. by exists row'.
Qed.

(** C7: without an exclusion tree the call hands back the very frame it was
    given, and nothing in the store changes. *)
Theorem filter_by_tig_tree_None (h : store) (df : ref) :
  filter_by_tig_tree h df None = Ok (df, h).
Proof. reflexivity. Qed.

(** C10: with an exclusion tree that no record's contig range hits, the call
    hands back the frame it was given, the same object and not a copy: the
    reference and the store are unchanged. *)
Theorem filter_by_tig_tree_no_hit (h : store) (df : ref) (tree : defaultdict) :
  tree_wf tree ->
  well_formed_regions (h !!! df) ->
  (forall r, r ∈ records (h !!! df) -> ~ hits_tree tree (snd r)) ->
  filter_by_tig_tree h df (Some tree) = Ok (df, h).
Proof.
  intros Hwf Hrows Hnone. unfold filter_by_tig_tree.
  destruct (mark_records_parsed tree (records (h !!! df)) ∅ Hwf Hrows)
    as (rm & -> & Hrm).
  simpl. rewrite decide_True; [reflexivity |].
  apply set_eq. intros l. rewrite Hrm. split.
  - intros [Hl | (row & Hin & Hhit)]; [assumption |].
    exfalso. exact (Hnone (l, row) Hin Hhit).
  - set_solver.
Qed.

Lemma set_contains_spec (rm : gset value) (l : value) :
  set_contains rm l = true <-> l <> VNaN /\ l ∈ rm.
Proof.
  destruct l; simpl; rewrite ?bool_decide_eq_true.
  - split; [by split | by intros [_ ?]].
  - split; [by split | by intros [_ ?]].
  - split; [discriminate | by intros [? _]].
Qed.

Lemma loc_mask_not_in (d : DataFrame) (rm : gset value) :
  records (loc_mask d (map (fun val => negb (set_contains rm val)) (index d)))
  = filter (fun r => fst r = VNaN \/ fst r ∉ rm) (records d).
Proof.
  unfold loc_mask, index. simpl.
  induction (records d) as [|[l row] rows IH]; [reflexivity |].
  simpl. rewrite !filter_cons. simpl.
  destruct (set_contains rm l) eqn:Hc; simpl.
  - apply set_contains_spec in Hc as [Hne Hin].
    rewrite decide_False by tauto. exact IH.
  - rewrite decide_True; [simpl; by rewrite IH |].
    destruct (decide (l = VNaN)); [by left | right].
    intros Hin. assert (set_contains rm l = true) by (by apply set_contains_spec).
    congruence.
Qed.

Lemma NoDup_index_row (rows : list (value * Row)) (l : value) (row row' : Row) :
  NoDup (map fst rows) -> (l, row) ∈ rows -> (l, row') ∈ rows -> row = row'.
Proof.
  induction rows as [|[l0 r0] rows IH]; simpl; intros Hnd H1 H2.
  - by apply elem_of_nil in H1.
  - apply NoDup_cons in Hnd as [Hnotin Hnd].
    assert (Hfst : forall r, (l0, r) ∈ rows -> False).
    { intros r Hr. apply Hnotin. apply list_elem_of_In, in_map_iff.
      exists (l0, r). split; [reflexivity | by apply list_elem_of_In]. }
    apply elem_of_cons in H1 as [H1|H1]; apply elem_of_cons in H2 as [H2|H2].
    + congruence.
    + injection H1 as -> ->. exfalso. eauto.
    + injection H2 as -> ->. exfalso. eauto.
    + by apply IH.
Qed.

(** C6, as amended: on a frame whose index labels are distinct, none of them
    a NaN, and whose TIG_REGION cells all have the expected form, the frame
    handed back keeps
    exactly the records whose contig range [[start - 1, end)] has no position
    in common with the exclusion tree, with their cells and labels, in their
    order and under the same columns; the frame passed in is left as it was. *)
Theorem filter_by_tig_tree_exclusive (h : store) (df : ref) (tree : defaultdict)
    (d : DataFrame) :
  h !! df = Some d ->
  tree_wf tree ->
  well_formed_regions d ->
  NoDup (index d) ->
  VNaN ∉ index d ->
  exists out h' d',
    filter_by_tig_tree h df (Some tree) = Ok (out, h') /\
    h' !! df = Some d /\
    h' !! out = Some d' /\
    columns d' = columns d /\
    sublist (records d') (records d) /\
    forall r, r ∈ records d -> (r ∈ records d' <-> ~ hits_tree tree (snd r)).
Proof.
  intros Hdf Hwf Hrows Hnd Hnan. unfold filter_by_tig_tree.
  rewrite (lookup_total_correct h df d Hdf).
  destruct (mark_records_parsed tree (records d) ∅ Hwf Hrows) as (rm & -> & Hrm).
  simpl. destruct (decide (rm = ∅)) as [Hempty|Hne].
  - exists df, h, d. do 5 (split; [done |]).
    intros [l row] Hin. split; [| done]. intros _ Hhit.
    assert (l ∈ rm) as Hl by (apply Hrm; right; by exists row).
    rewrite Hempty in Hl. set_solver.
  - eexists _, _, _. split; [reflexivity |].
    assert (fresh (dom h) <> df) as Hfresh.
    { intros Heq. apply (is_fresh (dom h)). rewrite Heq. by apply elem_of_dom. }
    split; [by rewrite lookup_insert_ne |].
    split; [by rewrite lookup_insert_eq |].
    split; [reflexivity |].
    rewrite loc_mask_not_in.
    split; [apply sublist_filter |].
    intros [l row] Hin. rewrite list_elem_of_filter. simpl.
    assert (l <> VNaN) as Hl.
    { intros ->. apply Hnan. unfold index. apply list_elem_of_fmap.
      by exists (VNaN, row). }
    split.
    + intros [[Heq | Hnot] _] Hhit; [done |]. apply Hnot, Hrm. right. by exists row.
    + intros Hnhit. split; [| assumption]. right.
      intros [Hl' | (row' & Hin' & Hhit)]%Hrm; [set_solver |].
      by rewrite (NoDup_index_row _ _ _ _ Hnd Hin Hin') in Hnhit.
Qed.

(** C8: when some record's TIG_REGION string does not match the pattern, the
    call with an exclusion tree ends in a RuntimeError whose message names the
    index label and the raw TIG_REGION of the offending record, the first such
    record in row order; no frame is handed back. *)
Theorem filter_by_tig_tree_malformed (h : store) (df : ref) (tree : defaultdict) :
  Forall (fun r => exists s, row_getitem (snd r) "TIG_REGION" = Ok (VStr s))
         (records (h !!! df)) ->
  Exists (fun r => exists s, malformed (snd r) s) (records (h !!! df)) ->
  exists pre index row s post,
    records (h !!! df) = (pre ++ (index, row) :: post)%list /\
    Forall (fun r => exists contig b e, tig_range (snd r) contig b e) pre /\
    malformed row s /\
    filter_by_tig_tree h df (Some tree)
    = Raise (RuntimeError ("Unrecognized TIG_REGION format for record "
                           ++ py_str index ++ ": " ++ s)).
Proof.
  intros Hstr Hbad. unfold filter_by_tig_tree.
  cut (forall rm, exists pre index row s post,
         records (h !!! df) = (pre ++ (index, row) :: post)%list /\
         Forall (fun r => exists contig b e, tig_range (snd r) contig b e) pre /\
         malformed row s /\
         for_each (mark_record tree) (records (h !!! df)) rm
         = Raise (unrecognized_tig_region index (VStr s))).
  { intros Hloop. destruct (Hloop ∅) as (pre & index & row & s & post & ? & ? & ? & ->).
    by exists pre, index, row, s, post. }
  induction Hstr as [|[index row] rows [s Hs] Hstr IH]; intros rm.
  - by apply Exists_nil in Hbad.
  - simpl in Hs. destruct (re_match_tig_region s) as [[[contig start] stop]|] eqn:Hm.
    + assert (Exists (fun r => exists s, malformed (snd r) s) rows) as Hbad'.
      { apply Exists_cons in Hbad as [(s' & Hbad) | ?]; [| assumption].
        apply malformed_match in Hbad as (Hs' & Hm'). simpl in Hs'. rewrite Hs in Hs'. injection Hs' as <-. congruence. }
      assert (exists rm1, mark_record tree rm (index, row) = Ok rm1) as [rm1 Hstep].
      { unfold mark_record. rewrite Hs. simpl. rewrite Hm.
        destruct (decide _); eauto. }
      destruct (IH Hbad' rm1) as (pre & i' & r' & s' & post & -> & Hpre & Hmal & Hloop).
      exists ((index, row) :: pre), i', r', s', post. repeat split; try done.
      * apply Forall_cons. split; [| assumption]. simpl.
        exists contig, (int_of_string start - 1), (int_of_string stop).
        apply tig_range_match. by exists s, start, stop.
      * apply Hmal.
      * apply Hmal.
      * rewrite for_each_cons, Hstep. exact Hloop.
    + exists [], index, row, s, rows.
      split; [reflexivity |]. split; [constructor |].
      split; [by apply malformed_match |].
      rewrite for_each_cons. unfold mark_record. rewrite Hs. simpl. by rewrite Hm.
Qed.

Lemma tree_wf_singleton (k : value) (b e : Z) :
  b < e -> tree_wf {[ k := {[ (b, e) ]} ]}.
Proof.
  intros Hbe k' t iv Hk Hiv.
  apply lookup_singleton_Some in Hk as [_ <-].
  apply elem_of_singleton in Hiv as ->. exact Hbe.
Qed.

Lemma hits_tree_range (tree : defaultdict) (row : Row) (contig : string) (b e : Z) :
  tig_range row contig b e ->
  hits_tree tree row ->
  exists iv x, iv ∈ dd_getitem tree (VStr contig) /\ b ≤ x < e /\ ibegin iv ≤ x < iend iv.
Proof.
  intros Hr (c' & b' & e' & iv & x & Hr' & Hin & Hx & Hiv).
  destruct (tig_range_fun _ _ _ _ _ _ _ Hr Hr') as (<- & <- & <-). eauto.
Qed.

Lemma row_near_range : tig_range row_near "c" 0 5.
Proof. apply tig_range_match. exists "c:1-5", "1", "5". repeat split; reflexivity. Qed.

Lemma row_far_range : tig_range row_far "c" 99 200.
Proof.
  apply tig_range_match. exists "c:100-200", "100", "200". repeat split; reflexivity.
Qed.

Lemma row_far_no_hit : ~ hits_tree exclude_c row_far.
Proof.
  intros Hhit.
  destruct (hits_tree_range _ _ _ _ _ row_far_range Hhit) as (iv & x & Hin & Hx & Hiv).
  unfold dd_getitem, exclude_c in Hin. rewrite lookup_singleton_eq in Hin.
  simpl in Hin. apply elem_of_singleton in Hin as ->. simpl in Hiv. lia.
Qed.

Lemma filter_by_tig_tree_no_hit_witness :
  filter_by_tig_tree {[ 0%nat := calls_far ]} 0%nat (Some exclude_c)
  = Ok (0%nat, {[ 0%nat := calls_far ]}).
Proof.
  apply (filter_by_tig_tree_no_hit {[ 0%nat := calls_far ]} 0%nat exclude_c).
  - apply tree_wf_singleton. lia.
  - rewrite lookup_total_singleton. repeat constructor. simpl.
    exists "c", 99, 200. exact row_far_range.
  - rewrite lookup_total_singleton. intros r Hr.
    apply list_elem_of_singleton in Hr as ->. exact row_far_no_hit.
Defined.

Lemma filter_by_tig_tree_exclusive_witness :
  exists out h' d',
    filter_by_tig_tree {[ 0%nat := calls ]} 0%nat (Some exclude_c) = Ok (out, h') /\
    h' !! 0%nat = Some calls /\
    h' !! out = Some d' /\
    columns d' = columns calls /\
    sublist (records d') (records calls) /\
    forall r, r ∈ records calls -> (r ∈ records d' <-> ~ hits_tree exclude_c (snd r)).
Proof.
  apply (filter_by_tig_tree_exclusive {[ 0%nat := calls ]} 0%nat exclude_c calls).
  - apply lookup_singleton_eq.
  - apply tree_wf_singleton. lia.
  - repeat constructor; simpl.
    + exists "c", 0, 5. exact row_near_range.
    + exists "c", 99, 200. exact row_far_range.
  - apply (bool_decide_unpack (NoDup (index calls))). vm_compute. exact I.
  - apply (bool_decide_unpack (VNaN ∉ index calls)). vm_compute. exact I.
Defined.

(** The frame of the sample: record a goes, record b stays, in a new object. *)
Example filter_by_tig_tree_sample :
  filter_by_tig_tree {[ 0%nat := calls ]} 0%nat (Some exclude_c)
  = Ok (1%nat, <[ 1%nat := calls_far ]> {[ 0%nat := calls ]}).
Proof. vm_compute. reflexivity. Qed.

(** C6 as stated fails when two records share an index label: the record at
    [c:100-200] has no position in common with the excluded [[0, 10)], and is
    removed all the same, because the record at [c:1-5] carries its label. *)
Lemma filter_by_tig_tree_shared_label_counterexample :
  tree_wf exclude_c /\
  well_formed_regions calls_same_label /\
  (VStr "a", row_far) ∈ records calls_same_label /\
  ~ hits_tree exclude_c row_far /\
  filter_by_tig_tree {[ 0%nat := calls_same_label ]} 0%nat (Some exclude_c)
  = Ok (1%nat, <[ 1%nat := {| columns := ["ID"; "TIG_REGION"]; records := [] |} ]>
                 {[ 0%nat := calls_same_label ]}).
Proof.
  split; [apply tree_wf_singleton; lia |].
  split.
  { repeat constructor; simpl.
    - exists "c", 0, 5. exact row_near_range.
    - exists "c", 99, 200. exact row_far_range. }
  split; [right; left |].
  split; [exact row_far_no_hit |].
  vm_compute. reflexivity.
Qed.

Lemma filter_by_tig_tree_malformed_witness :
  exists pre index row s post,
    records (({[ 0%nat := calls_bad ]} : store) !!! 0%nat)
    = (pre ++ (index, row) :: post)%list /\
    Forall (fun r => exists contig b e, tig_range (snd r) contig b e) pre /\
    malformed row s /\
    filter_by_tig_tree {[ 0%nat := calls_bad ]} 0%nat (Some exclude_c)
    = Raise (RuntimeError ("Unrecognized TIG_REGION format for record "
                           ++ py_str index ++ ": " ++ s)).
Proof.
  apply (filter_by_tig_tree_malformed {[ 0%nat := calls_bad ]} 0%nat exclude_c).
  - rewrite lookup_total_singleton. repeat constructor; simpl; eexists; reflexivity.
  - rewrite lookup_total_singleton. apply Exists_cons_tl, Exists_cons_hd.
    exists "c:1-5;c:7-9". apply malformed_match. split; reflexivity.
Defined.

(** The message for the sample: the label x and the raw cell. *)
Example filter_by_tig_tree_malformed_sample :
  filter_by_tig_tree {[ 0%nat := calls_bad ]} 0%nat (Some exclude_c)
  = Raise (RuntimeError "Unrecognized TIG_REGION format for record x: c:1-5;c:7-9").
Proof. vm_compute. reflexivity. Qed.

(** ** val_per_hap *)

Lemma hap_labels_pairs (row : Row) (haps ids : list string) :
  hap_labels row haps ids -> hap_id_pairs row = Ok (zip haps ids).
Proof.
  intros (h & v & Hh & <- & Hv & <-). unfold hap_id_pairs.
  rewrite Hh. simpl. rewrite Hv. reflexivity.
Qed.

Lemma table_of_label_dict (df_h1 df_h2 d : DataFrame) (hap : string) :
  table_of_label df_h1 df_h2 hap d <-> df_dict df_h1 df_h2 hap = Ok d.
Proof.
  unfold table_of_label, df_dict. split.
  - intros [[-> ->] | [-> ->]]; [by rewrite decide_True |].
    rewrite decide_False by discriminate. by rewrite decide_True.
  - destruct (decide (hap = "h1")) as [->|]; [intros [= <-]; by left |].
    destruct (decide (hap = "h2")) as [->|]; [intros [= <-]; by right | discriminate].
Qed.

Lemma filter_label_absent (rows : list (value * Row)) (l : value) :
  l ∉ map fst rows -> filter (fun r => fst r = l) rows = [].
Proof.
  induction rows as [|[l0 r0] rows IH]; simpl; intros Hl; [reflexivity |].
  apply not_elem_of_cons in Hl as [Hne Hl].
  rewrite filter_cons. simpl. rewrite decide_False by congruence. by apply IH.
Qed.

(** The rows under a label are one row exactly for a named record. *)
Lemma named_record_filter (d : DataFrame) (id : string) (row : Row) :
  named_record d id row <->
  filter (fun r => fst r = VStr id) (records d) = [(VStr id, row)].
Proof.
  unfold named_record. split.
  - intros (before & after & -> & Hb & Ha).
    rewrite filter_app, filter_cons. simpl. rewrite decide_True by reflexivity.
    by rewrite !filter_label_absent.
  - induction (records d) as [|[l r] rows IH]; [discriminate |].
    rewrite filter_cons. simpl. destruct (decide (l = VStr id)) as [->|Hne].
    + intros [= <- Hrest]. exists [], rows. split; [reflexivity |].
      split; [apply not_elem_of_nil |].
      intros Hin. apply list_elem_of_fmap in Hin as ([l' r'] & Hl' & Hin). simpl in Hl'.
      assert ((l', r') ∈ filter (fun r => fst r = VStr id) rows) as Hf
        by (apply list_elem_of_filter; split; [by simpl | assumption]).
      rewrite Hrest in Hf. by apply not_elem_of_nil in Hf.
    + intros H. destruct (IH H) as (before & after & -> & Hb & Ha).
      exists ((l, r) :: before), after. split; [reflexivity |].
      split; [| assumption]. simpl. apply not_elem_of_cons. split; [congruence | assumption].
Qed.

(** What [df.loc[id, name]] hands back as one text cell. *)
Lemma frame_loc_named (d : DataFrame) (id col_name v : string) :
  frame_loc d id col_name = Ok (Cell (VStr v)) <->
  exists row, named_record d id row /\ assoc col_name row = Some (VStr v).
Proof.
  unfold frame_loc. split.
  - destruct (filter _ (records d)) as [|[l row] [|r2 rest]] eqn:Hf; [discriminate | |].
    + intros H. exists row. unfold row_getitem in H.
      destruct (assoc col_name row) as [c|] eqn:Hc; [| discriminate].
      simpl in H. injection H as ->. split; [| reflexivity].
      apply named_record_filter. rewrite Hf. f_equal. f_equal.
      assert ((l, row) ∈ filter (fun r => fst r = VStr id) (records d)) as Hin
        by (rewrite Hf; by left).
      by apply list_elem_of_filter in Hin as [Hl _].
    + intros H. apply bind_Ok_inv in H as (vs & _ & [=]).
  - intros (row & Hrow%named_record_filter & Hc). rewrite Hrow.
    unfold row_getitem. by rewrite Hc.
Qed.

Lemma source_field_lookup (df_h1 df_h2 : DataFrame) (col_name hap id v : string) :
  source_field df_h1 df_h2 col_name hap id v <->
  (df_dict df_h1 df_h2 hap ≫= fun d => frame_loc d id col_name) = Ok (Cell (VStr v)).
Proof.
  split.
  - intros (d & row & Hd%table_of_label_dict & Hrow & Hc). rewrite Hd. simpl.
    apply frame_loc_named. by exists row.
  - intros H. apply bind_Ok_inv in H as (d & Hd%table_of_label_dict & Hloc).
    apply frame_loc_named in Hloc as (row & Hrow & Hc). by exists d, row.
Qed.

(** A reconciled record runs through both passes. *)
Lemma reconciled_run (df_h1 df_h2 : DataFrame) (col_name delim : string) (row : Row)
    (out : string) :
  reconciled df_h1 df_h2 col_name delim row out ->
  exists val_list,
    hap_id_pairs row = Ok val_list /\
    join_per_hap df_h1 df_h2 col_name delim val_list = Ok out.
Proof.
  intros [hap id v more Hl Hf | hap1 hap2 id1 id2 v1 v2 more Hl Hf1 Hf2];
    apply hap_labels_pairs in Hl; eexists; (split; [exact Hl |]);
    unfold join_per_hap; simpl.
  - apply source_field_lookup in Hf. simpl in Hf. rewrite Hf. reflexivity.
  - apply source_field_lookup in Hf1, Hf2. simpl in Hf1, Hf2.
    rewrite Hf1. simpl. rewrite Hf2. reflexivity.
Qed.

Lemma val_per_hap_passes (df_h1 df_h2 : DataFrame) (col_name delim : string)
    (rows : list (value * Row)) (outs : list string) :
  Forall2 (fun r out => reconciled df_h1 df_h2 col_name delim (snd r) out) rows outs ->
  exists tuples,
    map_result (fun r => val_list ← hap_id_pairs (snd r); Ok (fst r, val_list)) rows
    = Ok tuples /\
    map_result (fun t => s ← join_per_hap df_h1 df_h2 col_name delim (snd t);
                         Ok (fst t, VStr s)) tuples
    = Ok (zip (map fst rows) (map VStr outs)).
Proof.
  induction 1 as [|[l row] out rows outs Hrow _ (tuples & Hfirst & Hsecond)].
  - exists []. split; reflexivity.
  - destruct (reconciled_run _ _ _ _ _ _ Hrow) as (val_list & Hpairs & Hjoin).
    exists ((l, val_list) :: tuples). split.
    + rewrite map_result_cons. simpl in *. rewrite Hpairs. simpl.
      rewrite Hfirst. reflexivity.
    + rewrite map_result_cons. simpl in *. rewrite Hjoin. simpl.
      rewrite Hsecond. reflexivity.
Qed.

(** C4: on a frame whose records each carry one or two HAP labels, with as
    many HAP_VARIANTS identifiers, each found with a text field in the source
    table of its label, [val_per_hap] hands back one value per record, under
    the record's index label and in row order: the looked-up fields joined by
    the delimiter in the order of the HAP labels. *)
Theorem val_per_hap_order (df df_h1 df_h2 : DataFrame) (col_name delim : string)
    (outs : list string) :
  records df <> [] ->
  Forall2 (fun r out => reconciled df_h1 df_h2 col_name delim (snd r) out)
          (records df) outs ->
  val_per_hap df df_h1 df_h2 col_name delim = Ok (zip (index df) (map VStr outs)).
Proof.
  intros Hne Hrows. unfold val_per_hap, index.
  destruct (val_per_hap_passes _ _ _ _ _ _ Hrows) as (tuples & Hfirst & Hsecond).
  destruct (records df) as [|r rows]; [done |].
  rewrite Hfirst. exact Hsecond.
Qed.

Lemma val_per_hap_order_witness :
  val_per_hap merged_m1 source_h1_pair source_h2_pair "CI" ";"
  = Ok (zip (index merged_m1) (map VStr ["0,5;0,3"])).
Proof.
  apply (val_per_hap_order merged_m1 source_h1_pair source_h2_pair "CI" ";" ["0,5;0,3"]).
  - discriminate.
  - repeat constructor. simpl.
    refine (reconciled_two source_h1_pair source_h2_pair "CI" ";" _
              "h1" "h2" "v1" "v9" "0,5" "0,3" [] _ _ _).
    + exists "h1;h2", "v1;v9". repeat split; reflexivity.
    + exists source_h1_pair, [("CI", VStr "0,5")]. split; [by left |].
      split; [| reflexivity].
      exists [(VStr "v0", [("CI", VStr "9,9")])], []. split; [reflexivity |].
      split; [| apply not_elem_of_nil].
      apply (bool_decide_unpack (VStr "v1" ∉ [VStr "v0"])). vm_compute. exact I.
    + exists source_h2_pair, [("CI", VStr "0,3")]. split; [by right |].
      split; [| reflexivity].
      exists [], [(VStr "v8", [("CI", VStr "7,7")])]. split; [reflexivity |].
      split; [apply not_elem_of_nil |].
      apply (bool_decide_unpack (VStr "v9" ∉ [VStr "v8"])). vm_compute. exact I.
Defined.

(** A comprehension whose calls can only fail with [e] can only fail with [e],
    and does so as soon as one call fails. *)
Lemma map_result_only_raises {A B : Type} (f : A -> result B) (P : B -> Prop) (e : exn)
    (xs : list A) :
  (forall x, (exists y, f x = Ok y /\ P y) \/ f x = Raise e) ->
  ((exists ys, map_result f xs = Ok ys /\ Forall P ys) \/ map_result f xs = Raise e) /\
  (Exists (fun x => f x = Raise e) xs -> map_result f xs = Raise e).
Proof.
  intros Hf. induction xs as [|x xs [IH1 IH2]].
  - split; [left; exists []; by split | intros H; by apply Exists_nil in H].
  - rewrite map_result_cons. destruct (Hf x) as [(y & Hy & HP) | Hx].
    + rewrite Hy. simpl. split.
      * destruct IH1 as [(ys & -> & Hys) | ->]; [left | by right].
        exists (y :: ys). split; [reflexivity | by constructor].
      * intros [Hx | Hxs]%Exists_cons; [congruence |].
        by rewrite (IH2 Hxs).
    + rewrite Hx. simpl. split; [by right | reflexivity].
Qed.

Lemma filter_label_NoDup (rows : list (value * Row)) (l : value) :
  NoDup (map fst rows) ->
  filter (fun r => fst r = l) rows = [] \/
  exists row, filter (fun r => fst r = l) rows = [(l, row)] /\ (l, row) ∈ rows.
Proof.
  induction rows as [|[l0 r0] rows IH]; simpl; intros Hnd; [by left |].
  apply NoDup_cons in Hnd as [Hnotin Hnd]. rewrite filter_cons. simpl.
  destruct (decide (l0 = l)) as [->|Hne].
  - right. exists r0. split; [| by left].
    by rewrite filter_label_absent.
  - destruct (IH Hnd) as [-> | (row & -> & Hin)]; [by left |].
    right. exists row. split; [reflexivity | by right].
Qed.

Lemma frame_loc_absent (d : DataFrame) (id col_name : string) :
  VStr id ∉ index d -> frame_loc d id col_name = Raise KeyError.
Proof.
  intros Hid. unfold frame_loc. by rewrite filter_label_absent.
Qed.

(** In a text table a lookup finds one text cell, or no record at all. *)
Lemma frame_loc_text (d : DataFrame) (id col_name : string) :
  text_table d col_name ->
  (exists s, frame_loc d id col_name = Ok (Cell (VStr s))) \/
  frame_loc d id col_name = Raise KeyError.
Proof.
  intros [Hnd Htext]. unfold frame_loc.
  destruct (filter_label_NoDup (records d) (VStr id) Hnd) as [-> | (row & -> & Hin)];
    [by right |].
  left. rewrite Forall_forall in Htext.
  destruct (Htext _ Hin) as (s & Hs). simpl in Hs. exists s. by rewrite Hs.
Qed.

Lemma join_items_text (items : list loc_value) :
  Forall (fun it => exists s, it = Cell (VStr s)) items ->
  exists strs, join_items items = Ok strs.
Proof.
  induction 1 as [|it items (s & ->) _ (strs & IH)]; simpl; [by eexists |].
  rewrite IH. by eexists.
Qed.

(** Joining the fields of a record over text tables gives a string, or fails
    with a KeyError; it fails when one of its identifiers is dangling. *)
Lemma join_per_hap_text (df_h1 df_h2 : DataFrame) (col_name delim : string)
    (val_list : list (string * string)) :
  text_table df_h1 col_name -> text_table df_h2 col_name ->
  ((exists out, join_per_hap df_h1 df_h2 col_name delim val_list = Ok out /\ True) \/
   join_per_hap df_h1 df_h2 col_name delim val_list = Raise KeyError) /\
  (forall hap id d, (hap, id) ∈ val_list -> df_dict df_h1 df_h2 hap = Ok d ->
     VStr id ∉ index d ->
     join_per_hap df_h1 df_h2 col_name delim val_list = Raise KeyError).
Proof.
  intros H1 H2. unfold join_per_hap.
  set (f := fun val : string * string =>
              d ← df_dict df_h1 df_h2 (fst val); frame_loc d (snd val) col_name).
  assert (Hf : forall val,
    (exists it, f val = Ok it /\ (fun it => exists s, it = Cell (VStr s)) it) \/
    f val = Raise KeyError).
  { intros [hap id]. unfold f, df_dict. simpl.
    destruct (decide (hap = "h1")); [| destruct (decide (hap = "h2"))]; simpl.
    - destruct (frame_loc_text df_h1 id col_name H1) as [(s & ->) | ->]; eauto.
    - destruct (frame_loc_text df_h2 id col_name H2) as [(s & ->) | ->]; eauto.
    - by right. }
  destruct (map_result_only_raises f _ KeyError val_list Hf) as [Hall Hsome].
  split.
  - destruct Hall as [(items & -> & Hitems) | ->]; [| by right].
    destruct (join_items_text items Hitems) as (strs & Hj).
    left. simpl. rewrite Hj. simpl. eauto.
  - intros hap id d Hin Hd Hid. rewrite Hsome; [reflexivity |].
    apply Exists_exists. exists (hap, id). split; [assumption |].
    unfold f. simpl. rewrite Hd. simpl. by apply frame_loc_absent.
Qed.

Lemma first_pass_total (rows : list (value * Row)) :
  Forall (fun r => exists val_list, hap_id_pairs (snd r) = Ok val_list) rows ->
  exists tuples,
    map_result (fun r => val_list ← hap_id_pairs (snd r); Ok (fst r, val_list)) rows
    = Ok tuples /\
    forall r, r ∈ rows -> exists val_list,
      hap_id_pairs (snd r) = Ok val_list /\ (fst r, val_list) ∈ tuples.
Proof.
  induction 1 as [|r rows (val_list & Hr) _ (tuples & Hrows & Hin)].
  - exists []. split; [reflexivity |]. intros r Hr. by apply elem_of_nil in Hr.
  - exists ((fst r, val_list) :: tuples). split.
    + rewrite map_result_cons, Hr. simpl. rewrite Hrows. reflexivity.
    + intros r' [-> | Hr']%elem_of_cons.
      * exists val_list. split; [assumption | by left].
      * destruct (Hin r' Hr') as (vl & ? & ?). exists vl. split; [assumption | by right].
Qed.

(** A comprehension one of whose calls fails does not produce a list. *)
Lemma map_result_raises {A B : Type} (f : A -> result B) (xs : list A) :
  Exists (fun x => exists e, f x = Raise e) xs -> exists e, map_result f xs = Raise e.
Proof.
  induction xs as [|x xs IH]; intros H; [by apply Exists_nil in H |].
  rewrite map_result_cons. destruct (f x) as [y|e] eqn:Hx; [| by exists e].
  apply Exists_cons in H as [[e He] | H]; [congruence |].
  destruct (IH H) as [e ->]. by exists e.
Qed.

Lemma join_per_hap_dangling (df_h1 df_h2 d : DataFrame) (col_name delim hap id : string)
    (val_list : list (string * string)) :
  (hap, id) ∈ val_list -> df_dict df_h1 df_h2 hap = Ok d -> VStr id ∉ index d ->
  exists e, join_per_hap df_h1 df_h2 col_name delim val_list = Raise e.
Proof.
  intros Hin Hd Hid. unfold join_per_hap.
  destruct (map_result_raises
    (fun val => d ← df_dict df_h1 df_h2 (fst val); frame_loc d (snd val) col_name)
    val_list) as [e ->]; [| by exists e].
  apply Exists_exists. exists (hap, id). split; [assumption |].
  exists KeyError. simpl. rewrite Hd. simpl. by apply frame_loc_absent.
Qed.

(** C5: when an identifier of some record's HAP_VARIANTS is missing from the
    index of the source table of the label it is paired with, [val_per_hap]
    produces no Series: the call ends in an exception.  Over merged records
    with text HAP and HAP_VARIANTS and source tables as the orchestrator
    prepares them (distinct index labels, text cells), that exception is the
    KeyError of the failed lookup. *)
Theorem val_per_hap_dangling (df df_h1 df_h2 : DataFrame) (col_name delim : string) :
  Exists (fun r => dangling df_h1 df_h2 (snd r)) (records df) ->
  (exists e, val_per_hap df df_h1 df_h2 col_name delim = Raise e) /\
  (Forall (fun r => exists val_list, hap_id_pairs (snd r) = Ok val_list) (records df) ->
   text_table df_h1 col_name ->
   text_table df_h2 col_name ->
   val_per_hap df df_h1 df_h2 col_name delim = Raise KeyError).
Proof.
  intros Hdang. unfold val_per_hap.
  apply Exists_exists in Hdang as (r & Hr & val_list & hap & id & d & Hvl & Hin & Hd & Hid).
  destruct (records df) as [|r0 rows] eqn:Hrows; [by apply elem_of_nil in Hr |].
  rewrite <- Hrows in *. clear Hrows r0 rows.
  set (g := fun t : value * list (string * string) =>
              s ← join_per_hap df_h1 df_h2 col_name delim (snd t); Ok (fst t, VStr s)).
  split.
  - destruct (map_result _ (records df)) as [tuples|e] eqn:Hfirst; [| by exists e].
    rewrite bind_Ok. apply map_result_raises.
    apply map_result_Forall2 in Hfirst.
    apply list_elem_of_lookup in Hr as [i Hi].
    destruct (Forall2_lookup_l _ _ _ _ _ Hfirst Hi) as (t & Ht & Hrt).
    rewrite Hvl in Hrt. simpl in Hrt. injection Hrt as <-.
    apply Exists_exists. exists (fst r, val_list).
    split; [by apply list_elem_of_lookup_2 in Ht |]. unfold g. cbn [fst snd].
    destruct (join_per_hap_dangling df_h1 df_h2 d col_name delim hap id val_list
                Hin Hd Hid) as [e ->].
    by exists e.
  - intros Hpairs H1 H2.
    destruct (first_pass_total _ Hpairs) as (tuples & Hfirst & Htuples).
    rewrite Hfirst, bind_Ok.
    assert (Hg : forall t, (exists y, g t = Ok y /\ True) \/ g t = Raise KeyError).
    { intros t. unfold g.
      destruct (join_per_hap_text df_h1 df_h2 col_name delim (snd t) H1 H2)
        as [[(out & -> & _) | ->] _]; simpl; eauto. }
    apply (map_result_only_raises g _ KeyError tuples Hg).
    apply Exists_exists. destruct (Htuples r Hr) as (vl & Hvl' & Ht).
    rewrite Hvl in Hvl'. injection Hvl' as <-.
    exists (fst r, val_list). split; [assumption |]. unfold g. simpl.
    by rewrite (proj2 (join_per_hap_text df_h1 df_h2 col_name delim val_list H1 H2)
                  hap id d Hin Hd Hid).
Qed.

Lemma val_per_hap_dangling_witness :
  val_per_hap merged_m1 source_h1 source_h2_other "CI" ";" = Raise KeyError.
Proof.
  apply (val_per_hap_dangling merged_m1 source_h1 source_h2_other "CI" ";").
  - apply Exists_cons_hd. exists [("h1", "v1"); ("h2", "v9")], "h2", "v9", source_h2_other.
    split; [reflexivity |]. split; [right; left |]. split; [reflexivity |].
    apply (bool_decide_unpack (VStr "v9" ∉ index source_h2_other)). vm_compute. exact I.
  - repeat constructor. simpl. eexists. reflexivity.
  - split.
    + apply (bool_decide_unpack (NoDup (index source_h1))). vm_compute. exact I.
    + repeat constructor. simpl. eexists. reflexivity.
  - split.
    + apply (bool_decide_unpack (NoDup (index source_h2_other))). vm_compute. exact I.
    + repeat constructor. simpl. eexists. reflexivity.
Defined.

(** ** Rows and columns *)

Lemma assoc_set_eq (k : string) (v : value) (row : Row) :
  assoc k (assoc_set k v row) = Some v.
Proof.
  induction row as [|[k' v'] row IH]; simpl.
  - by rewrite decide_True.
  - destruct (decide (k' = k)) as [->|Hne]; simpl.
    + by rewrite decide_True.
    + by rewrite decide_False.
Qed.

Lemma assoc_set_ne (k k' : string) (v : value) (row : Row) :
  k <> k' -> assoc k' (assoc_set k v row) = assoc k' row.
Proof.
  intros Hne. induction row as [|[k0 v0] row IH]; simpl.
  - by rewrite decide_False.
  - destruct (decide (k0 = k)) as [->|Hne0]; simpl.
    + by rewrite !decide_False.
    + destruct (decide (k0 = k')); [reflexivity | exact IH].
Qed.

Lemma assoc_del_ne (k k' : string) (row : Row) :
  k <> k' -> assoc k' (assoc_del k row) = assoc k' row.
Proof.
  intros Hne. induction row as [|[k0 v0] row IH]; simpl; [reflexivity |].
  destruct (decide (k0 = k)) as [->|Hne0]; simpl.
  - by rewrite decide_False.
  - destruct (decide (k0 = k')); [reflexivity | exact IH].
Qed.

Lemma row_getitem_set_eq (k : string) (v : value) (row : Row) :
  row_getitem (assoc_set k v row) k = Ok v.
Proof. unfold row_getitem. by rewrite assoc_set_eq. Qed.

Lemma row_getitem_set_ne (k k' : string) (v : value) (row : Row) :
  k <> k' -> row_getitem (assoc_set k v row) k' = row_getitem row k'.
Proof. intros Hne. unfold row_getitem. by rewrite assoc_set_ne. Qed.

Lemma row_getitem_del_ne (k k' : string) (row : Row) :
  k <> k' -> row_getitem (assoc_del k row) k' = row_getitem row k'.
Proof. intros Hne. unfold row_getitem. by rewrite assoc_del_ne. Qed.

(** Setting a column from per-row cells acts on each row. *)
Lemma setitem_col_Forall2 {G : Type} (P Q : value * Row -> G -> Prop) (name : string)
    (cell : G -> value) (df : DataFrame) (gs : list G) :
  Forall2 P (records df) gs ->
  (forall r g, P r g -> Q (fst r, assoc_set name (cell g) (snd r)) g) ->
  Forall2 Q (records (setitem_col df name (map cell gs))) gs.
Proof.
  intros H HPQ. unfold setitem_col. simpl.
  induction H as [|r g rows gs Hrg _ IH]; simpl; constructor; auto.
Qed.

Lemma setitem_col_columns (df : DataFrame) (name : string) (cells : list value) :
  name ∈ columns (setitem_col df name cells).
Proof.
  unfold setitem_col. simpl. destruct (decide (name ∈ columns df)); [assumption |].
  apply elem_of_app. right. by left.
Qed.

Lemma delitem_records (df df' : DataFrame) (name : string) :
  delitem df name = Ok df' ->
  records df' = map (fun r => (fst r, assoc_del name (snd r))) (records df).
Proof.
  unfold delitem. destruct (decide _); [| discriminate]. by intros [= <-].
Qed.

(** ** get_gt reads four cells only *)

Lemma get_gt_ext (row row' : Row) (hap : string) (map_tree : defaultdict) :
  row_getitem row' "HAP" = row_getitem row "HAP" ->
  row_getitem row' "#CHROM" = row_getitem row "#CHROM" ->
  row_getitem row' "POS" = row_getitem row "POS" ->
  row_getitem row' "END" = row_getitem row "END" ->
  get_gt row' hap map_tree = get_gt row hap map_tree.
Proof. intros H1 H2 H3 H4. unfold get_gt. by rewrite H1, H2, H3, H4. Qed.

Lemma get_gt_set_other (row : Row) (hap name : string) (v : value) (map_tree : defaultdict) :
  name <> "HAP" -> name <> "#CHROM" -> name <> "POS" -> name <> "END" ->
  get_gt (assoc_set name v row) hap map_tree = get_gt row hap map_tree.
Proof. intros. apply get_gt_ext; by apply row_getitem_set_ne. Qed.

(** ** The mappability trees *)


Lemma add_region_Ok (map_tree map_tree' : defaultdict) (r : value * Row) :
  add_region map_tree r = Ok map_tree' ->
  exists chrom b e,
    region_row (snd r) chrom b e /\ b < e /\
    map_tree' = <[chrom := {[ (b, e) ]} ∪ dd_getitem map_tree chrom]> map_tree.
Proof.
  unfold add_region, region_row. intros H.
  apply bind_Ok_inv in H as (chrom & Hc & H).
  apply bind_Ok_inv in H as (pos & Hp & H).
  apply bind_Ok_inv in H as (end_ & He & H).
  destruct pos as [sb|b|], end_ as [se|e|]; try discriminate.
  { destruct (String.leb se sb); [discriminate |]. destruct (decide _); discriminate. }
  unfold tree_setitem in H. destruct (Z.geb_spec b e); [discriminate |].
  rewrite bind_Ok in H. injection H as <-. exists chrom, b, e. repeat split; done || lia.
Qed.




Example load_map_tree_sample : load_map_tree callable_table = Ok map_wide.
Proof. vm_compute. reflexivity. Qed.

(** ** merge_haplotypes *)

Ltac bind_inv H :=
  repeat (let x := fresh "x" in let Hx := fresh "Hx" in
          apply bind_Ok_inv in H as (x & Hx & H)).

Lemma getitem_col_Forall2 (df : DataFrame) (name : string) (cells : list value) :
  getitem_col df name = Ok cells ->
  Forall2 (fun r c => row_getitem (snd r) name = Ok c) (records df) cells.
Proof.
  unfold getitem_col. destruct (decide _); [| discriminate].
  intros H. by apply map_result_Forall2 in H.
Qed.

Lemma no_00_cells (rows : list (value * Row)) (cells : list value) :
  Forall2 (fun r c => row_getitem (snd r) "GT" = Ok c) rows cells ->
  existsb (fun val => bool_decide (val = VStr "0|0")) cells = false ->
  Forall (fun r => row_getitem (snd r) "GT" <> Ok (VStr "0|0")) rows.
Proof.
  induction 1 as [|r c rows cells Hrc _ IH]; simpl; intros Hex; constructor.
  - apply orb_false_iff in Hex as [Hc _]. rewrite Hrc.
    intros [= ->]. by rewrite bool_decide_eq_true_2 in Hc.
  - apply orb_false_iff in Hex as [_ Hex]. by apply IH.
Qed.

(** A frame that leaves the genotype stage has no 0|0. *)
Lemma call_genotypes_Ok (map_tree_h1 map_tree_h2 : defaultdict) (df out : DataFrame) :
  call_genotypes map_tree_h1 map_tree_h2 df = Ok out ->
  Forall (fun r => row_getitem (snd r) "GT" <> Ok (VStr "0|0")) (records out).
Proof.
  unfold call_genotypes. intros H.
  apply bind_Ok_inv in H as (gt_h1 & _ & H). cbv zeta in H.
  apply bind_Ok_inv in H as (gt_h2 & _ & H). cbv zeta in H.
  apply bind_Ok_inv in H as (gt & _ & H). cbv zeta in H.
  apply bind_Ok_inv in H as (gt_cells & Hcells & H).
  destruct (existsb _ gt_cells) eqn:Hex; [discriminate |].
  apply bind_Ok_inv in H as (df4 & Hdel1 & Hdel2).
  apply delitem_records in Hdel1, Hdel2. rewrite Hdel2, Hdel1.
  apply getitem_col_Forall2 in Hcells.
  pose proof (no_00_cells _ _ Hcells Hex) as Hrows.
  rewrite !Forall_map. simpl.
  eapply Forall_impl; [exact Hrows |]. intros r Hr.
  by rewrite !row_getitem_del_ne by discriminate.
Qed.

(** The genotype stage on a frame where both calls are ['0'] for some record:
    the 0|0 found there stops the merge as a program bug. *)
Lemma call_genotypes_00 (map_tree_h1 map_tree_h2 : defaultdict) (df : DataFrame)
    (gs : list (string * string)) :
  Forall2 (fun r g => get_gt (snd r) "h1" map_tree_h1 = Ok (fst g) /\
                      get_gt (snd r) "h2" map_tree_h2 = Ok (snd g)) (records df) gs ->
  ("0", "0") ∈ gs ->
  call_genotypes map_tree_h1 map_tree_h2 df = Raise found_00.
Proof.
  intros Hgs H00. unfold call_genotypes, apply_rows.
  (* GT_H1 *)
  assert (map_result (fun r => g ← get_gt (snd r) "h1" map_tree_h1; Ok (VStr g)) (records df)
          = Ok (map (fun g => VStr (fst g)) gs)) as ->.
  { apply map_result_Forall2, Forall2_fmap_r.
    eapply Forall2_impl; [exact Hgs |]. intros r g [-> _]. reflexivity. }
  rewrite bind_Ok. cbv zeta.
  assert (Forall2 (fun r g => get_gt (snd r) "h2" map_tree_h2 = Ok (snd g) /\
                              row_getitem (snd r) "GT_H1" = Ok (VStr (fst g)))
            (records (setitem_col df "GT_H1" (map (fun g => VStr (fst g)) gs))) gs) as H1.
  { eapply setitem_col_Forall2; [exact Hgs |]. cbv beta. intros r g [_ H2]. cbn [fst snd]. split.
    - by rewrite get_gt_set_other.
    - apply row_getitem_set_eq. }
  set (df1 := setitem_col df "GT_H1" _) in *.
  (* GT_H2 *)
  assert (map_result (fun r => g ← get_gt (snd r) "h2" map_tree_h2; Ok (VStr g)) (records df1)
          = Ok (map (fun g => VStr (snd g)) gs)) as ->.
  { apply map_result_Forall2, Forall2_fmap_r.
    eapply Forall2_impl; [exact H1 |]. intros r g [-> _]. reflexivity. }
  rewrite bind_Ok. cbv zeta.
  assert (Forall2 (fun r g => format_gt (snd r) = Ok (VStr (fst g ++ "|" ++ snd g)))
            (records (setitem_col df1 "GT_H2" (map (fun g => VStr (snd g)) gs))) gs) as H2.
  { eapply setitem_col_Forall2; [exact H1 |]. cbv beta. intros r g [_ Hg].
    unfold format_gt. cbn [fst snd].
    rewrite (row_getitem_set_ne "GT_H2" "GT_H1") by discriminate.
    rewrite Hg, bind_Ok.
    by rewrite row_getitem_set_eq. }
  set (df2 := setitem_col df1 "GT_H2" _) in *.
  (* GT *)
  assert (map_result (fun r => format_gt (snd r)) (records df2)
          = Ok (map (fun g => VStr (fst g ++ "|" ++ snd g)) gs)) as ->.
  { apply map_result_Forall2, Forall2_fmap_r. exact H2. }
  rewrite bind_Ok. cbv zeta.
  assert (Forall2 (fun r g => row_getitem (snd r) "GT" = Ok (VStr (fst g ++ "|" ++ snd g)))
            (records (setitem_col df2 "GT"
                        (map (fun g => VStr (fst g ++ "|" ++ snd g)) gs))) gs) as H3.
  { eapply setitem_col_Forall2; [exact H2 |]. cbv beta. intros r g _.
    cbn [fst snd]. apply row_getitem_set_eq. }
  set (df3 := setitem_col df2 "GT" _) in *.
  assert (getitem_col df3 "GT" = Ok (map (fun g => VStr (fst g ++ "|" ++ snd g)) gs)) as ->.
  { unfold getitem_col. rewrite decide_True by apply setitem_col_columns.
    apply map_result_Forall2, Forall2_fmap_r. exact H3. }
  rewrite bind_Ok.
  assert (existsb (fun val => bool_decide (val = VStr "0|0"))
            (map (fun g => VStr (fst g ++ "|" ++ snd g)) gs) = true) as ->.
  { apply existsb_exists. exists (VStr "0|0"). split; [| by apply bool_decide_eq_true_2].
    apply in_map_iff. exists ("0", "0"). split; [reflexivity | by apply list_elem_of_In]. }
  reflexivity.
Qed.

Lemma setitem_scalar_empty (df : DataFrame) (name : string) (v : value) :
  records df = [] -> records (setitem_scalar df name v) = [].
Proof. intros H. unfold setitem_scalar, setitem_col. simpl. by rewrite H. Qed.

Lemma delitem_empty (df df' : DataFrame) (name : string) :
  records df = [] -> delitem df name = Ok df' -> records df' = [].
Proof. intros H Hd. apply delitem_records in Hd. by rewrite Hd, H. Qed.

Section Orchestrator_facts.

Variable merge_variants :
  forall (bed_list sample_names : list string) (strategy : string) (threads : Z)
         (subset_chrom : option string), result DataFrame.
Variable read_csv_chrom : forall (file_name : string) (chrom : option string),
  result DataFrame.
Variable read_csv : forall (file_name : string), result DataFrame.

Lemma fill_empty_records (is_inv : bool) (df out : DataFrame) :
  records df = [] -> fill_empty is_inv df = Ok out -> records out = [].
Proof.
  intros Hempty H. unfold fill_empty in H. cbv zeta in H.
  apply bind_Ok_inv in H as (df' & Hinv & H). injection H as <-.
  apply setitem_scalar_empty.
  assert (records (setitem_scalar (setitem_scalar (setitem_scalar (setitem_scalar
            (setitem_scalar (setitem_scalar df "TIG_REGION" VNaN) "QUERY_STRAND" VNaN)
            "CI" VNaN) "ALIGN_INDEX" VNaN) "CLUSTER_MATCH" VNaN) "CALL_SOURCE" VNaN) = [])
    as Hsix by (by repeat apply setitem_scalar_empty).
  destruct is_inv.
  - apply bind_Ok_inv in Hinv as (df1 & Hdel & Hinv). cbv zeta in Hinv.
    injection Hinv as <-. do 2 apply setitem_scalar_empty.
    unfold del_inv_columns in Hdel. bind_inv Hdel.
    eauto using delitem_empty.
  - by injection Hinv as <-.
Qed.

Lemma fill_merged_genotypes (h1_file_name h2_file_name h1_callable h2_callable : string)
    (chrom : option string) (is_inv : bool) (df out : DataFrame) :
  fill_merged read_csv_chrom read_csv h1_file_name h2_file_name h1_callable h2_callable
    chrom is_inv df = Ok out ->
  exists map_tree_h1 map_tree_h2 df',
    call_genotypes map_tree_h1 map_tree_h2 df' = Ok out.
Proof.
  intros H. unfold fill_merged in H.
  do 21 (let x := fresh "x" in apply bind_Ok_inv in H as (x & _ & H)).
  eauto.
Qed.

(** C2: no record of a table that [merge_haplotypes] hands back has the
    genotype 0|0; and the genotype stage, the last step of the merge, stops
    with the RuntimeError "Program bug: ..." whenever both calls of some
    record are ['0'], that is whenever an assembled genotype is 0|0. *)
Theorem merge_haplotypes_no_00
    (h1_file_name h2_file_name h1_callable h2_callable config_def : string)
    (threads : Z) (chrom : option string) (is_inv : option bool) :
  (forall out,
     merge_haplotypes merge_variants read_csv_chrom read_csv
       h1_file_name h2_file_name h1_callable h2_callable config_def threads chrom is_inv
     = Ok out ->
     Forall (fun r => row_getitem (snd r) "GT" <> Ok (VStr "0|0")) (records out)) /\
  (forall map_tree_h1 map_tree_h2 df gs,
     Forall2 (fun r g => get_gt (snd r) "h1" map_tree_h1 = Ok (fst g) /\
                         get_gt (snd r) "h2" map_tree_h2 = Ok (snd g)) (records df) gs ->
     ("0", "0") ∈ gs ->
     call_genotypes map_tree_h1 map_tree_h2 df
     = Raise (RuntimeError "Program bug: Found 0|0 genotypes after merging haplotypes")).
Proof.
  split; [| exact call_genotypes_00].
  intros out H. unfold merge_haplotypes in H.
  destruct is_inv as [b|]; [| discriminate]. rewrite bind_Ok in H.
  apply bind_Ok_inv in H as (df0 & _ & H).
  apply bind_Ok_inv in H as (df1 & _ & H).
  apply bind_Ok_inv in H as (? & _ & H).
  apply bind_Ok_inv in H as (df2 & _ & H).
  apply bind_Ok_inv in H as (df3 & _ & H). cbv zeta in H.
  apply bind_Ok_inv in H as (df4 & _ & H).
  apply bind_Ok_inv in H as (df5 & _ & H).
  apply bind_Ok_inv in H as (df6 & _ & H).
  apply bind_Ok_inv in H as (df7 & _ & H).
  match type of H with
  | (if (0 <? length (records ?d))%nat then _ else _) = _ => set (df8 := d) in *
  end.
  destruct (records df8) as [|r rows] eqn:Hrows.
  - simpl in H. apply fill_empty_records in H; [| exact Hrows].
    rewrite H. constructor.
  - simpl in H. apply fill_merged_genotypes in H as (t1 & t2 & df' & H).
    exact (call_genotypes_Ok _ _ _ _ H).
Qed.

(** C3 fails on the code: with [is_inv = None] the first statement reads the
    local name [df] before the merge has bound it, and the call ends there
    with an UnboundLocalError, whatever the inputs. *)
Theorem merge_haplotypes_autodetect
    (h1_file_name h2_file_name h1_callable h2_callable config_def : string)
    (threads : Z) (chrom : option string) :
  merge_haplotypes merge_variants read_csv_chrom read_csv
    h1_file_name h2_file_name h1_callable h2_callable config_def threads chrom None
  = Raise (UnboundLocalError "df").
Proof. reflexivity. Qed.

End Orchestrator_facts.

Lemma merge_haplotypes_no_00_witness :
  Forall (fun r => row_getitem (snd r) "GT" <> Ok (VStr "0|0")) (records sample_merged).
Proof.
  apply (proj1 (merge_haplotypes_no_00 sample_merge_variants sample_read_csv_chrom
                  sample_read_csv "h1.bed" "h2.bed" "h1_callable.bed" "h2_callable.bed"
                  "nr:szro=50" 1 None (Some false)) sample_merged).
  vm_compute. reflexivity.
Defined.

(** The sample merge: v1 is called in h1 and callable in h2, so GT is 1|0. *)
Example sample_merge_result : sample_merge (Some false) = Ok sample_merged.
Proof. vm_compute. reflexivity. Qed.

(** The genotype stage on a record that neither haplotype carries. *)
Example call_genotypes_uncalled :
  call_genotypes map_wide map_wide uncalled = Raise found_00.
Proof. vm_compute. reflexivity. Qed.

(** * Further properties *)

(** ** get_gt on every record *)

Lemma overlap_empty_range (tree : IntervalTree) (p e : Z) :
  e ≤ p -> overlap tree p e = ∅.
Proof.
  intros Hpe. unfold overlap. destruct (decide (tree = ∅)); [reflexivity |].
  destruct (Z.geb_spec p e); [reflexivity | lia].
Qed.



(** Against a NaN no stored interval passes the test of the loop. *)
Lemma any_result_nan (pos end_ : value) (l : list Interval) :
  pos = VNaN \/ ((exists p, pos = VInt p) /\ end_ = VNaN) ->
  any_result
    (fun interval =>
       lo ← int_le_cell (ibegin interval) pos;
       if lo : bool then int_ge_cell (iend interval) end_ else Ok false) l
  = Ok false.
Proof.
  intros Hnan. induction l as [|iv l IH]; [reflexivity |].
  simpl. destruct Hnan as [-> | [[p ->] ->]]; simpl.
  - exact IH.
  - destruct (ibegin iv <=? p); simpl; exact IH.
Qed.

(** X2: on any row at all, a ['0'] from [get_gt] means that the HAP cell is
    text without the haplotype, that POS and END are integers with
    [POS < END], and that one stored interval of the row's chromosome holds
    [[POS, END)]; a ['1'] means that the haplotype is among the HAP labels;
    and no answer other than ['1'], ['0'] and ['.'] is ever given. *)
Theorem get_gt_sound (row : Row) (hap : string) (map_tree : defaultdict) (g : string) :
  get_gt row hap map_tree = Ok g ->
  exists h, row_getitem row "HAP" = Ok (VStr h) /\
    ((g = "1" /\ (hap ∈ split ";" h)) \/
     (g = "." /\ (hap ∉ split ";" h)) \/
     (g = "0" /\ (hap ∉ split ";" h) /\
      exists chrom p e,
        row_getitem row "#CHROM" = Ok chrom /\
        row_getitem row "POS" = Ok (VInt p) /\
        row_getitem row "END" = Ok (VInt e) /\
        p < e /\ covered map_tree chrom p e)).
Proof.
  unfold get_gt. intros H.
  apply bind_Ok_inv in H as (hv & HH & H).
  apply bind_Ok_inv in H as (labels & Hl & H).
  destruct hv as [h| |]; try discriminate. injection Hl as <-.
  exists h. split; [assumption |].
  destruct (decide (hap ∈ split ";" h)) as [Hin|Hin].
  - rewrite bool_decide_eq_true_2 in H by assumption. injection H as <-. by left.
  - rewrite bool_decide_eq_false_2 in H by assumption. right.
    apply bind_Ok_inv in H as (chrom & HC & H). cbv zeta in H.
    apply bind_Ok_inv in H as (pos & HP & H).
    apply bind_Ok_inv in H as (end_ & HE & H).
    apply bind_Ok_inv in H as (hits & Hhits & H).
    apply bind_Ok_inv in H as (found & Hfound & H).
    destruct found; injection H as <-; [right | by left].
    split; [reflexivity |]. split; [assumption |].
    unfold overlap_cells in Hhits.
    destruct (decide (dd_getitem map_tree chrom = ∅)) as [Hempty|Hne].
    { injection Hhits as <-. rewrite elements_empty in Hfound. discriminate. }
    destruct pos as [sp|p|], end_ as [se|e|]; try discriminate.
    { destruct (String.leb se sp); [| discriminate].
      injection Hhits as <-. rewrite elements_empty in Hfound. discriminate. }
    2: { rewrite any_result_nan in Hfound by (right; eauto). discriminate. }
    2: { rewrite any_result_nan in Hfound by (by left). discriminate. }
    2: { rewrite any_result_nan in Hfound by (by left). discriminate. }
    injection Hhits as <-.
    pose proof (any_result_contains p e
      (elements (overlap (dd_getitem map_tree chrom) p e))) as Hany.
    simpl in Hany, Hfound. rewrite Hany in Hfound. injection Hfound as Hfound.
    exists chrom, p, e. do 3 (split; [assumption |]).
    destruct (decide (p < e)) as [Hpe|Hpe].
    + split; [assumption |]. by apply existsb_covering.
    + rewrite overlap_empty_range in Hfound by lia.
      rewrite elements_empty in Hfound. discriminate.
Qed.

Lemma get_gt_sound_witness :
  exists h, row_getitem row_v1 "HAP" = Ok (VStr h) /\
    (("0" = "1" /\ ("h2" ∈ split ";" h)) \/
     ("0" = "." /\ ("h2" ∉ split ";" h)) \/
     ("0" = "0" /\ ("h2" ∉ split ";" h) /\
      exists chrom p e,
        row_getitem row_v1 "#CHROM" = Ok chrom /\
        row_getitem row_v1 "POS" = Ok (VInt p) /\
        row_getitem row_v1 "END" = Ok (VInt e) /\
        p < e /\ covered map_wide chrom p e)).
Proof.
  apply (get_gt_sound row_v1 "h2" map_wide "0"). vm_compute. reflexivity.
Defined.

(** A missing POS inside a callable region: every comparison with it is
    false, and the answer is the no-call. *)
Example get_gt_nan_pos : get_gt row_nan_pos "h2" map_wide = Ok ".".
Proof. vm_compute. reflexivity. Qed.

(** ** Loading the mappability trees *)

Lemma add_region_valid (map_tree : defaultdict) (r : value * Row) :
  valid_region (snd r) -> exists map_tree', add_region map_tree r = Ok map_tree'.
Proof.
  intros (chrom & b & e & (Hc & Hb & He) & Hlt). unfold add_region.
  rewrite Hc, Hb, He. simpl. unfold tree_setitem.
  destruct (Z.geb_spec b e); [lia |]. simpl. eauto.
Qed.


Lemma load_regions_valid (rows : list (value * Row)) (acc map_tree : defaultdict) :
  for_each add_region rows acc = Ok map_tree ->
  Forall (fun r => valid_region (snd r)) rows.
Proof.
  revert acc. induction rows as [|r rows IH]; intros acc H; [constructor |].
  rewrite for_each_cons in H. apply bind_Ok_inv in H as (acc' & Hstep & H).
  constructor; [| by apply (IH acc')].
  apply add_region_Ok in Hstep as (chrom & b & e & Hrow & Hlt & _).
  by exists chrom, b, e.
Qed.



Lemma valid_region_row (chrom : string) (b e : Z) :
  b < e -> valid_region [("#CHROM", VStr chrom); ("POS", VInt b); ("END", VInt e)].
Proof. intros Hlt. exists (VStr chrom), b, e. repeat split; done. Qed.


(** X4: a callable table whose first row that cannot be stored is a null
    region, integers with [POS >= END], does not load: the tree refuses the
    interval with a ValueError, wherever the row stands in the table. *)
Theorem load_map_tree_null_region (df_map : DataFrame) (pre post : list (value * Row))
    (r : value * Row) (chrom : value) (b e : Z) :
  records df_map = (pre ++ r :: post)%list ->
  Forall (fun r => valid_region (snd r)) pre ->
  region_row (snd r) chrom b e ->
  e ≤ b ->
  load_map_tree df_map = Raise ValueError.
Proof.
  intros Hrec Hpre (Hc & Hb & He) Hle. unfold load_map_tree. rewrite Hrec. clear Hrec.
  generalize (∅ : defaultdict). induction Hpre as [|r0 pre Hr0 _ IH]; intros acc.
  - simpl. unfold add_region. rewrite Hc, Hb, He. simpl. unfold tree_setitem.
    destruct (Z.geb_spec b e); [reflexivity | lia].
  - destruct (add_region_valid acc r0 Hr0) as [acc' Hstep].
    rewrite <- app_comm_cons, for_each_cons, Hstep. apply IH.
Qed.

Lemma load_map_tree_null_region_witness :
  load_map_tree callable_null = Raise ValueError.
Proof.
  apply (load_map_tree_null_region callable_null
           [(VInt 0, [("#CHROM", VStr "chr1"); ("POS", VInt 50); ("END", VInt 300)])] []
           (VInt 1, [("#CHROM", VStr "chr1"); ("POS", VInt 400); ("END", VInt 400)])
           (VStr "chr1") 400 400).
  - reflexivity.
  - repeat constructor. apply valid_region_row. lia.
  - repeat split; reflexivity.
  - lia.
Defined.




(** ** filter_by_tig_tree on every frame *)

(** X6: whatever [filter_by_tig_tree] hands back, every frame of the store is
    still there afterwards, unchanged, the one passed in included: a filtered
    frame is a new object and never overwrites an existing one. *)
Theorem filter_by_tig_tree_store (h h' : store) (df out : ref)
    (tig_filter_tree : option defaultdict) :
  filter_by_tig_tree h df tig_filter_tree = Ok (out, h') ->
  forall l d, h !! l = Some d -> h' !! l = Some d.
Proof.
  unfold filter_by_tig_tree. intros H l d Hl.
  destruct tig_filter_tree as [tree|]; [| by injection H as <- <-].
  apply bind_Ok_inv in H as (rm & _ & H).
  destruct (decide (rm = ∅)); injection H as <- <-; [assumption |].
  rewrite lookup_insert_ne; [assumption |].
  intros Heq. apply (is_fresh (dom h)). rewrite Heq. by apply elem_of_dom.
Qed.

Lemma filter_by_tig_tree_store_witness :
  (<[ 1%nat := calls_far ]> ({[ 0%nat := calls ]} : store)) !! 0%nat = Some calls.
Proof.
  apply (filter_by_tig_tree_store {[ 0%nat := calls ]} _ 0%nat 1%nat (Some exclude_c)).
  - vm_compute. reflexivity.
  - apply lookup_singleton_eq.
Defined.

(** The loop and the return on a frame of well-formed regions: the labels
    collected are those that a hitting record carries, and the rows handed back
    are those under a NaN or under a label that was not collected. *)
Lemma filter_by_tig_tree_run (h : store) (df : ref) (tree : defaultdict) :
  tree_wf tree ->
  well_formed_regions (h !!! df) ->
  exists rm : gset value,
    (forall l, l ∈ rm <-> label_hit tree (h !!! df) l) /\
    filter_by_tig_tree h df (Some tree)
    = if decide (rm = ∅) then Ok (df, h)
      else Ok (fresh (dom h),
               <[fresh (dom h) :=
                   {| columns := columns (h !!! df);
                      records := filter (fun r => fst r = VNaN \/ fst r ∉ rm)
                                        (records (h !!! df)) |}]> h).
Proof.
  intros Hwf Hrows. unfold filter_by_tig_tree.
  destruct (mark_records_parsed tree (records (h !!! df)) ∅ Hwf Hrows) as (rm & -> & Hrm).
  exists rm. split.
  - intros l. rewrite Hrm. unfold label_hit. split.
    + intros [Hl | Hhit]; [by apply elem_of_empty in Hl | exact Hhit].
    + intros Hhit. by right.
  - rewrite bind_Ok. destruct (decide (rm = ∅)); [reflexivity |].
    do 3 f_equal. unfold loc_mask. f_equal.
    exact (loc_mask_not_in (h !!! df) rm).
Qed.

(** X7: on any frame of well-formed regions, shared index labels or not, the
    frame handed back keeps a record whose index label is not a NaN exactly
    when no record under the same index label has a contig range that hits
    the exclusion tree; the records kept stay in their order, with their
    cells, under the same columns. *)
Theorem filter_by_tig_tree_by_label (h : store) (df : ref) (tree : defaultdict)
    (d : DataFrame) :
  h !! df = Some d ->
  tree_wf tree ->
  well_formed_regions d ->
  exists out h' d',
    filter_by_tig_tree h df (Some tree) = Ok (out, h') /\
    h' !! out = Some d' /\
    columns d' = columns d /\
    sublist (records d') (records d) /\
    forall r, r ∈ records d -> fst r <> VNaN ->
              (r ∈ records d' <-> ~ label_hit tree d (fst r)).
Proof.
  intros Hdf Hwf Hrows. pose proof (lookup_total_correct h df d Hdf) as Htot.
  rewrite <- Htot in Hrows.
  destruct (filter_by_tig_tree_run h df tree Hwf Hrows) as (rm & Hrm & ->).
  rewrite Htot in *. destruct (decide (rm = ∅)) as [Hempty|Hne].
  - exists df, h, d. do 4 (split; [done |]).
    intros r Hr _. split; [| done]. intros _ Hhit%Hrm. rewrite Hempty in Hhit. set_solver.
  - eexists _, _, _. split; [reflexivity |].
    split; [apply lookup_insert_eq |]. split; [reflexivity |]. simpl.
    split; [apply sublist_filter |].
    intros r Hr Hnan. rewrite list_elem_of_filter, Hrm. tauto.
Qed.

Lemma filter_by_tig_tree_by_label_witness :
  exists out h' d',
    filter_by_tig_tree {[ 0%nat := calls_same_label ]} 0%nat (Some exclude_c)
    = Ok (out, h') /\
    h' !! out = Some d' /\
    columns d' = columns calls_same_label /\
    sublist (records d') (records calls_same_label) /\
    forall r, r ∈ records calls_same_label -> fst r <> VNaN ->
      (r ∈ records d' <-> ~ label_hit exclude_c calls_same_label (fst r)).
Proof.
  apply (filter_by_tig_tree_by_label {[ 0%nat := calls_same_label ]} 0%nat exclude_c
           calls_same_label).
  - apply lookup_singleton_eq.
  - apply tree_wf_singleton. lia.
  - repeat constructor; simpl.
    + exists "c", 0, 5. exact row_near_range.
    + exists "c", 99, 200. exact row_far_range.
Defined.

(** X8: on a frame none of whose index labels is a NaN, filtering is
    idempotent: the frame that [filter_by_tig_tree] hands back, filtered again
    with the same exclusion tree, comes back as it is, the same object in the
    same store. *)
Theorem filter_by_tig_tree_idempotent (h h' : store) (df out : ref) (tree : defaultdict) :
  tree_wf tree ->
  well_formed_regions (h !!! df) ->
  VNaN ∉ index (h !!! df) ->
  filter_by_tig_tree h df (Some tree) = Ok (out, h') ->
  filter_by_tig_tree h' out (Some tree) = Ok (out, h').
Proof.
  intros Hwf Hrows Hnan H.
  destruct (filter_by_tig_tree_run h df tree Hwf Hrows) as (rm & Hrm & Hrun).
  rewrite Hrun in H. destruct (decide (rm = ∅)) as [Hempty|Hne].
  - injection H as <- <-. exact Hrun.
  - injection H as <- <-.
    set (kept := {| columns := columns (h !!! df);
                    records := filter (fun r => fst r = VNaN \/ fst r ∉ rm)
                                      (records (h !!! df)) |}).
    assert ((<[fresh (dom h) := kept]> h) !!! fresh (dom h) = kept) as Hkept
      by apply lookup_total_insert_eq.
    assert (well_formed_regions kept) as Hrows'.
    { unfold well_formed_regions, kept. simpl.
      apply Forall_forall. intros r [_ Hr]%list_elem_of_filter.
      unfold well_formed_regions in Hrows. rewrite Forall_forall in Hrows. by apply Hrows. }
    rewrite <- Hkept in Hrows'.
    destruct (filter_by_tig_tree_run _ _ tree Hwf Hrows') as (rm2 & Hrm2 & ->).
    rewrite decide_True; [reflexivity |].
    apply set_eq. intros l. split; [| set_solver].
    intros (row & Hin & Hhit)%Hrm2. rewrite Hkept in Hin.
    apply list_elem_of_filter in Hin as [[Hl | Hl] Hin]; simpl in Hl.
    + exfalso. apply Hnan. unfold index. apply list_elem_of_fmap.
      exists (l, row). by split.
    + exfalso. apply Hl, Hrm. by exists row.
Qed.

Lemma filter_by_tig_tree_idempotent_witness :
  filter_by_tig_tree (<[ 1%nat := calls_far ]> {[ 0%nat := calls ]}) 1%nat (Some exclude_c)
  = Ok (1%nat, <[ 1%nat := calls_far ]> {[ 0%nat := calls ]}).
Proof.
  apply (filter_by_tig_tree_idempotent {[ 0%nat := calls ]} _ 0%nat 1%nat exclude_c).
  - apply tree_wf_singleton. lia.
  - rewrite lookup_total_singleton. repeat constructor; simpl.
    + exists "c", 0, 5. exact row_near_range.
    + exists "c", 99, 200. exact row_far_range.
  - rewrite lookup_total_singleton.
    apply (bool_decide_unpack (VNaN ∉ index calls)). vm_compute. exact I.
  - vm_compute. reflexivity.
Defined.

(** A record that hits the tree under a NaN label is collected and still
    handed back, in a new frame. *)
Example filter_by_tig_tree_nan_label :
  filter_by_tig_tree {[ 0%nat := calls_nan_label ]} 0%nat (Some exclude_c)
  = Ok (1%nat, <[ 1%nat := calls_nan_label ]> {[ 0%nat := calls_nan_label ]}).
Proof. vm_compute. reflexivity. Qed.

Lemma overlap_empty_iff (t : IntervalTree) (b e : Z) :
  overlap t b e = ∅ <->
  ~ (b < e /\ set_Exists (fun iv => ibegin iv < e ∧ b < iend iv) t).
Proof.
  unfold overlap. destruct (decide (t = ∅)) as [->|Hne].
  - split; [| done]. intros _ [_ (iv & Hiv & _)]. set_solver.
  - destruct (Z.geb_spec b e) as [Hge|Hlt].
    + split; [| done]. intros _ [Hlt _]. lia.
    + split.
      * intros Hempty [_ (iv & Hiv & Hc)].
        assert (iv ∈ filter (fun iv => ibegin iv < e ∧ b < iend iv) t) as Hin
          by (by apply elem_of_filter).
        rewrite Hempty in Hin. set_solver.
      * intros Hno. apply set_eq. intros iv. split; [| set_solver].
        intros [Hc Hiv]%elem_of_filter. exfalso. apply Hno. split; [assumption |].
        by exists iv.
Qed.

(** X9: the loop body reads ["contig:start-end"] as 1-based and inclusive: it
    adds the record's index label to the removal set exactly when
    [start <= end] and some interval [[begin, end')] stored for the contig has
    [begin < end] and [start <= end']; otherwise the set is left as it is.  A
    record that starts on the base after an excluded interval is kept. *)
Theorem mark_record_coordinates (tree : defaultdict) (rm : gset value) (index : value)
    (row : Row) (s contig start stop : string) :
  row_getitem row "TIG_REGION" = Ok (VStr s) ->
  tig_pattern s contig start stop ->
  mark_record tree rm (index, row)
  = Ok (if decide (meets_contig tree contig (int_of_string start) (int_of_string stop))
        then {[ index ]} ∪ rm else rm).
Proof.
  intros Hs Hm%re_match_tig_region_Some. unfold mark_record.
  rewrite Hs. simpl. rewrite Hm.
  pose proof (overlap_empty_iff (dd_getitem tree (VStr contig))
                (int_of_string start - 1) (int_of_string stop)) as Hov.
  destruct (decide (overlap _ _ _ = ∅)) as [Hempty|Hne].
  - rewrite decide_False; [reflexivity |].
    intros [Hle (iv & Hiv & H1 & H2)]. apply (proj1 Hov Hempty).
    split; [lia |]. exists iv. split; [assumption |]. simpl. lia.
  - rewrite decide_True; [reflexivity |].
    destruct (decide (meets_contig tree contig (int_of_string start) (int_of_string stop)))
      as [Hyes|Hno]; [assumption |].
    exfalso. apply Hne, Hov. intros [Hlt (iv & Hiv & H1 & H2)]. apply Hno.
    split; [lia |]. exists iv. split; [assumption |]. simpl in *. lia.
Qed.

Lemma mark_record_coordinates_witness :
  mark_record exclude_c ∅ (VStr "u", row_after)
  = Ok (if decide (meets_contig exclude_c "c" (int_of_string "11") (int_of_string "20"))
        then {[ VStr "u" ]} ∪ ∅ else ∅).
Proof.
  apply (mark_record_coordinates exclude_c ∅ (VStr "u") row_after "c:11-20" "c" "11" "20").
  - reflexivity.
  - apply re_match_tig_region_Some. reflexivity.
Defined.

(** Position 10, the last base of the excluded [[0, 10)], is hit; position 11,
    the base after it, is not. *)
Example mark_record_boundary :
  mark_record exclude_c ∅ (VStr "t", row_touching) = Ok {[ VStr "t" ]} /\
  mark_record exclude_c ∅ (VStr "u", row_after) = Ok ∅.
Proof. split; vm_compute; reflexivity. Qed.

(** ** Regions joined by the merge *)

Lemma at_end_joined (tail v2 : string) :
  tail = "" \/ tail = String "010" "" -> at_end (tail ++ ";" ++ v2) = false.
Proof. intros [-> | ->]; simpl; [by destruct v2 | reflexivity]. Qed.

Lemma stops_at_joined (tail v2 : string) :
  tail = "" \/ tail = String "010" "" -> stops_at is_digit (tail ++ ";" ++ v2).
Proof. by intros [-> | ->]. Qed.

Lemma string_app_cons (c : ascii) (x y : string) : String c x ++ y = String c (x ++ y).
Proof. reflexivity. Qed.

Lemma string_app_assoc (x y z : string) : (x ++ y) ++ z = x ++ (y ++ z).
Proof. induction x as [|c x IH]; [reflexivity |]. by rewrite !string_app_cons, IH. Qed.

(** A well-formed region followed by [';'] is no well-formed region. *)
Lemma re_match_joined (v1 v2 contig start stop : string) :
  tig_pattern v1 contig start stop -> re_match_tig_region (v1 ++ ";" ++ v2) = None.
Proof.
  intros (tail & -> & Hc & Hcs & Ha & Has & Hb & Hbs & Htail).
  unfold re_match_tig_region.
  change ((contig ++ ":" ++ start ++ "-" ++ stop ++ tail) ++ ";" ++ v2)
    with ((contig ++ String ":" (start ++ String "-" (stop ++ tail))) ++ ";" ++ v2).
  rewrite string_app_assoc, string_app_cons, string_app_assoc, string_app_cons,
    string_app_assoc.
  rewrite (span_app not_colon contig) by done.
  rewrite (proj2 (expect_Some ":" _ _) eq_refl). cbn [mbind option_bind].
  rewrite (span_app is_digit start) by done.
  rewrite (proj2 (expect_Some "-" _ _) eq_refl). cbn [mbind option_bind].
  rewrite (span_app is_digit stop) by (try done; by apply stops_at_joined).
  rewrite at_end_joined by assumption. by rewrite !andb_false_r.
Qed.

Lemma mark_records_rejected (tree : defaultdict) (rows : list (value * Row))
    (rm : gset value) :
  Forall (fun r => exists s, row_getitem (snd r) "TIG_REGION" = Ok (VStr s)) rows ->
  Exists (fun r => exists s, row_getitem (snd r) "TIG_REGION" = Ok (VStr s) /\
                             re_match_tig_region s = None) rows ->
  exists msg, for_each (mark_record tree) rows rm = Raise (RuntimeError msg).
Proof.
  intros Hstr. revert rm. induction Hstr as [|[index row] rows [s Hs] _ IH]; intros rm Hbad.
  - by apply Exists_nil in Hbad.
  - rewrite for_each_cons. simpl in Hs.
    destruct (re_match_tig_region s) as [[[contig start] stop]|] eqn:Hm.
    + assert (Exists (fun r => exists s, row_getitem (snd r) "TIG_REGION" = Ok (VStr s) /\
                                         re_match_tig_region s = None) rows) as Hbad'.
      { apply Exists_cons in Hbad as [(s' & Hs' & Hm') | ?]; [| assumption].
        simpl in Hs'. rewrite Hs in Hs'. injection Hs' as <-. congruence. }
      assert (exists rm1, mark_record tree rm (index, row) = Ok rm1) as [rm1 ->].
      { unfold mark_record. rewrite Hs. simpl. rewrite Hm. destruct (decide _); eauto. }
      rewrite bind_Ok. by apply IH.
    + assert (mark_record tree rm (index, row)
              = Raise (unrecognized_tig_region index (VStr s))) as ->.
      { unfold mark_record. rewrite Hs. simpl. by rewrite Hm. }
      eexists. reflexivity.
Qed.

(** X10: the TIG_REGION that [val_per_hap] writes for a record of both
    haplotypes, two regions joined by [';'], does not match the pattern of
    [filter_by_tig_tree]: on a frame that holds such a record the filter with an
    exclusion tree ends in a RuntimeError and hands back nothing. *)
Theorem filter_by_tig_tree_joined_region (h : store) (df : ref) (tree : defaultdict) :
  Forall (fun r => exists s, row_getitem (snd r) "TIG_REGION" = Ok (VStr s))
         (records (h !!! df)) ->
  Exists (fun r => joined_region (snd r)) (records (h !!! df)) ->
  exists msg, filter_by_tig_tree h df (Some tree) = Raise (RuntimeError msg).
Proof.
  intros Hstr Hjoined. unfold filter_by_tig_tree.
  destruct (mark_records_rejected tree (records (h !!! df)) ∅ Hstr) as [msg ->];
    [| by exists msg].
  eapply Exists_impl; [exact Hjoined |].
  intros r (v1 & v2 & contig & start & stop & Hs & Hp).
  exists (v1 ++ ";" ++ v2). split; [assumption |]. by apply (re_match_joined _ _ contig start stop).
Qed.

Lemma filter_by_tig_tree_joined_region_witness :
  exists msg,
    filter_by_tig_tree {[ 0%nat := calls_joined ]} 0%nat (Some exclude_c)
    = Raise (RuntimeError msg).
Proof.
  apply (filter_by_tig_tree_joined_region {[ 0%nat := calls_joined ]} 0%nat exclude_c).
  - rewrite lookup_total_singleton. repeat constructor; simpl; eexists; reflexivity.
  - rewrite lookup_total_singleton. apply Exists_cons_tl, Exists_cons_hd.
    exists "tig1:1100-1200", "tig7:40-90", "tig1", "1100", "1200".
    split; [reflexivity |]. apply re_match_tig_region_Some. reflexivity.
Defined.

(** ** val_per_hap in general *)

Lemma join_items_Ok (items : list loc_value) (strs : list string) :
  join_items items = Ok strs <-> items = map (fun s => Cell (VStr s)) strs.
Proof.
  revert strs. induction items as [|it items IH]; intros strs; simpl.
  - split; [intros [= <-]; reflexivity | by destruct strs].
  - destruct it as [[s| |]|vs]; try (split; [discriminate | by destruct strs]).
    split.
    + intros H. apply bind_Ok_inv in H as (ss & Hss & [= <-]).
      apply IH in Hss as ->. reflexivity.
    + destruct strs as [|s' strs]; [discriminate |]. intros [= -> ->].
      by rewrite (proj2 (IH strs) eq_refl).
Qed.

Lemma source_field_iff (df_h1 df_h2 : DataFrame) (col_name hap id v : string) :
  source_field df_h1 df_h2 col_name hap id v <->
  (df_dict df_h1 df_h2 hap ≫= fun d => frame_loc d id col_name) = Ok (Cell (VStr v)).
Proof.
  apply source_field_lookup.
Qed.

Lemma hap_id_pairs_Ok (row : Row) (val_list : list (string * string)) :
  hap_id_pairs row = Ok val_list <->
  exists haps ids, hap_labels row haps ids /\ val_list = zip haps ids.
Proof.
  split.
  - unfold hap_id_pairs. intros H.
    apply bind_Ok_inv in H as (hv & Hh & H). apply bind_Ok_inv in H as (haps & Hhaps & H).
    apply bind_Ok_inv in H as (vv & Hv & H). apply bind_Ok_inv in H as (ids & Hids & H).
    injection H as <-.
    destruct hv as [h| |]; try discriminate. destruct vv as [v| |]; try discriminate.
    injection Hhaps as <-. injection Hids as <-.
    exists (split ";" h), (split ";" v). split; [| reflexivity]. by exists h, v.
  - intros (haps & ids & Hl & ->). by apply hap_labels_pairs.
Qed.

(** A record runs through both passes exactly when it is resolved. *)
Lemma resolved_run (df_h1 df_h2 : DataFrame) (col_name delim : string) (row : Row)
    (out : string) :
  (exists val_list, hap_id_pairs row = Ok val_list /\
     join_per_hap df_h1 df_h2 col_name delim val_list = Ok out) <->
  resolved df_h1 df_h2 col_name delim row out.
Proof.
  unfold resolved, join_per_hap. split.
  - intros (val_list & (haps & ids & Hl & ->)%hap_id_pairs_Ok & H).
    apply bind_Ok_inv in H as (items & Hitems & H).
    apply bind_Ok_inv in H as (strs & Hstrs & [= <-]).
    apply join_items_Ok in Hstrs as ->. apply map_result_Forall2 in Hitems.
    exists haps, ids, strs. split; [assumption |]. split; [| reflexivity].
    apply Forall2_fmap_r in Hitems. eapply Forall2_impl; [exact Hitems |].
    intros p v Hp. by apply source_field_iff.
  - intros (haps & ids & vs & Hl & Hvs & ->). exists (zip haps ids).
    split; [by apply hap_labels_pairs |].
    assert (map_result
              (fun val => d ← df_dict df_h1 df_h2 (fst val); frame_loc d (snd val) col_name)
              (zip haps ids) = Ok (map (fun s => Cell (VStr s)) vs)) as ->.
    { apply map_result_Forall2, Forall2_fmap_r. eapply Forall2_impl; [exact Hvs |].
      intros p v Hp. by apply source_field_iff. }
    rewrite bind_Ok, (proj2 (join_items_Ok _ vs) eq_refl). reflexivity.
Qed.

Lemma val_per_hap_passes_iff (df_h1 df_h2 : DataFrame) (col_name delim : string)
    (rows : list (value * Row)) (s : Series) :
  (exists tuples,
     map_result (fun r => val_list ← hap_id_pairs (snd r); Ok (fst r, val_list)) rows
     = Ok tuples /\
     map_result (fun t => s ← join_per_hap df_h1 df_h2 col_name delim (snd t);
                          Ok (fst t, VStr s)) tuples = Ok s) <->
  exists outs,
    Forall2 (fun r out => resolved df_h1 df_h2 col_name delim (snd r) out) rows outs /\
    s = zip (map fst rows) (map VStr outs).
Proof.
  revert s. induction rows as [|[l row] rows IH]; intros s.
  - split.
    + intros (tuples & [= <-] & [= <-]). exists []. split; [constructor | reflexivity].
    + intros (outs & Hf & ->). apply Forall2_nil_inv_l in Hf as ->.
      exists []. split; reflexivity.
  - split.
    + intros (tuples & H1 & H2). rewrite map_result_cons in H1.
      apply bind_Ok_inv in H1 as (t & Ht & H1).
      apply bind_Ok_inv in H1 as (tuples' & Htuples & [= <-]).
      apply bind_Ok_inv in Ht as (val_list & Hvl & [= <-]).
      rewrite map_result_cons in H2.
      apply bind_Ok_inv in H2 as (sv & Hsv & H2).
      apply bind_Ok_inv in H2 as (s' & Hs' & [= <-]).
      apply bind_Ok_inv in Hsv as (out & Hout & [= <-]).
      destruct (proj1 (IH s') (ex_intro _ tuples' (conj Htuples Hs'))) as (outs & Hf & ->).
      exists (out :: outs). split; [| reflexivity].
      constructor; [| assumption]. apply resolved_run. by exists val_list.
    + intros (outs & Hf & ->). apply Forall2_cons_inv_l in Hf as (out & outs' & Hrow & Hf & ->).
      apply resolved_run in Hrow as (val_list & Hvl & Hout).
      destruct (proj2 (IH _) (ex_intro _ outs' (conj Hf eq_refl))) as (tuples & H1 & H2).
      exists ((l, val_list) :: tuples). split.
      * rewrite map_result_cons. simpl in *. rewrite Hvl. simpl. by rewrite H1.
      * rewrite map_result_cons. simpl in *. rewrite Hout. simpl. by rewrite H2.
Qed.

(** X11: on a frame with rows, [val_per_hap] hands back a Series exactly when
    every record is resolved: each of its (label, identifier) pairs has label
    h1 or h2, and the table of that label holds exactly one record under the
    identifier, with a text cell in the column.  The Series then has one text
    value per record, under the record's index label and in row order: those
    cells joined by the delimiter.  Labels and identifiers are paired as far
    as the shorter list goes; what is left over on the longer one is dropped
    without an error. *)
Theorem val_per_hap_resolved (df df_h1 df_h2 : DataFrame) (col_name delim : string)
    (s : Series) :
  records df <> [] ->
  val_per_hap df df_h1 df_h2 col_name delim = Ok s <->
  exists outs,
    Forall2 (fun r out => resolved df_h1 df_h2 col_name delim (snd r) out)
            (records df) outs /\
    s = zip (index df) (map VStr outs).
Proof.
  intros Hne. unfold index.
  rewrite <- (val_per_hap_passes_iff df_h1 df_h2 col_name delim (records df) s).
  unfold val_per_hap. destruct (records df) as [|r rows] eqn:Hrows; [done |].
  rewrite <- Hrows. clear Hrows. split.
  - intros H. apply bind_Ok_inv in H as (tuples & H1 & H2). by exists tuples.
  - intros (tuples & H1 & H2). by rewrite H1.
Qed.

Lemma val_per_hap_resolved_witness :
  val_per_hap merged_short source_h1_pair source_h2_pair "CI" ";"
  = Ok [(VStr "m1", VStr "0,5")] <->
  exists outs,
    Forall2 (fun r out => resolved source_h1_pair source_h2_pair "CI" ";" (snd r) out)
            (records merged_short) outs /\
    [(VStr "m1", VStr "0,5")] = zip (index merged_short) (map VStr outs).
Proof.
  apply (val_per_hap_resolved merged_short source_h1_pair source_h2_pair "CI" ";").
  discriminate.
Defined.

(** Two labels and one identifier: the second label is dropped. *)
Example val_per_hap_short :
  val_per_hap merged_short source_h1_pair source_h2_pair "CI" ";"
  = Ok [(VStr "m1", VStr "0,5")].
Proof. vm_compute. reflexivity. Qed.

Lemma lookup_text_or_KeyError (df_h1 df_h2 : DataFrame) (col_name : string)
    (val : string * string) :
  text_table df_h1 col_name -> text_table df_h2 col_name ->
  (exists it, (df_dict df_h1 df_h2 (fst val) ≫= fun d => frame_loc d (snd val) col_name)
              = Ok it /\ exists s, it = Cell (VStr s)) \/
  (df_dict df_h1 df_h2 (fst val) ≫= fun d => frame_loc d (snd val) col_name)
  = Raise KeyError.
Proof.
  intros H1 H2. destruct val as [hap id]. unfold df_dict. simpl.
  destruct (decide (hap = "h1")); [| destruct (decide (hap = "h2"))]; simpl.
  - destruct (frame_loc_text df_h1 id col_name H1) as [(s & ->) | ->]; eauto.
  - destruct (frame_loc_text df_h2 id col_name H2) as [(s & ->) | ->]; eauto.
  - by right.
Qed.

Lemma df_dict_unknown (df_h1 df_h2 : DataFrame) (hap : string) :
  hap <> "h1" -> hap <> "h2" -> df_dict df_h1 df_h2 hap = Raise KeyError.
Proof. intros H1 H2. unfold df_dict. by rewrite !decide_False. Qed.

Lemma join_per_hap_unknown (df_h1 df_h2 : DataFrame) (col_name delim hap id : string)
    (val_list : list (string * string)) :
  (hap, id) ∈ val_list -> hap <> "h1" -> hap <> "h2" ->
  (exists e, join_per_hap df_h1 df_h2 col_name delim val_list = Raise e) /\
  (text_table df_h1 col_name -> text_table df_h2 col_name ->
   join_per_hap df_h1 df_h2 col_name delim val_list = Raise KeyError).
Proof.
  intros Hin Hn1 Hn2. unfold join_per_hap.
  assert (Exists (fun val => (df_dict df_h1 df_h2 (fst val)
                              ≫= fun d => frame_loc d (snd val) col_name) = Raise KeyError)
                 val_list) as Hbad.
  { apply Exists_exists. exists (hap, id). split; [assumption |].
    simpl. by rewrite df_dict_unknown. }
  split.
  - destruct (map_result_raises
      (fun val => d ← df_dict df_h1 df_h2 (fst val); frame_loc d (snd val) col_name)
      val_list) as [e ->]; [| by exists e].
    eapply Exists_impl; [exact Hbad |]. intros val Hval. by exists KeyError.
  - intros H1 H2.
    rewrite (proj2 (map_result_only_raises _ _ KeyError val_list
                      (fun val => lookup_text_or_KeyError df_h1 df_h2 col_name val H1 H2))
                   Hbad).
    reflexivity.
Qed.

(** X12: a record that pairs an identifier with a label other than h1 and h2
    stops [val_per_hap]: no Series is produced, and over records with text
    HAP and HAP_VARIANTS and prepared source tables the exception is the
    KeyError of the missing haplotype table. *)
Theorem val_per_hap_unknown_label (df df_h1 df_h2 : DataFrame) (col_name delim : string) :
  Exists (fun r => unknown_label (snd r)) (records df) ->
  (exists e, val_per_hap df df_h1 df_h2 col_name delim = Raise e) /\
  (Forall (fun r => exists val_list, hap_id_pairs (snd r) = Ok val_list) (records df) ->
   text_table df_h1 col_name ->
   text_table df_h2 col_name ->
   val_per_hap df df_h1 df_h2 col_name delim = Raise KeyError).
Proof.
  intros Hbad. unfold val_per_hap.
  apply Exists_exists in Hbad as (r & Hr & val_list & hap & id & Hvl & Hin & Hn1 & Hn2).
  destruct (records df) as [|r0 rows] eqn:Hrows; [by apply elem_of_nil in Hr |].
  rewrite <- Hrows in *. clear Hrows r0 rows.
  destruct (join_per_hap_unknown df_h1 df_h2 col_name delim hap id val_list Hin Hn1 Hn2)
    as [[e0 He0] Hkey].
  set (g := fun t : value * list (string * string) =>
              s ← join_per_hap df_h1 df_h2 col_name delim (snd t); Ok (fst t, VStr s)).
  split.
  - destruct (map_result _ (records df)) as [tuples|e] eqn:Hfirst; [| by exists e].
    rewrite bind_Ok. apply map_result_raises.
    apply map_result_Forall2 in Hfirst.
    apply list_elem_of_lookup in Hr as [i Hi].
    destruct (Forall2_lookup_l _ _ _ _ _ Hfirst Hi) as (t & Ht & Hrt).
    rewrite Hvl in Hrt. simpl in Hrt. injection Hrt as <-.
    apply Exists_exists. exists (fst r, val_list).
    split; [by apply list_elem_of_lookup_2 in Ht |]. unfold g. cbn [fst snd].
    rewrite He0. by exists e0.
  - intros Hpairs H1 H2.
    destruct (first_pass_total _ Hpairs) as (tuples & Hfirst & Htuples).
    rewrite Hfirst, bind_Ok.
    assert (Hg : forall t, (exists y, g t = Ok y /\ True) \/ g t = Raise KeyError).
    { intros t. unfold g.
      destruct (join_per_hap_text df_h1 df_h2 col_name delim (snd t) H1 H2)
        as [[(out & -> & _) | ->] _]; simpl; eauto. }
    apply (map_result_only_raises g _ KeyError tuples Hg).
    apply Exists_exists. destruct (Htuples r Hr) as (vl & Hvl' & Ht).
    rewrite Hvl in Hvl'. injection Hvl' as <-.
    exists (fst r, val_list). split; [assumption |]. unfold g. cbn [fst snd].
    by rewrite (Hkey H1 H2).
Qed.

Lemma val_per_hap_unknown_label_witness :
  val_per_hap merged_h3 source_h1 source_h2 "CI" ";" = Raise KeyError.
Proof.
  apply (val_per_hap_unknown_label merged_h3 source_h1 source_h2 "CI" ";").
  - apply Exists_cons_hd. exists [("h1", "v1"); ("h3", "v9")], "h3", "v9".
    split; [reflexivity |]. split; [right; left |]. split; discriminate.
  - repeat constructor. simpl. eexists. reflexivity.
  - split.
    + apply (bool_decide_unpack (NoDup (index source_h1))). vm_compute. exact I.
    + repeat constructor. simpl. eexists. reflexivity.
  - split.
    + apply (bool_decide_unpack (NoDup (index source_h2))). vm_compute. exact I.
    + repeat constructor. simpl. eexists. reflexivity.
Defined.

(** ** The delimiters of the merge *)

Lemma split_cons (sep : ascii) (s : string) : exists w ws, split sep s = w :: ws.
Proof.
  induction s as [|c s (w & ws & IH)]; simpl; [by eexists _, _ |].
  destruct (Ascii.eqb c sep); [by eexists _, _ |]. rewrite IH. by eexists _, _.
Qed.

Lemma join_cons_char (d : string) (c : ascii) (w : string) (ws : list string) :
  join d (String c w :: ws) = String c (join d (w :: ws)).
Proof. unfold join. by destruct ws. Qed.

Lemma join_split_replace (s : string) :
  join ";" (split "," s) = replace_char "," ";" s.
Proof.
  induction s as [|c s IH]; [reflexivity |]. simpl.
  destruct (split_cons "," s) as (w & ws & Hs). rewrite Hs in *.
  destruct (Ascii.eqb c ","); [| by rewrite join_cons_char, IH].
  rewrite <- IH. reflexivity.
Qed.

Lemma split_replace (s : string) :
  all_chars not_semicolon s = true ->
  split ";" (replace_char "," ";" s) = split "," s.
Proof.
  induction s as [|c s IH]; [reflexivity |]. simpl.
  intros [Hc Hs]%andb_true_iff. rewrite (IH Hs).
  destruct (Ascii.eqb_spec c ",") as [->|Hne]; [reflexivity |].
  unfold not_semicolon in Hc. apply negb_true_iff in Hc. by rewrite Hc.
Qed.

(** X13: the rewrite of a merged column, [';'.join(val.split(','))], turns
    every [','] of a text cell into [';'] and changes nothing else; when the
    cell holds no [';'] of its own, its [';']-separated tokens afterwards are
    its [',']-separated tokens of before, in the same order. *)
Theorem comma_to_semicolon_tokens (s : string) :
  comma_to_semicolon (VStr s) = Ok (VStr (replace_char "," ";" s)) /\
  (all_chars not_semicolon s = true ->
   value_split ";" (VStr (replace_char "," ";" s)) = value_split "," (VStr s)).
Proof.
  split.
  - unfold comma_to_semicolon. simpl. by rewrite join_split_replace.
  - intros Hs. simpl. by rewrite split_replace.
Qed.

Lemma comma_to_semicolon_tokens_witness :
  value_split ";" (VStr (replace_char "," ";" "h1,h2")) = value_split "," (VStr "h1,h2").
Proof. apply (comma_to_semicolon_tokens "h1,h2"). reflexivity. Defined.

(** ** Preparing a haplotype table *)

Lemma Forall_exists_Forall2 {A B : Type} (P : A -> B -> Prop) (l : list A) :
  Forall (fun x => exists y, P x y) l -> exists k, Forall2 P l k.
Proof.
  induction 1 as [|x l [y Hy] _ [k IH]]; [by exists [] |].
  exists (y :: k). by constructor.
Qed.

Lemma row_getitem_map (phi : string -> value -> value) (row : Row) (k : string) :
  row_getitem (map (fun kv => (fst kv, phi (fst kv) (snd kv))) row) k
  = (v ← row_getitem row k; Ok (phi k v)).
Proof.
  unfold row_getitem. induction row as [|[k' v'] row IH]; simpl; [reflexivity |].
  destruct (decide (k' = k)) as [->|Hne]; [reflexivity | exact IH].
Qed.

Lemma set_index_rows (d d1 : DataFrame) (name : string) :
  set_index d name = Ok d1 ->
  columns d1 = columns d /\
  Forall2 (fun r r1 => row_getitem (snd r) name = Ok (fst r1) /\ snd r1 = snd r)
          (records d) (records d1).
Proof.
  unfold set_index. intros H. apply bind_Ok_inv in H as (labels & Hl & [= <-]).
  split; [reflexivity |]. simpl. apply getitem_col_Forall2 in Hl.
  induction Hl as [|r l rows labels Hrl _ IH]; simpl; constructor; auto.
Qed.

Lemma set_index_total (d : DataFrame) (name : string) :
  name ∈ columns d ->
  Forall (fun r => exists v, row_getitem (snd r) name = Ok v) (records d) ->
  exists d1, set_index d name = Ok d1.
Proof.
  intros Hc Hrows. apply Forall_exists_Forall2 in Hrows as [labels Hl].
  unfold set_index, getitem_col. rewrite decide_True by assumption.
  rewrite (proj2 (map_result_Forall2 _ _ labels) Hl). by eexists.
Qed.

(** [df[name] = df[name].apply(f)] acts on the named cell of each row. *)
Lemma apply_col_rows (d d' : DataFrame) (name : string) (f : value -> result value) :
  apply_col d name f = Ok d' ->
  name ∈ columns d /\ columns d' = columns d /\
  Forall2 (fun r r' => exists c c', row_getitem (snd r) name = Ok c /\ f c = Ok c' /\
                                    r' = (fst r, assoc_set name c' (snd r)))
          (records d) (records d').
Proof.
  unfold apply_col. intros H.
  apply bind_Ok_inv in H as (cells & Hcells & H).
  apply bind_Ok_inv in H as (cells' & Hcells' & [= <-]).
  assert (name ∈ columns d) as Hin.
  { unfold getitem_col in Hcells. by destruct (decide (name ∈ columns d)). }
  split; [assumption |]. split; [simpl; by rewrite decide_True |]. simpl.
  apply getitem_col_Forall2 in Hcells. apply map_result_Forall2 in Hcells'.
  revert cells' Hcells'. induction Hcells as [|r c rows cells Hrc _ IH]; intros cells' Hc'.
  - apply Forall2_nil_inv_l in Hc' as ->. constructor.
  - apply Forall2_cons_inv_l in Hc' as (c' & cells'' & Hfc & Hc' & ->). simpl.
    constructor; [by exists c, c' | by apply IH].
Qed.

Lemma apply_col_total (d : DataFrame) (name : string) (f : value -> result value) :
  name ∈ columns d ->
  Forall (fun r => exists c c', row_getitem (snd r) name = Ok c /\ f c = Ok c') (records d) ->
  exists d', apply_col d name f = Ok d'.
Proof.
  intros Hc Hrows. unfold apply_col, getitem_col. rewrite decide_True by assumption.
  assert (exists cells cells',
            Forall2 (fun r c => row_getitem (snd r) name = Ok c) (records d) cells /\
            Forall2 (fun c c' => f c = Ok c') cells cells') as (cells & cells' & H1 & H2).
  { induction Hrows as [|r rows (c & c' & Hc1 & Hc2) _ (cells & cells' & H1 & H2)].
    - exists [], []. split; constructor.
    - exists (c :: cells), (c' :: cells'). split; by constructor. }
  rewrite (proj2 (map_result_Forall2 _ _ cells) H1), bind_Ok.
  rewrite (proj2 (map_result_Forall2 _ _ cells') H2), bind_Ok. by eexists.
Qed.

(** X14: a table read from a haplotype's call file, with columns ID and
    CLUSTER_MATCH, is prepared into a table with the same columns and rows in
    which each row is indexed by its ID cell as it was read, and every cell is
    text: the [str] of the cell read, except that a missing CLUSTER_MATCH
    becomes "NA" (a missing cell of another column becomes "nan"). *)
Theorem prepare_hap_table_cells (d : DataFrame) :
  hap_table d ->
  exists d',
    prepare_hap_table d = Ok d' /\
    columns d' = columns d /\
    Forall2 (fun r r' =>
               row_getitem (snd r) "ID" = Ok (fst r') /\
               forall k, row_getitem (snd r') k
                         = (v ← row_getitem (snd r) k; Ok (VStr (text_of k v))))
            (records d) (records d').
Proof.
  intros (Hid & Hcm & Hrows). unfold prepare_hap_table.
  destruct (set_index_total d "ID" Hid) as [d1 H1].
  { eapply Forall_impl; [exact Hrows |]. by intros r [? _]. }
  rewrite H1, bind_Ok. destruct (set_index_rows _ _ _ H1) as [Hc1 Hr1].
  destruct (apply_col_total d1 "CLUSTER_MATCH"
              (fun v => Ok (match v with VNaN => VStr "NA" | _ => v end))) as [d2 H2].
  { by rewrite Hc1. }
  { eapply Forall2_Forall_r; [exact Hr1 |].
    eapply Forall_impl; [exact Hrows |]. intros r [_ [v Hv]] r1 [_ Heq].
    rewrite Heq. by eexists v, _. }
  unfold fillna_col. rewrite H2, bind_Ok.
  destruct (apply_col_rows _ _ _ _ H2) as (_ & Hc2 & Hr2).
  eexists. split; [reflexivity |]. split; [simpl; by rewrite Hc2, Hc1 |]. simpl.
  apply Forall2_fmap_r.
  eapply Forall2_trans; [| exact Hr1 | exact Hr2].
  intros r r1 r2 [Hlabel Heq] (c & c' & Hc & [= <-] & ->). simpl. rewrite Heq in *.
  split; [assumption |]. intros k.
  rewrite (row_getitem_map (fun _ v => VStr (py_str v))).
  destruct (decide (k = "CLUSTER_MATCH")) as [->|Hne].
  - rewrite row_getitem_set_eq, Hc. simpl. by destruct c.
  - rewrite row_getitem_set_ne by done.
    destruct (row_getitem (snd r) k) as [v|e]; [| reflexivity]. simpl.
    destruct v; simpl; [reflexivity.. |]. by rewrite decide_False.
Qed.

Lemma prepare_hap_table_cells_witness :
  exists d',
    prepare_hap_table h1_table = Ok d' /\
    columns d' = columns h1_table /\
    Forall2 (fun r r' =>
               row_getitem (snd r) "ID" = Ok (fst r') /\
               forall k, row_getitem (snd r') k
                         = (v ← row_getitem (snd r) k; Ok (VStr (text_of k v))))
            (records h1_table) (records d').
Proof.
  apply (prepare_hap_table_cells h1_table).
  split; [apply (bool_decide_unpack ("ID" ∈ columns h1_table)); vm_compute; exact I |].
  split; [apply (bool_decide_unpack ("CLUSTER_MATCH" ∈ columns h1_table));
          vm_compute; exact I |].
  repeat constructor; eexists; reflexivity.
Defined.

(** ** merge_haplotypes: inversion mode and empty merges *)

Lemma set_index_keeps_col (d d1 : DataFrame) (name col : string) :
  set_index d name = Ok d1 -> getitem_col d1 col = getitem_col d col.
Proof.
  intros H. destruct (set_index_rows _ _ _ H) as [Hc Hr].
  unfold getitem_col. rewrite Hc. destruct (decide (col ∈ columns d)); [| reflexivity].
  induction Hr as [|r r1 rows rows1 [_ Heq] _ IH]; [reflexivity |].
  by rewrite !map_result_cons, Heq, IH.
Qed.

Lemma count_inv_lt (cells : list value) :
  Exists (fun v => v <> VStr "INV") cells -> (count_inv cells < length cells)%nat.
Proof.
  unfold count_inv. induction 1 as [v cells Hv | v cells _ IH].
  - rewrite filter_cons, decide_False by assumption.
    pose proof (length_filter (fun v => v = VStr "INV") cells). simpl. lia.
  - rewrite filter_cons. destruct (decide _); simpl; lia.
Qed.

Lemma forallb_inv_false (cells : list value) :
  Exists (fun v => v <> VStr "INV") cells ->
  forallb (fun v => bool_decide (v = VStr "INV")) cells = false.
Proof.
  induction 1 as [v cells Hv | v cells _ IH]; simpl.
  - by rewrite bool_decide_eq_false_2.
  - rewrite IH. apply andb_false_r.
Qed.

(** X15: in inversion mode a merge that holds a record whose SVTYPE is not INV
    is refused before any column is restructured: the call ends in the
    RuntimeError "Detected inversions in merge, but not all variants are
    inversions (n of total)", with the number of INV records, less than the
    total, and the number of records. *)
Theorem merge_haplotypes_not_all_inv
    (merge_variants : list string -> list string -> string -> Z -> option string ->
                      result DataFrame)
    (read_csv_chrom : string -> option string -> result DataFrame)
    (read_csv : string -> result DataFrame)
    (h1_file_name h2_file_name h1_callable h2_callable config_def : string)
    (threads : Z) (chrom : option string) (df : DataFrame) (svtype : list value) :
  merge_variants [h1_file_name; h2_file_name] ["h1"; "h2"] config_def threads chrom
  = Ok df ->
  "ID" ∈ columns df ->
  Forall (fun r => exists v, row_getitem (snd r) "ID" = Ok v) (records df) ->
  getitem_col df "SVTYPE" = Ok svtype ->
  Exists (fun v => v <> VStr "INV") svtype ->
  merge_haplotypes merge_variants read_csv_chrom read_csv
    h1_file_name h2_file_name h1_callable h2_callable config_def threads chrom (Some true)
  = Raise (RuntimeError
             ("Detected inversions in merge, but not all variants are inversions ("
              ++ pretty (count_inv svtype) ++ " of "
              ++ pretty (length (records df)) ++ ")")) /\
  (count_inv svtype < length (records df))%nat.
Proof.
  intros Hmv Hid Hrows Hsv Hbad.
  pose proof (Forall2_length _ _ _ (getitem_col_Forall2 _ _ _ Hsv)) as Hlen.
  split; [| rewrite Hlen; by apply count_inv_lt].
  unfold merge_haplotypes. rewrite bind_Ok, Hmv, bind_Ok.
  destruct (set_index_total df "ID" Hid Hrows) as [df1 H1].
  rewrite H1, bind_Ok, (set_index_keeps_col _ _ _ _ H1), Hsv, bind_Ok.
  rewrite forallb_inv_false by assumption.
  destruct (set_index_rows _ _ _ H1) as [_ Hr].
  by rewrite <- (Forall2_length _ _ _ Hr).
Qed.

Lemma merge_haplotypes_not_all_inv_witness :
  merge_haplotypes mixed_merge_variants sample_read_csv_chrom sample_read_csv
    "h1.bed" "h2.bed" "h1_callable.bed" "h2_callable.bed" "nr:szro=50" 1 None (Some true)
  = Raise (RuntimeError
             ("Detected inversions in merge, but not all variants are inversions ("
              ++ pretty (count_inv [VStr "INV"; VStr "DEL"]) ++ " of "
              ++ pretty (length (records merged_mixed)) ++ ")")) /\
  (count_inv [VStr "INV"; VStr "DEL"] < length (records merged_mixed))%nat.
Proof.
  apply (merge_haplotypes_not_all_inv mixed_merge_variants sample_read_csv_chrom
           sample_read_csv "h1.bed" "h2.bed" "h1_callable.bed" "h2_callable.bed"
           "nr:szro=50" 1 None merged_mixed [VStr "INV"; VStr "DEL"]).
  - reflexivity.
  - apply (bool_decide_unpack ("ID" ∈ columns merged_mixed)). vm_compute. exact I.
  - repeat constructor; eexists; reflexivity.
  - vm_compute. reflexivity.
  - apply Exists_cons_tl, Exists_cons_hd. discriminate.
Defined.

Lemma set_index_empty (d d1 : DataFrame) (name : string) :
  records d = [] -> set_index d name = Ok d1 -> records d1 = [].
Proof.
  intros Hempty H. destruct (set_index_rows _ _ _ H) as [_ Hr].
  rewrite Hempty in Hr. by apply Forall2_nil_inv_l in Hr.
Qed.

Lemma if_present_del_empty (d d' : DataFrame) (name : string) :
  records d = [] -> if_present d name (fun df => delitem df name) = Ok d' ->
  records d' = [].
Proof.
  unfold if_present. intros Hempty H. destruct (decide _).
  - by apply (delitem_empty d d' name).
  - by injection H as <-.
Qed.

Lemma rename_columns_empty (f : string -> string) (d : DataFrame) :
  records d = [] -> records (rename_columns f d) = [].
Proof. intros H. unfold rename_columns. simpl. by rewrite H. Qed.

(** X16: when the clustering hands back no record, [merge_haplotypes] reads
    neither the haplotype call files nor the callable-region files: its result
    is the same whatever the readers would return, and a table it hands back
    has no records. *)
Theorem merge_haplotypes_empty_merge
    (merge_variants : list string -> list string -> string -> Z -> option string ->
                      result DataFrame)
    (read_csv_chrom read_csv_chrom' : string -> option string -> result DataFrame)
    (read_csv read_csv' : string -> result DataFrame)
    (h1_file_name h2_file_name h1_callable h2_callable config_def : string)
    (threads : Z) (chrom : option string) (is_inv : option bool) (df : DataFrame) :
  merge_variants [h1_file_name; h2_file_name] ["h1"; "h2"] config_def threads chrom
  = Ok df ->
  records df = [] ->
  merge_haplotypes merge_variants read_csv_chrom read_csv
    h1_file_name h2_file_name h1_callable h2_callable config_def threads chrom is_inv
  = merge_haplotypes merge_variants read_csv_chrom' read_csv'
      h1_file_name h2_file_name h1_callable h2_callable config_def threads chrom is_inv /\
  forall out,
    merge_haplotypes merge_variants read_csv_chrom read_csv
      h1_file_name h2_file_name h1_callable h2_callable config_def threads chrom is_inv
    = Ok out ->
    records out = [].
Proof.
  intros Hmv Hempty. unfold merge_haplotypes.
  destruct is_inv as [b|]; [| split; [reflexivity | discriminate]].
  rewrite !bind_Ok, Hmv, !bind_Ok.
  destruct (set_index df "ID") as [df1|e] eqn:H1; [| split; [reflexivity | discriminate]].
  rewrite !bind_Ok. pose proof (set_index_empty _ _ _ Hempty H1) as E1.
  match goal with
  | |- context [?c ≫= (fun _ : unit => _)] => destruct c as [[]|e] eqn:Hcheck
  end; [| split; [reflexivity | discriminate]].
  rewrite !bind_Ok.
  destruct (if_present df1 "HAP" _) as [df2|e] eqn:H2;
    [| split; [reflexivity | discriminate]].
  rewrite !bind_Ok. pose proof (if_present_del_empty _ _ _ E1 H2) as E2.
  destruct (if_present df2 "DISC_CLASS" _) as [df3|e] eqn:H3;
    [| split; [reflexivity | discriminate]].
  rewrite !bind_Ok. pose proof (if_present_del_empty _ _ _ E2 H3) as E3. cbv zeta.
  pose proof (rename_columns_empty sub_merge_prefix df3 E3) as E4.
  destruct (delitem (rename_columns sub_merge_prefix df3) "HAP_SRC") as [df5|e] eqn:H5;
    [| split; [reflexivity | discriminate]].
  rewrite !bind_Ok. pose proof (delitem_empty _ _ _ E4 H5) as E5.
  destruct (delitem df5 "HAP_SRC_ID") as [df6|e] eqn:H6;
    [| split; [reflexivity | discriminate]].
  rewrite !bind_Ok. pose proof (delitem_empty _ _ _ E5 H6) as E6.
  destruct (delitem df6 "HAP_AC") as [df7|e] eqn:H7;
    [| split; [reflexivity | discriminate]].
  rewrite !bind_Ok. pose proof (delitem_empty _ _ _ E6 H7) as E7.
  destruct (delitem df7 "HAP_AF") as [df8|e] eqn:H8;
    [| split; [reflexivity | discriminate]].
  rewrite !bind_Ok. pose proof (delitem_empty _ _ _ E7 H8) as E8.
  rewrite (rename_columns_empty _ df8 E8).
  change ((0 <? length (@nil (value * Row)))%nat) with false. cbv iota.
  split; [reflexivity |].
  intros out Hout.
  exact (fill_empty_records b _ out (rename_columns_empty _ df8 E8) Hout).
Qed.

Lemma merge_haplotypes_empty_merge_witness :
  merge_haplotypes none_merge_variants sample_read_csv_chrom sample_read_csv
    "h1.bed" "h2.bed" "h1_callable.bed" "h2_callable.bed" "nr:szro=50" 1 None (Some false)
  = merge_haplotypes none_merge_variants missing_read_csv_chrom missing_read_csv
      "h1.bed" "h2.bed" "h1_callable.bed" "h2_callable.bed" "nr:szro=50" 1 None (Some false) /\
  forall out,
    merge_haplotypes none_merge_variants sample_read_csv_chrom sample_read_csv
      "h1.bed" "h2.bed" "h1_callable.bed" "h2_callable.bed" "nr:szro=50" 1 None (Some false)
    = Ok out ->
    records out = [].
Proof.
  apply (merge_haplotypes_empty_merge none_merge_variants
           sample_read_csv_chrom missing_read_csv_chrom sample_read_csv missing_read_csv
           "h1.bed" "h2.bed" "h1_callable.bed" "h2_callable.bed" "nr:szro=50" 1 None
           (Some false) merged_none); reflexivity.
Defined.

(** The empty merge of the sample columns: the schema with GT, no record. *)
Example merge_haplotypes_empty_sample :
  merge_haplotypes none_merge_variants missing_read_csv_chrom missing_read_csv
    "h1.bed" "h2.bed" "h1_callable.bed" "h2_callable.bed" "nr:szro=50" 1 None (Some false)
  = Ok {| columns := ["#CHROM"; "POS"; "END"; "ID"; "SVTYPE"; "HAP"; "HAP_VARIANTS";
                      "TIG_REGION"; "QUERY_STRAND"; "CI"; "ALIGN_INDEX"; "CLUSTER_MATCH";
                      "CALL_SOURCE"; "GT"];
          records := [] |}.
Proof. vm_compute. reflexivity. Qed.

(** ** The genotype stage, record by record *)

Lemma zip_with_set_Forall2 (f : Row -> result value) (name : string)
    (rows : list (value * Row)) (cells : list value) :
  map_result (fun r => f (snd r)) rows = Ok cells ->
  Forall2 (fun r r' => exists c, f (snd r) = Ok c /\ r' = (fst r, assoc_set name c (snd r)))
          rows (zip_with (fun r c => (fst r, assoc_set name c (snd r))) rows cells).
Proof.
  intros H%map_result_Forall2.
  induction H as [|r c rows cells Hrc _ IH]; simpl; constructor; eauto.
Qed.

Lemma call_genotypes_rows (map_tree_h1 map_tree_h2 : defaultdict) (df out : DataFrame) :
  call_genotypes map_tree_h1 map_tree_h2 df = Ok out ->
  Forall2 (genotyped map_tree_h1 map_tree_h2) (records df) (records out).
Proof.
  unfold call_genotypes, apply_rows. intros H.
  apply bind_Ok_inv in H as (gt_h1 & H1 & H). cbv zeta in H.
  apply bind_Ok_inv in H as (gt_h2 & H2 & H). cbv zeta in H.
  apply bind_Ok_inv in H as (gt & H3 & H). cbv zeta in H.
  apply bind_Ok_inv in H as (gt_cells & _ & H).
  destruct (existsb _ gt_cells); [discriminate |].
  apply bind_Ok_inv in H as (df4 & Hdel1 & Hdel2).
  apply delitem_records in Hdel1, Hdel2. rewrite Hdel2, Hdel1. clear Hdel1 Hdel2.
  apply (zip_with_set_Forall2
           (fun row => g ← get_gt row "h1" map_tree_h1; Ok (VStr g)) "GT_H1") in H1.
  apply (zip_with_set_Forall2
           (fun row => g ← get_gt row "h2" map_tree_h2; Ok (VStr g)) "GT_H2") in H2.
  apply (zip_with_set_Forall2 format_gt "GT") in H3.
  assert (Forall2
            (fun r1 r3 : value * Row =>
               exists c2 c3,
                 (g ← get_gt (snd r1) "h2" map_tree_h2; Ok (VStr g)) = Ok c2 /\
                 format_gt (assoc_set "GT_H2" c2 (snd r1)) = Ok c3 /\
                 r3 = (fst r1, assoc_set "GT" c3 (assoc_set "GT_H2" c2 (snd r1))))
            (records (setitem_col df "GT_H1" gt_h1))
            (zip_with (fun r c => (fst r, assoc_set "GT" c (snd r)))
               (records (setitem_col (setitem_col df "GT_H1" gt_h1) "GT_H2" gt_h2)) gt))
    as H23.
  { eapply Forall2_trans; [| exact H2 | exact H3].
    intros r1 r2 r3 (c2 & Hc2 & ->) (c3 & Hc3 & ->). by exists c2, c3. }
  simpl. apply Forall2_fmap_r, Forall2_fmap_r.
  eapply Forall2_trans; [| exact H1 | exact H23].
  intros r r1 r3 (c1 & Hc1 & ->) (c2 & c3 & Hc2 & Hc3 & ->).
  unfold genotyped. cbn [fst snd] in *.
  apply bind_Ok_inv in Hc1 as (g1 & Hg1 & [= <-]).
  apply bind_Ok_inv in Hc2 as (g2 & Hg2 & [= <-]).
  rewrite get_gt_set_other in Hg2 by discriminate.
  unfold format_gt in Hc3.
  rewrite (row_getitem_set_ne "GT_H2" "GT_H1") in Hc3 by discriminate.
  rewrite !row_getitem_set_eq in Hc3. simpl in Hc3. injection Hc3 as <-.
  cbv beta iota delta [fst snd].
  split; [reflexivity |]. exists g1, g2. do 2 (split; [assumption |]). split.
  - rewrite !row_getitem_del_ne by discriminate. apply row_getitem_set_eq.
  - intros k Hk1 Hk2 Hk3.
    rewrite !row_getitem_del_ne by congruence.
    by rewrite !row_getitem_set_ne by congruence.
Qed.

(** X17: the genotype stage hands back one record per record it was given, in
    the same order and under the same index label; each carries in GT the two
    calls of [get_gt] joined by ['|'], and its cells of every column other
    than GT, GT_H1 and GT_H2 are those it had. *)
Theorem call_genotypes_records (map_tree_h1 map_tree_h2 : defaultdict) (df out : DataFrame) :
  call_genotypes map_tree_h1 map_tree_h2 df = Ok out ->
  length (records out) = length (records df) /\
  Forall2 (genotyped map_tree_h1 map_tree_h2) (records df) (records out).
Proof.
  intros H%call_genotypes_rows. split; [| exact H].
  symmetry. exact (Forall2_length _ _ _ H).
Qed.

Lemma call_genotypes_records_witness :
  length (records genotyped_sample) = length (records to_genotype) /\
  Forall2 (genotyped map_wide map_wide) (records to_genotype) (records genotyped_sample).
Proof.
  apply (call_genotypes_records map_wide map_wide to_genotype genotyped_sample).
  vm_compute. reflexivity.
Defined.

(** ** Every returned record is called somewhere *)

Lemma split_head (sep : ascii) (s : string) (w : string) (ws : list string) :
  split sep s = w :: ws -> w ∈ split sep s.
Proof. intros ->. by left. Qed.

(** A record that [val_per_hap] resolves names h1 or h2 first. *)
Lemma resolved_called (df_h1 df_h2 : DataFrame) (col_name delim : string) (row : Row)
    (out : string) :
  resolved df_h1 df_h2 col_name delim row out -> called_somewhere row.
Proof.
  intros (haps & ids & vs & (h & v & Hh & <- & Hv & <-) & Hvs & _).
  exists h. split; [assumption |].
  destruct (split_cons ";" h) as (hap0 & haps & Hsh).
  destruct (split_cons ";" v) as (id0 & ids & Hsv).
  rewrite Hsh, Hsv in Hvs. simpl in Hvs.
  apply Forall2_cons_inv_l in Hvs as (v0 & vs' & (d & r & Hd & _) & _ & _).
  simpl in Hd. rewrite Hsh.
  destruct Hd as [[-> _] | [-> _]]; [left | right]; by left.
Qed.

Lemma called_set_other (name : string) (c : value) (row : Row) :
  name <> "HAP" -> called_somewhere row -> called_somewhere (assoc_set name c row).
Proof.
  intros Hne (h & Hh & Hc). exists h. split; [| assumption].
  by rewrite row_getitem_set_ne.
Qed.

(** After a reconciled column other than HAP has been written, every record
    of the frame is called in h1 or in h2. *)
Lemma set_val_per_hap_called (df_h1 df_h2 : DataFrame) (name : string) (df df' : DataFrame) :
  name <> "HAP" ->
  set_val_per_hap df_h1 df_h2 name df = Ok df' ->
  Forall (fun r => called_somewhere (snd r)) (records df').
Proof.
  intros Hne H. unfold set_val_per_hap in H.
  apply bind_Ok_inv in H as (s & Hs & [= <-]). simpl.
  apply Forall_forall. intros r' Hr'.
  apply elem_of_zip_with in Hr' as (r & c & -> & Hr & _). simpl.
  apply called_set_other; [assumption |].
  unfold val_per_hap in Hs.
  destruct (records df) as [|r0 rows] eqn:Hrows; [by apply elem_of_nil in Hr |].
  rewrite <- Hrows in *. clear Hrows r0 rows.
  apply bind_Ok_inv in Hs as (tuples & H1 & H2).
  destruct (proj1 (val_per_hap_passes_iff df_h1 df_h2 name ";" (records df) s)
                  (ex_intro _ tuples (conj H1 H2))) as (outs & Hres & _).
  assert (Forall (fun r => called_somewhere (snd r)) (records df)) as Hall.
  { eapply Forall2_Forall_l; [exact Hres |].
    apply Forall_forall. intros out _ x Hx. by apply (resolved_called _ _ _ _ _ _ Hx). }
  rewrite Forall_forall in Hall. by apply Hall.
Qed.

Lemma get_gt_side (row : Row) (hap h g : string) (map_tree : defaultdict) :
  row_getitem row "HAP" = Ok (VStr h) ->
  get_gt row hap map_tree = Ok g ->
  gt_side hap h g.
Proof.
  intros Hh H. unfold get_gt in H. rewrite Hh in H. simpl in H.
  destruct (decide (hap ∈ split ";" h)) as [Hin|Hin].
  - rewrite bool_decide_eq_true_2 in H by assumption. injection H as <-. by left.
  - rewrite bool_decide_eq_false_2 in H by assumption. right. split; [assumption |].
    apply bind_Ok_inv in H as (chrom & _ & H). cbv zeta in H.
    apply bind_Ok_inv in H as (pos & _ & H).
    apply bind_Ok_inv in H as (end_ & _ & H).
    apply bind_Ok_inv in H as (hits & _ & H).
    apply bind_Ok_inv in H as (found & _ & H).
    destruct found; injection H as <-; [by left | by right].
Qed.

Lemma genotyped_agrees (map_tree_h1 map_tree_h2 : defaultdict) (r r' : value * Row) :
  called_somewhere (snd r) ->
  genotyped map_tree_h1 map_tree_h2 r r' ->
  gt_agrees (snd r').
Proof.
  intros (h & Hh & Hcalled) (_ & g1 & g2 & Hg1 & Hg2 & Hgt & Hsame).
  exists h, g1, g2. split; [by rewrite Hsame by discriminate |].
  split; [assumption |].
  pose proof (get_gt_side _ _ _ _ _ Hh Hg1) as Hs1.
  pose proof (get_gt_side _ _ _ _ _ Hh Hg2) as Hs2.
  do 2 (split; [assumption |]).
  destruct Hcalled as [Hc | Hc].
  - left. by destruct Hs1 as [[_ ->] | [Hn _]].
  - right. by destruct Hs2 as [[_ ->] | [Hn _]].
Qed.

Lemma fill_merged_stage
    (read_csv_chrom : string -> option string -> result DataFrame)
    (read_csv : string -> result DataFrame)
    (h1_file_name h2_file_name h1_callable h2_callable : string)
    (chrom : option string) (is_inv : bool) (df out : DataFrame) :
  fill_merged read_csv_chrom read_csv h1_file_name h2_file_name h1_callable h2_callable
    chrom is_inv df = Ok out ->
  exists map_tree_h1 map_tree_h2 df',
    Forall (fun r => called_somewhere (snd r)) (records df') /\
    call_genotypes map_tree_h1 map_tree_h2 df' = Ok out.
Proof.
  intros H. unfold fill_merged in H.
  do 15 (let x := fresh "x" in apply bind_Ok_inv in H as (x & _ & H)).
  apply bind_Ok_inv in H as (df15 & Hcs & H).
  apply bind_Ok_inv in H as (df16 & Hinv & H).
  do 4 (let x := fresh "x" in apply bind_Ok_inv in H as (x & _ & H)).
  eexists _, _, df16. split; [| exact H].
  destruct is_inv.
  - apply bind_Ok_inv in Hinv as (y1 & _ & Hinv).
    apply bind_Ok_inv in Hinv as (y2 & _ & Hinv).
    eapply (set_val_per_hap_called _ _ "RGN_TIG_INNER"); [discriminate | exact Hinv].
  - injection Hinv as <-.
    eapply (set_val_per_hap_called _ _ "CALL_SOURCE"); [discriminate | exact Hcs].
Qed.

(** X18: in every table that [merge_haplotypes] hands back, the GT of a record
    agrees with its HAP labels: the h1 side is ['1'] when h1 is among the
    labels and ['0'] or ['.'] when it is not, the same for h2, and one side at
    least is ['1'].  A record the merge returns is always called in the
    haplotype it names first, so GT is never 0|0, .|., 0|. or .|0. *)
Theorem merge_haplotypes_gt_agrees
    (merge_variants : list string -> list string -> string -> Z -> option string ->
                      result DataFrame)
    (read_csv_chrom : string -> option string -> result DataFrame)
    (read_csv : string -> result DataFrame)
    (h1_file_name h2_file_name h1_callable h2_callable config_def : string)
    (threads : Z) (chrom : option string) (is_inv : option bool) (out : DataFrame) :
  merge_haplotypes merge_variants read_csv_chrom read_csv
    h1_file_name h2_file_name h1_callable h2_callable config_def threads chrom is_inv
  = Ok out ->
  Forall (fun r => gt_agrees (snd r)) (records out).
Proof.
  intros H. unfold merge_haplotypes in H.
  destruct is_inv as [b|]; [| discriminate]. rewrite bind_Ok in H.
  do 5 (let x := fresh "x" in apply bind_Ok_inv in H as (x & _ & H)). cbv zeta in H.
  do 4 (let x := fresh "x" in apply bind_Ok_inv in H as (x & _ & H)).
  match type of H with
  | (if (0 <? length (records ?d))%nat then _ else _) = _ => set (df8 := d) in *
  end.
  destruct (records df8) as [|r rows] eqn:Hrows.
  - simpl in H. apply fill_empty_records in H; [| exact Hrows].
    rewrite H. constructor.
  - simpl in H. apply fill_merged_stage in H as (t1 & t2 & df' & Hcalled & H).
    apply call_genotypes_rows in H.
    eapply Forall2_Forall_r; [exact H |].
    eapply Forall_impl; [exact Hcalled |].
    intros r0 Hr0 r1 Hr01. by apply (genotyped_agrees t1 t2 r0 r1).
Qed.

Lemma merge_haplotypes_gt_agrees_witness :
  Forall (fun r => gt_agrees (snd r)) (records sample_merged).
Proof.
  apply (merge_haplotypes_gt_agrees sample_merge_variants sample_read_csv_chrom
           sample_read_csv "h1.bed" "h2.bed" "h1_callable.bed" "h2_callable.bed"
           "nr:szro=50" 1 None (Some false) sample_merged).
  vm_compute. reflexivity.
Defined.

(** ** The schema of the merged table *)

Lemma sub_merge_prefix_spec (val : string) :
  (exists rest, val = "MERGE_" ++ rest /\ sub_merge_prefix val = "HAP_" ++ rest) \/
  (~ merge_prefixed val /\ sub_merge_prefix val = val).
Proof.
  unfold merge_prefixed.
  destruct val as [|c1 val]; [right; split; [intros (rest & [=]) | reflexivity] |].
  destruct c1 as [[] [] [] [] [] [] [] []];
    try (right; split; [intros (rest & [=]) | reflexivity]).
  destruct val as [|c2 val]; [right; split; [intros (rest & [=]) | reflexivity] |].
  destruct c2 as [[] [] [] [] [] [] [] []];
    try (right; split; [intros (rest & [=]) | reflexivity]).
  destruct val as [|c3 val]; [right; split; [intros (rest & [=]) | reflexivity] |].
  destruct c3 as [[] [] [] [] [] [] [] []];
    try (right; split; [intros (rest & [=]) | reflexivity]).
  destruct val as [|c4 val]; [right; split; [intros (rest & [=]) | reflexivity] |].
  destruct c4 as [[] [] [] [] [] [] [] []];
    try (right; split; [intros (rest & [=]) | reflexivity]).
  destruct val as [|c5 val]; [right; split; [intros (rest & [=]) | reflexivity] |].
  destruct c5 as [[] [] [] [] [] [] [] []];
    try (right; split; [intros (rest & [=]) | reflexivity]).
  destruct val as [|c6 val]; [right; split; [intros (rest & [=]) | reflexivity] |].
  destruct c6 as [[] [] [] [] [] [] [] []];
    try (right; split; [intros (rest & [=]) | reflexivity]).
  left. exists val. split; reflexivity.
Qed.

Lemma rename_merge_prefix_columns (df : DataFrame) :
  Forall (fun c => ~ merge_prefixed c) (columns (rename_columns sub_merge_prefix df)).
Proof.
  unfold rename_columns. simpl. apply Forall_forall. intros c Hc.
  apply list_elem_of_In, in_map_iff in Hc as (val & <- & _).
  destruct (sub_merge_prefix_spec val) as [(rest & _ & ->) | [Hno ->]]; [| assumption].
  intros (rest' & [=]).
Qed.

Lemma keeps_columns_refl (df : DataFrame) : keeps_columns df df.
Proof. by split. Qed.

Lemma keeps_columns_trans (d1 d2 d3 : DataFrame) :
  keeps_columns d1 d2 -> keeps_columns d2 d3 -> keeps_columns d1 d3.
Proof. intros [H1 H2] [H3 H4]. split; auto. Qed.

Lemma keeps_columns_same (df df' : DataFrame) :
  columns df' = columns df -> keeps_columns df df'.
Proof. intros Heq. unfold keeps_columns. rewrite Heq. by split. Qed.

Lemma keeps_columns_setitem (df : DataFrame) (name : string) (cells : list value) :
  ~ merge_prefixed name -> keeps_columns df (setitem_col df name cells).
Proof.
  intros Hname. unfold keeps_columns, setitem_col. simpl.
  destruct (decide (name ∈ columns df)); [by split |]. split.
  - intros c Hc _. apply elem_of_app. by left.
  - intros Hall. apply Forall_app. split; [assumption | by repeat constructor].
Qed.

Lemma remove_first_in (k c : string) (l : list string) :
  c ∈ remove_first k l -> c ∈ l.
Proof.
  induction l as [|k' l IH]; simpl; [done |].
  destruct (decide (k' = k)); [by right |].
  intros [-> | Hc]%elem_of_cons; [by left | right; by apply IH].
Qed.

Lemma remove_first_other (k c : string) (l : list string) :
  c <> k -> c ∈ l -> c ∈ remove_first k l.
Proof.
  intros Hne. induction l as [|k' l IH]; simpl; [done |].
  intros [-> | Hc]%elem_of_cons.
  - rewrite decide_False by done. by left.
  - destruct (decide (k' = k)); [assumption | right; by apply IH].
Qed.

Lemma keeps_columns_delitem (df df' : DataFrame) (name : string) :
  name ∈ scratch_columns -> delitem df name = Ok df' -> keeps_columns df df'.
Proof.
  intros Hname H. unfold delitem in H. destruct (decide _); [| discriminate].
  injection H as <-. unfold keeps_columns. simpl. split.
  - intros c Hc Hscratch. apply remove_first_other; [| assumption]. by intros ->.
  - intros Hall. apply Forall_forall. intros c Hc%remove_first_in.
    rewrite Forall_forall in Hall. by apply Hall.
Qed.

Lemma keeps_columns_apply_col (df df' : DataFrame) (name : string)
    (f : value -> result value) :
  apply_col df name f = Ok df' -> keeps_columns df df'.
Proof.
  intros H. destruct (apply_col_rows _ _ _ _ H) as (_ & Hc & _).
  by apply keeps_columns_same.
Qed.

Lemma keeps_columns_if_present (df df' : DataFrame) (name : string)
    (f : value -> result value) :
  if_present df name (fun df => apply_col df name f) = Ok df' -> keeps_columns df df'.
Proof.
  unfold if_present. destruct (decide _).
  - apply keeps_columns_apply_col.
  - intros [= <-]. apply keeps_columns_refl.
Qed.

Lemma set_val_per_hap_columns (df_h1 df_h2 : DataFrame) (name : string) (df df' : DataFrame) :
  ~ merge_prefixed name ->
  set_val_per_hap df_h1 df_h2 name df = Ok df' ->
  keeps_columns df df' /\ name ∈ columns df'.
Proof.
  intros Hname H. unfold set_val_per_hap in H.
  apply bind_Ok_inv in H as (s & _ & [= <-]).
  split; [by apply keeps_columns_setitem | apply setitem_col_columns].
Qed.

Lemma not_merge_prefixed (name : string) :
  sub_merge_prefix name = name -> ~ merge_prefixed name.
Proof.
  intros Heq. destruct (sub_merge_prefix_spec name) as [(rest & -> & Hsub) | [Hno _]];
    [| assumption].
  rewrite Hsub in Heq. discriminate.
Qed.

Ltac by_compute := apply (bool_decide_unpack _); vm_compute; exact I.

Lemma del_inv_columns_keeps (df df' : DataFrame) :
  del_inv_columns df = Ok df' -> keeps_columns df df'.
Proof.
  unfold del_inv_columns. intros H.
  apply bind_Ok_inv in H as (d1 & H1 & H). apply bind_Ok_inv in H as (d2 & H2 & H).
  apply bind_Ok_inv in H as (d3 & H3 & H4).
  apply (keeps_columns_delitem _ _ "RGN_REF_DISC") in H1; [| by_compute].
  apply (keeps_columns_delitem _ _ "RGN_TIG_DISC") in H2; [| by_compute].
  apply (keeps_columns_delitem _ _ "FLAG_ID") in H3; [| by_compute].
  apply (keeps_columns_delitem _ _ "FLAG_TYPE") in H4; [| by_compute].
  eauto using keeps_columns_trans.
Qed.

Lemma call_genotypes_columns (map_tree_h1 map_tree_h2 : defaultdict) (df out : DataFrame) :
  call_genotypes map_tree_h1 map_tree_h2 df = Ok out ->
  keeps_columns df out /\ "GT" ∈ columns out.
Proof.
  unfold call_genotypes. intros H.
  apply bind_Ok_inv in H as (gt_h1 & _ & H). cbv zeta in H.
  apply bind_Ok_inv in H as (gt_h2 & _ & H). cbv zeta in H.
  apply bind_Ok_inv in H as (gt & _ & H). cbv zeta in H.
  apply bind_Ok_inv in H as (gt_cells & _ & H).
  destruct (existsb _ gt_cells); [discriminate |].
  apply bind_Ok_inv in H as (df4 & Hdel1 & Hdel2).
  assert ("GT_H1" ∈ scratch_columns) as S1 by by_compute.
  assert ("GT_H2" ∈ scratch_columns) as S2 by by_compute.
  assert ("GT" ∉ scratch_columns) as S3 by by_compute.
  pose proof (keeps_columns_delitem _ _ _ S1 Hdel1) as K1.
  pose proof (keeps_columns_delitem _ _ _ S2 Hdel2) as K2.
  split.
  - eapply keeps_columns_trans; [| eapply keeps_columns_trans; [exact K1 | exact K2]].
    eapply keeps_columns_trans; [apply (keeps_columns_setitem df "GT_H1") |];
      [by apply not_merge_prefixed |].
    eapply keeps_columns_trans; [apply (keeps_columns_setitem _ "GT_H2") |];
      [by apply not_merge_prefixed |].
    apply keeps_columns_setitem. by apply not_merge_prefixed.
  - apply (proj1 K2); [| exact S3]. apply (proj1 K1); [| exact S3].
    apply setitem_col_columns.
Qed.

Lemma carries_step (names : list string) (df df' : DataFrame) :
  Forall (fun c => c ∉ scratch_columns) names ->
  keeps_columns df df' -> carries names df -> carries names df'.
Proof.
  intros Hnames [Hkeep _] Hc. unfold carries in *.
  rewrite Forall_forall in *. auto.
Qed.

Lemma carries_add (names : list string) (name : string) (df : DataFrame) :
  name ∈ columns df -> carries names df -> carries (name :: names) df.
Proof. intros Hname Hc. by constructor. Qed.

Lemma set_val_per_hap_carries (df_h1 df_h2 : DataFrame) (name : string)
    (names : list string) (df df' : DataFrame) :
  sub_merge_prefix name = name ->
  Forall (fun c => c ∉ scratch_columns) names ->
  set_val_per_hap df_h1 df_h2 name df = Ok df' ->
  carries names df ->
  keeps_columns df df' /\ carries (name :: names) df'.
Proof.
  intros Hname Hnames H Hc.
  destruct (set_val_per_hap_columns _ _ _ _ _ (not_merge_prefixed _ Hname) H) as [K Hin].
  split; [assumption |]. apply carries_add; [assumption |]. by apply (carries_step _ df).
Qed.

Lemma not_scratch (names : list string) :
  forallb (fun c => bool_decide (c ∉ scratch_columns)) names = true ->
  Forall (fun c => c ∉ scratch_columns) names.
Proof.
  intros H. apply Forall_forall. intros c Hc.
  rewrite forallb_forall in H.
  apply (bool_decide_eq_true_1 (c ∉ scratch_columns)), H. by apply list_elem_of_In.
Qed.

Lemma fill_merged_columns
    (read_csv_chrom : string -> option string -> result DataFrame)
    (read_csv : string -> result DataFrame)
    (h1_file_name h2_file_name h1_callable h2_callable : string)
    (chrom : option string) (is_inv : bool) (df out : DataFrame) :
  fill_merged read_csv_chrom read_csv h1_file_name h2_file_name h1_callable h2_callable
    chrom is_inv df = Ok out ->
  keeps_columns df out /\
  carries reconciled_columns out /\
  (is_inv = true -> carries ["RGN_REF_INNER"; "RGN_TIG_INNER"] out).
Proof.
  intros H. unfold fill_merged in H.
  apply bind_Ok_inv in H as (a1 & A1%keeps_columns_apply_col & H).
  apply bind_Ok_inv in H as (a2 & A2%keeps_columns_apply_col & H).
  apply bind_Ok_inv in H as (a3 & A3%keeps_columns_if_present & H).
  apply bind_Ok_inv in H as (a4 & A4%keeps_columns_if_present & H).
  apply bind_Ok_inv in H as (a5 & A5%keeps_columns_if_present & H).
  apply bind_Ok_inv in H as (a6 & A6%keeps_columns_if_present & H).
  do 4 (let x := fresh "x" in apply bind_Ok_inv in H as (x & _ & H)).
  apply bind_Ok_inv in H as (b1 & B1 & H). apply bind_Ok_inv in H as (b2 & B2 & H).
  apply bind_Ok_inv in H as (b3 & B3 & H). apply bind_Ok_inv in H as (b4 & B4 & H).
  apply bind_Ok_inv in H as (b5 & B5 & H). apply bind_Ok_inv in H as (b6 & B6 & H).
  apply bind_Ok_inv in H as (c & Hinv & H).
  do 4 (let x := fresh "x" in apply bind_Ok_inv in H as (x & _ & H)).
  apply call_genotypes_columns in H as [KG HGT].
  apply (set_val_per_hap_carries _ _ _ []) in B1 as [K1 C1];
    [| reflexivity | by apply not_scratch | constructor].
  apply (set_val_per_hap_carries _ _ "QUERY_STRAND" ["TIG_REGION"]) in B2
    as [K2 C2]; [| reflexivity | by apply not_scratch | exact C1].
  apply (set_val_per_hap_carries _ _ "CI" ["QUERY_STRAND"; "TIG_REGION"]) in B3
    as [K3 C3]; [| reflexivity | by apply not_scratch | exact C2].
  apply (set_val_per_hap_carries _ _ "ALIGN_INDEX" ["CI"; "QUERY_STRAND"; "TIG_REGION"]) in B4
    as [K4 C4]; [| reflexivity | by apply not_scratch | exact C3].
  apply (set_val_per_hap_carries _ _ "CLUSTER_MATCH" ["ALIGN_INDEX"; "CI"; "QUERY_STRAND"; "TIG_REGION"]) in B5
    as [K5 C5]; [| reflexivity | by apply not_scratch | exact C4].
  apply (set_val_per_hap_carries _ _ "CALL_SOURCE" ["CLUSTER_MATCH"; "ALIGN_INDEX"; "CI"; "QUERY_STRAND"; "TIG_REGION"]) in B6
    as [K6 C6]; [| reflexivity | by apply not_scratch | exact C5].
  assert (keeps_columns b6 c /\
          carries ["CALL_SOURCE"; "CLUSTER_MATCH"; "ALIGN_INDEX"; "CI"; "QUERY_STRAND";
                   "TIG_REGION"] c /\
          (is_inv = true -> carries ["RGN_REF_INNER"; "RGN_TIG_INNER"] c))
    as (KI & CI & CR).
  { destruct is_inv.
    - apply bind_Ok_inv in Hinv as (d1 & D1%del_inv_columns_keeps & Hinv).
      apply bind_Ok_inv in Hinv as (d2 & D2 & D3).
      assert (carries ["CALL_SOURCE"; "CLUSTER_MATCH"; "ALIGN_INDEX"; "CI"; "QUERY_STRAND"; "TIG_REGION"] d1) as C7
        by (apply (carries_step _ b6); [by apply not_scratch | exact D1 | exact C6]).
      apply (set_val_per_hap_carries _ _ "RGN_REF_INNER" ["CALL_SOURCE"; "CLUSTER_MATCH"; "ALIGN_INDEX"; "CI"; "QUERY_STRAND"; "TIG_REGION"]) in D2
        as [K7 C8]; [| reflexivity | by apply not_scratch | exact C7].
      apply (set_val_per_hap_carries _ _ "RGN_TIG_INNER" ["RGN_REF_INNER"; "CALL_SOURCE"; "CLUSTER_MATCH"; "ALIGN_INDEX"; "CI"; "QUERY_STRAND"; "TIG_REGION"]) in D3
        as [K8 C9]; [| reflexivity | by apply not_scratch | exact C8].
      split; [eauto using keeps_columns_trans |].
      unfold carries in *. rewrite !Forall_cons in C9. rewrite !Forall_cons.
      split; [tauto |]. intros _. tauto.
    - injection Hinv as <-. split; [apply keeps_columns_refl |]. split; [assumption | done]. }
  split; [eauto 20 using keeps_columns_trans |].
  split.
  - unfold reconciled_columns.
    assert (carries ["CALL_SOURCE"; "CLUSTER_MATCH"; "ALIGN_INDEX"; "CI"; "QUERY_STRAND"; "TIG_REGION"] out) as Cout
      by (apply (carries_step _ c); [by apply not_scratch | exact KG | exact CI]).
    unfold carries in *. rewrite !Forall_cons in Cout. rewrite !Forall_cons. tauto.
  - intros Hb. apply (carries_step _ c); [by apply not_scratch | exact KG | by apply CR].
Qed.

Lemma setitem_scalar_carries (name : string) (names : list string) (v : value)
    (df : DataFrame) :
  sub_merge_prefix name = name ->
  Forall (fun c => c ∉ scratch_columns) names ->
  carries names df ->
  keeps_columns df (setitem_scalar df name v) /\
  carries (name :: names) (setitem_scalar df name v).
Proof.
  intros Hname Hnames Hc. unfold setitem_scalar.
  assert (keeps_columns df (setitem_col df name (map (fun _ => v) (records df)))) as K
    by (by apply keeps_columns_setitem, not_merge_prefixed).
  split; [assumption |].
  apply carries_add; [apply setitem_col_columns | by apply (carries_step _ df)].
Qed.

Lemma fill_empty_columns (is_inv : bool) (df out : DataFrame) :
  fill_empty is_inv df = Ok out ->
  keeps_columns df out /\ carries reconciled_columns out /\
  (is_inv = true -> carries ["RGN_REF_INNER"; "RGN_TIG_INNER"] out).
Proof.
  unfold fill_empty. cbv zeta. intros H.
  apply bind_Ok_inv in H as (c & Hinv & [= <-]).
  destruct (setitem_scalar_carries "TIG_REGION" [] VNaN df) as [K1 C1];
    [reflexivity | by apply not_scratch | constructor |].
  destruct (setitem_scalar_carries "QUERY_STRAND" ["TIG_REGION"] VNaN _ eq_refl
              ltac:(by apply not_scratch) C1) as [K2 C2].
  destruct (setitem_scalar_carries "CI" ["QUERY_STRAND"; "TIG_REGION"] VNaN _ eq_refl
              ltac:(by apply not_scratch) C2) as [K3 C3].
  destruct (setitem_scalar_carries "ALIGN_INDEX" ["CI"; "QUERY_STRAND"; "TIG_REGION"] VNaN _
              eq_refl ltac:(by apply not_scratch) C3) as [K4 C4].
  destruct (setitem_scalar_carries "CLUSTER_MATCH"
              ["ALIGN_INDEX"; "CI"; "QUERY_STRAND"; "TIG_REGION"] VNaN _
              eq_refl ltac:(by apply not_scratch) C4) as [K5 C5].
  destruct (setitem_scalar_carries "CALL_SOURCE"
              ["CLUSTER_MATCH"; "ALIGN_INDEX"; "CI"; "QUERY_STRAND"; "TIG_REGION"] VNaN _
              eq_refl ltac:(by apply not_scratch) C5) as [K6 C6].
  set (b6 := setitem_scalar _ "CALL_SOURCE" VNaN) in *.
  assert (keeps_columns b6 c /\
          carries ["CALL_SOURCE"; "CLUSTER_MATCH"; "ALIGN_INDEX"; "CI"; "QUERY_STRAND";
                   "TIG_REGION"] c /\
          (is_inv = true -> carries ["RGN_REF_INNER"; "RGN_TIG_INNER"] c))
    as (KI & CI & CR).
  { destruct is_inv.
    - apply bind_Ok_inv in Hinv as (d1 & D1%del_inv_columns_keeps & [= <-]).
      assert (carries ["CALL_SOURCE"; "CLUSTER_MATCH"; "ALIGN_INDEX"; "CI"; "QUERY_STRAND";
                       "TIG_REGION"] d1) as C7
        by (apply (carries_step _ b6); [by apply not_scratch | exact D1 | exact C6]).
      destruct (setitem_scalar_carries "RGN_REF_INNER"
                  ["CALL_SOURCE"; "CLUSTER_MATCH"; "ALIGN_INDEX"; "CI"; "QUERY_STRAND"; "TIG_REGION"]
                  VNaN d1 eq_refl ltac:(by apply not_scratch) C7) as [K7 C8].
      destruct (setitem_scalar_carries "RGN_TIG_INNER"
                  ("RGN_REF_INNER" :: ["CALL_SOURCE"; "CLUSTER_MATCH"; "ALIGN_INDEX"; "CI"; "QUERY_STRAND"; "TIG_REGION"])
                  VNaN _ eq_refl ltac:(by apply not_scratch) C8) as [K8 C9].
      split; [eauto using keeps_columns_trans |].
      unfold carries in *. rewrite !Forall_cons in C9. rewrite !Forall_cons.
      split; [tauto |]. intros _. tauto.
    - injection Hinv as <-. split; [apply keeps_columns_refl |]. split; [assumption | done]. }
  destruct (setitem_scalar_carries "GT"
              ["CALL_SOURCE"; "CLUSTER_MATCH"; "ALIGN_INDEX"; "CI"; "QUERY_STRAND"; "TIG_REGION"]
              VNaN c eq_refl ltac:(by apply not_scratch) CI) as [KG CG].
  split; [eauto 20 using keeps_columns_trans |].
  split.
  - unfold reconciled_columns, carries in *. rewrite !Forall_cons in CG.
    rewrite !Forall_cons. tauto.
  - intros Hb. apply (carries_step _ c); [by apply not_scratch | exact KG | by apply CR].
Qed.

Lemma delitem_not_prefixed (df df' : DataFrame) (name : string) :
  delitem df name = Ok df' ->
  Forall (fun c => ~ merge_prefixed c) (columns df) ->
  Forall (fun c => ~ merge_prefixed c) (columns df').
Proof.
  unfold delitem. destruct (decide _); [| discriminate]. intros [= <-] Hall. simpl.
  apply Forall_forall. intros c Hc%remove_first_in.
  rewrite Forall_forall in Hall. by apply Hall.
Qed.

Lemma rename_samples_not_prefixed (df : DataFrame) :
  Forall (fun c => ~ merge_prefixed c) (columns df) ->
  Forall (fun c => ~ merge_prefixed c)
    (columns (rename_columns (fun val => if decide (val = "HAP_SAMPLES") then "HAP" else val) df)).
Proof.
  intros Hall. unfold rename_columns. simpl. apply Forall_forall. intros c Hc.
  apply list_elem_of_In, in_map_iff in Hc as (val & <- & Hval).
  destruct (decide _).
  - intros (rest & [=]).
  - rewrite Forall_forall in Hall. by apply Hall, list_elem_of_In.
Qed.

(** X19: every table merge_haplotypes returns, with or without records,
    carries the columns TIG_REGION, QUERY_STRAND, CI, ALIGN_INDEX,
    CLUSTER_MATCH, CALL_SOURCE and GT, in inversion mode also RGN_REF_INNER
    and RGN_TIG_INNER, and has no column whose name starts with MERGE_. *)
Theorem merge_haplotypes_columns
    (merge_variants : list string -> list string -> string -> Z -> option string ->
                      result DataFrame)
    (read_csv_chrom : string -> option string -> result DataFrame)
    (read_csv : string -> result DataFrame)
    (h1_file_name h2_file_name h1_callable h2_callable config_def : string)
    (threads : Z) (chrom : option string) (is_inv : option bool) (out : DataFrame) :
  merge_haplotypes merge_variants read_csv_chrom read_csv
    h1_file_name h2_file_name h1_callable h2_callable config_def threads chrom is_inv
    = Ok out ->
  carries reconciled_columns out /\
  (is_inv = Some true -> carries ["RGN_REF_INNER"; "RGN_TIG_INNER"] out) /\
  Forall (fun c => ~ merge_prefixed c) (columns out).
Proof.
  unfold merge_haplotypes. intros H.
  apply bind_Ok_inv in H as (b & Hb & H).
  apply bind_Ok_inv in H as (df0 & _ & H).
  apply bind_Ok_inv in H as (df1 & _ & H).
  apply bind_Ok_inv in H as (u & _ & H).
  apply bind_Ok_inv in H as (df2 & _ & H).
  apply bind_Ok_inv in H as (df3 & _ & H). cbv zeta in H.
  apply bind_Ok_inv in H as (df4 & H4 & H).
  apply bind_Ok_inv in H as (df5 & H5 & H).
  apply bind_Ok_inv in H as (df6 & H6 & H).
  apply bind_Ok_inv in H as (df7 & H7 & H).
  pose proof (rename_merge_prefix_columns df3) as Hall.
  apply (delitem_not_prefixed _ _ _ H4) in Hall.
  apply (delitem_not_prefixed _ _ _ H5) in Hall.
  apply (delitem_not_prefixed _ _ _ H6) in Hall.
  apply (delitem_not_prefixed _ _ _ H7) in Hall.
  apply rename_samples_not_prefixed in Hall.
  assert (is_inv = Some b) as -> by (destruct is_inv; [by injection Hb as -> | discriminate]).
  destruct (0 <? _)%nat.
  - apply fill_merged_columns in H as ([_ K] & C & CR).
    split; [assumption |]. split; [| by apply K]. intros [= ->]. by apply CR.
  - apply fill_empty_columns in H as ([_ K] & C & CR).
    split; [assumption |]. split; [| by apply K]. intros [= ->]. by apply CR.
Qed.

Lemma merge_haplotypes_columns_witness :
  carries reconciled_columns no_inversions_merged /\
  (Some true = Some true -> carries ["RGN_REF_INNER"; "RGN_TIG_INNER"] no_inversions_merged) /\
  Forall (fun c => ~ merge_prefixed c) (columns no_inversions_merged).
Proof.
  apply (merge_haplotypes_columns no_inversions_merge_variants missing_read_csv_chrom
           missing_read_csv "h1.bed" "h2.bed" "h1_callable.bed" "h2_callable.bed"
           "nr:szro=50" 1 None (Some true) no_inversions_merged).
  vm_compute. reflexivity.
Defined.

(** ** The records of the merged table *)

Lemma kept_all_refl (rows : list (value * Row)) : Forall2 kept rows rows.
Proof. induction rows; constructor; [by split | assumption]. Qed.

Lemma kept_all_trans (rows1 rows2 rows3 : list (value * Row)) :
  Forall2 kept rows1 rows2 -> Forall2 kept rows2 rows3 -> Forall2 kept rows1 rows3.
Proof.
  apply Forall2_trans. intros r1 r2 r3 [H1 H2] [H3 H4]. split; [congruence |].
  intros c Hc. by rewrite H4, H2.
Qed.

Lemma passes_through_ne (c name : string) :
  passes_through c = true -> passes_through name = false -> name <> c.
Proof. intros H1 H2 ->. congruence. Qed.

Lemma delitem_kept (df df' : DataFrame) (name : string) :
  passes_through name = false -> delitem df name = Ok df' ->
  Forall2 kept (records df) (records df').
Proof.
  intros Hname H%delitem_records. rewrite H. apply Forall2_fmap_r, Forall_Forall2_diag.
  apply Forall_forall. intros r _. split; [reflexivity |]. intros c Hc. simpl.
  apply row_getitem_del_ne. by apply passes_through_ne.
Qed.

Lemma if_present_delitem_kept (df df' : DataFrame) (name : string) :
  passes_through name = false -> if_present df name (fun df => delitem df name) = Ok df' ->
  Forall2 kept (records df) (records df').
Proof.
  unfold if_present. intros Hname H. destruct (decide _).
  - by apply (delitem_kept _ _ name).
  - injection H as <-. apply kept_all_refl.
Qed.

Lemma row_getitem_rename (f : string -> string) (row : Row) (c : string) :
  (forall k, f k = c <-> k = c) ->
  row_getitem (map (fun kv => (f (fst kv), snd kv)) row) c = row_getitem row c.
Proof.
  intros Hf. unfold row_getitem. induction row as [|[k v] row IH]; simpl; [reflexivity |].
  destruct (decide (k = c)) as [->|Hne].
  - by rewrite decide_True by (by apply Hf).
  - rewrite decide_False by (by rewrite Hf). exact IH.
Qed.

Lemma rename_columns_kept (f : string -> string) (df : DataFrame) :
  (forall c k, passes_through c = true -> f k = c <-> k = c) ->
  Forall2 kept (records df) (records (rename_columns f df)).
Proof.
  intros Hf. unfold rename_columns. simpl. apply Forall2_fmap_r, Forall_Forall2_diag.
  apply Forall_forall. intros r _. split; [reflexivity |]. intros c Hc. simpl.
  apply row_getitem_rename. intros k. by apply Hf.
Qed.

Lemma sub_merge_prefix_passes (c k : string) :
  passes_through c = true -> sub_merge_prefix k = c <-> k = c.
Proof.
  intros Hc. destruct (sub_merge_prefix_spec k) as [(rest & -> & ->) | [_ ->]]; [| done].
  split; intros <-; destruct rest; vm_compute in Hc; discriminate Hc.
Qed.

Lemma rename_samples_passes (c k : string) :
  passes_through c = true ->
  (if decide (k = "HAP_SAMPLES") then "HAP" else k) = c <-> k = c.
Proof.
  intros Hc. destruct (decide _) as [->|]; [| done].
  split; intros <-; vm_compute in Hc; discriminate Hc.
Qed.

Lemma setitem_col_kept (df : DataFrame) (name : string) (cells : list value) :
  passes_through name = false ->
  records df = [] \/ length cells = length (records df) ->
  Forall2 kept (records df) (records (setitem_col df name cells)).
Proof.
  intros Hname Hlen. unfold setitem_col. simpl.
  destruct Hlen as [-> | Hlen]; [constructor |].
  revert cells Hlen. induction (records df) as [|r rows IH]; intros [|c cells] Hlen;
    try discriminate; simpl; constructor.
  - split; [reflexivity |]. intros c' Hc'. simpl.
    apply row_getitem_set_ne. by apply passes_through_ne.
  - apply IH. simpl in Hlen. lia.
Qed.

Lemma apply_col_kept (df df' : DataFrame) (name : string) (f : value -> result value) :
  passes_through name = false -> apply_col df name f = Ok df' ->
  Forall2 kept (records df) (records df').
Proof.
  intros Hname H. destruct (apply_col_rows _ _ _ _ H) as (_ & _ & Hr).
  eapply Forall2_impl; [exact Hr |].
  intros r r' (c & c' & _ & _ & ->). split; [reflexivity |]. intros k Hk. simpl.
  apply row_getitem_set_ne. by apply passes_through_ne.
Qed.

Lemma if_present_apply_col_kept (df df' : DataFrame) (name : string)
    (f : value -> result value) :
  passes_through name = false ->
  if_present df name (fun df => apply_col df name f) = Ok df' ->
  Forall2 kept (records df) (records df').
Proof.
  unfold if_present. intros Hname H. destruct (decide _).
  - by apply (apply_col_kept _ _ name f).
  - injection H as <-. apply kept_all_refl.
Qed.

Lemma val_per_hap_length (df df_h1 df_h2 : DataFrame) (col_name delim : string) (s : Series) :
  val_per_hap df df_h1 df_h2 col_name delim = Ok s ->
  records df = [] \/ length (map snd s) = length (records df).
Proof.
  unfold val_per_hap. destruct (records df) as [|r rows] eqn:Hrows; [by left |].
  intros H. right. apply bind_Ok_inv in H as (tuples & H1%map_result_Forall2 & H2%map_result_Forall2).
  rewrite length_map.
  by rewrite <- (Forall2_length _ _ _ H2), <- (Forall2_length _ _ _ H1).
Qed.

Lemma set_val_per_hap_kept (df_h1 df_h2 : DataFrame) (name : string) (df df' : DataFrame) :
  passes_through name = false -> set_val_per_hap df_h1 df_h2 name df = Ok df' ->
  Forall2 kept (records df) (records df').
Proof.
  intros Hname H. unfold set_val_per_hap in H.
  apply bind_Ok_inv in H as (s & Hs%val_per_hap_length & [= <-]).
  by apply setitem_col_kept.
Qed.

Lemma del_inv_columns_kept (df df' : DataFrame) :
  del_inv_columns df = Ok df' -> Forall2 kept (records df) (records df').
Proof.
  unfold del_inv_columns. intros H.
  apply bind_Ok_inv in H as (d1 & H1 & H). apply bind_Ok_inv in H as (d2 & H2 & H).
  apply bind_Ok_inv in H as (d3 & H3 & H4).
  apply (delitem_kept _ _ "RGN_REF_DISC") in H1; [| reflexivity].
  apply (delitem_kept _ _ "RGN_TIG_DISC") in H2; [| reflexivity].
  apply (delitem_kept _ _ "FLAG_ID") in H3; [| reflexivity].
  apply (delitem_kept _ _ "FLAG_TYPE") in H4; [| reflexivity].
  eauto using kept_all_trans.
Qed.

Lemma call_genotypes_kept (map_tree_h1 map_tree_h2 : defaultdict) (df out : DataFrame) :
  call_genotypes map_tree_h1 map_tree_h2 df = Ok out ->
  Forall2 kept (records df) (records out).
Proof.
  intros H%call_genotypes_rows. eapply Forall2_impl; [exact H |].
  intros r r' (Hfst & g1 & g2 & _ & _ & _ & Hk). split; [assumption |].
  intros c Hc.
  apply Hk; intros Heq; symmetry in Heq; revert Heq;
    apply (passes_through_ne c); (assumption || reflexivity).
Qed.

Lemma fill_merged_kept
    (read_csv_chrom : string -> option string -> result DataFrame)
    (read_csv : string -> result DataFrame)
    (h1_file_name h2_file_name h1_callable h2_callable : string)
    (chrom : option string) (is_inv : bool) (df out : DataFrame) :
  fill_merged read_csv_chrom read_csv h1_file_name h2_file_name h1_callable h2_callable
    chrom is_inv df = Ok out ->
  Forall2 kept (records df) (records out).
Proof.
  intros H. unfold fill_merged in H.
  apply bind_Ok_inv in H as (a1 & A1 & H). apply bind_Ok_inv in H as (a2 & A2 & H).
  apply bind_Ok_inv in H as (a3 & A3 & H). apply bind_Ok_inv in H as (a4 & A4 & H).
  apply bind_Ok_inv in H as (a5 & A5 & H). apply bind_Ok_inv in H as (a6 & A6 & H).
  do 4 (let x := fresh "x" in apply bind_Ok_inv in H as (x & _ & H)).
  apply bind_Ok_inv in H as (b1 & B1 & H). apply bind_Ok_inv in H as (b2 & B2 & H).
  apply bind_Ok_inv in H as (b3 & B3 & H). apply bind_Ok_inv in H as (b4 & B4 & H).
  apply bind_Ok_inv in H as (b5 & B5 & H). apply bind_Ok_inv in H as (b6 & B6 & H).
  apply bind_Ok_inv in H as (c & Hinv & H).
  do 4 (let x := fresh "x" in apply bind_Ok_inv in H as (x & _ & H)).
  apply call_genotypes_kept in H.
  apply (apply_col_kept _ _ "HAP") in A1; [| reflexivity].
  apply (apply_col_kept _ _ "HAP_VARIANTS") in A2; [| reflexivity].
  apply (if_present_apply_col_kept _ _ "HAP_RO") in A3; [| reflexivity].
  apply (if_present_apply_col_kept _ _ "HAP_OFFSET") in A4; [| reflexivity].
  apply (if_present_apply_col_kept _ _ "HAP_SZRO") in A5; [| reflexivity].
  apply (if_present_apply_col_kept _ _ "HAP_OFFSZ") in A6; [| reflexivity].
  apply (set_val_per_hap_kept _ _ "TIG_REGION") in B1; [| reflexivity].
  apply (set_val_per_hap_kept _ _ "QUERY_STRAND") in B2; [| reflexivity].
  apply (set_val_per_hap_kept _ _ "CI") in B3; [| reflexivity].
  apply (set_val_per_hap_kept _ _ "ALIGN_INDEX") in B4; [| reflexivity].
  apply (set_val_per_hap_kept _ _ "CLUSTER_MATCH") in B5; [| reflexivity].
  apply (set_val_per_hap_kept _ _ "CALL_SOURCE") in B6; [| reflexivity].
  assert (Forall2 kept (records b6) (records c)) as KI.
  { destruct is_inv.
    - apply bind_Ok_inv in Hinv as (d1 & D1%del_inv_columns_kept & Hinv).
      apply bind_Ok_inv in Hinv as (d2 & D2 & D3).
      apply (set_val_per_hap_kept _ _ "RGN_REF_INNER") in D2; [| reflexivity].
      apply (set_val_per_hap_kept _ _ "RGN_TIG_INNER") in D3; [| reflexivity].
      eauto using kept_all_trans.
    - injection Hinv as <-. apply kept_all_refl. }
  eauto 20 using kept_all_trans.
Qed.

(** X20: a table that [merge_haplotypes] hands back has one record for each
    record of the clustering merge, in the order of the merge; each is indexed
    by the ID the merge gave it and carries, in every column that passes
    through (a name that starts neither with MERGE_ nor with HAP and that the
    function does not write or delete), the cell of the merge. *)
Theorem merge_haplotypes_records
    (merge_variants : list string -> list string -> string -> Z -> option string ->
                      result DataFrame)
    (read_csv_chrom : string -> option string -> result DataFrame)
    (read_csv : string -> result DataFrame)
    (h1_file_name h2_file_name h1_callable h2_callable config_def : string)
    (threads : Z) (chrom : option string) (is_inv : option bool) (df out : DataFrame) :
  merge_variants [h1_file_name; h2_file_name] ["h1"; "h2"] config_def threads chrom
  = Ok df ->
  merge_haplotypes merge_variants read_csv_chrom read_csv
    h1_file_name h2_file_name h1_callable h2_callable config_def threads chrom is_inv
  = Ok out ->
  length (records out) = length (records df) /\
  Forall2 handed_back (records df) (records out).
Proof.
  intros Hmv H.
  assert (Forall2 handed_back (records df) (records out)) as Hall;
    [| split; [symmetry; exact (Forall2_length _ _ _ Hall) | exact Hall]].
  unfold merge_haplotypes in H.
  destruct is_inv as [b|]; [| discriminate]. rewrite bind_Ok, Hmv, bind_Ok in H.
  apply bind_Ok_inv in H as (df1 & H1 & H).
  apply bind_Ok_inv in H as (u & _ & H).
  apply bind_Ok_inv in H as (df2 & H2 & H).
  apply bind_Ok_inv in H as (df3 & H3 & H). cbv zeta in H.
  apply bind_Ok_inv in H as (df4 & H4 & H).
  apply bind_Ok_inv in H as (df5 & H5 & H).
  apply bind_Ok_inv in H as (df6 & H6 & H).
  apply bind_Ok_inv in H as (df7 & H7 & H).
  apply set_index_rows in H1 as [_ H1].
  apply (if_present_delitem_kept _ _ "HAP") in H2; [| reflexivity].
  apply (if_present_delitem_kept _ _ "DISC_CLASS") in H3; [| reflexivity].
  pose proof (rename_columns_kept sub_merge_prefix df3 sub_merge_prefix_passes) as R1.
  apply (delitem_kept _ _ "HAP_SRC") in H4; [| reflexivity].
  apply (delitem_kept _ _ "HAP_SRC_ID") in H5; [| reflexivity].
  apply (delitem_kept _ _ "HAP_AC") in H6; [| reflexivity].
  apply (delitem_kept _ _ "HAP_AF") in H7; [| reflexivity].
  pose proof (rename_columns_kept _ df7 rename_samples_passes) as R2.
  match type of H with
  | (if (0 <? length (records ?d))%nat then _ else _) = _ => set (df8 := d) in *
  end.
  assert (Forall2 kept (records df1) (records df8)) as K18
    by eauto 20 using kept_all_trans.
  assert (Forall2 kept (records df8) (records out)) as K8.
  { destruct (records df8) as [|r rows] eqn:Hrows.
    - simpl in H. apply fill_empty_records in H; [| exact Hrows]. rewrite H. constructor.
    - simpl in H. rewrite <- Hrows. by apply fill_merged_kept in H. }
  pose proof (kept_all_trans _ _ _ K18 K8) as K.
  eapply Forall2_trans; [| exact H1 | exact K].
  intros r r1 r' [Hid Hsnd] [Hfst Hcells]. split; [congruence |].
  intros c Hc. rewrite <- Hsnd. by apply Hcells.
Qed.

Lemma merge_haplotypes_records_witness :
  length (records sample_merged) = length (records merged_table) /\
  Forall2 handed_back (records merged_table) (records sample_merged).
Proof.
  apply (merge_haplotypes_records sample_merge_variants sample_read_csv_chrom
           sample_read_csv "h1.bed" "h2.bed" "h1_callable.bed" "h2_callable.bed"
           "nr:szro=50" 1 None (Some false) merged_table sample_merged).
  - reflexivity.
  - vm_compute. reflexivity.
Defined.

(** ** The columns the merge must bring *)

Lemma delitem_columns (df df' : DataFrame) (name : string) :
  delitem df name = Ok df' ->
  name ∈ columns df /\ (forall c, c ∈ columns df' -> c ∈ columns df).
Proof.
  unfold delitem. destruct (decide _) as [Hin|]; [| discriminate]. intros [= <-].
  split; [assumption |]. intros c. apply remove_first_in.
Qed.

Lemma if_present_delitem_columns (df df' : DataFrame) (name : string) :
  if_present df name (fun df => delitem df name) = Ok df' ->
  forall c, c ∈ columns df' -> c ∈ columns df.
Proof.
  unfold if_present. destruct (decide _).
  - intros H. by apply delitem_columns in H as [_ H].
  - by intros [= <-].
Qed.

Lemma renamed_merge_field (df : DataFrame) (field : string) :
  ("HAP_" ++ field) ∈ columns (rename_columns sub_merge_prefix df) ->
  has_merge_field df field.
Proof.
  unfold rename_columns. simpl. intros H.
  apply list_elem_of_In, in_map_iff in H as (k & Hk & Hin%list_elem_of_In).
  destruct (sub_merge_prefix_spec k) as [(rest & -> & Hsub) | [_ Hsub]];
    rewrite Hsub in Hk.
  - injection Hk as Hk. change (rest = field) in Hk. subst rest. by left.
  - subst k. by right.
Qed.

Lemma has_merge_field_incl (df df' : DataFrame) (field : string) :
  (forall c, c ∈ columns df' -> c ∈ columns df) ->
  has_merge_field df' field -> has_merge_field df field.
Proof. intros Hincl [H | H]; [left | right]; by apply Hincl. Qed.

(** X21: [merge_haplotypes] hands back a table only for a merge that has an
    ID column and each of the fields SRC, SRC_ID, AC and AF under its MERGE_
    or its HAP_ name: the index is set from ID and the four fields are
    deleted by name, so a merge without one of them ends in an exception,
    also when it has no records. *)
Theorem merge_haplotypes_required_columns
    (merge_variants : list string -> list string -> string -> Z -> option string ->
                      result DataFrame)
    (read_csv_chrom : string -> option string -> result DataFrame)
    (read_csv : string -> result DataFrame)
    (h1_file_name h2_file_name h1_callable h2_callable config_def : string)
    (threads : Z) (chrom : option string) (is_inv : option bool) (df out : DataFrame) :
  merge_variants [h1_file_name; h2_file_name] ["h1"; "h2"] config_def threads chrom
  = Ok df ->
  merge_haplotypes merge_variants read_csv_chrom read_csv
    h1_file_name h2_file_name h1_callable h2_callable config_def threads chrom is_inv
  = Ok out ->
  ("ID" ∈ columns df) /\ Forall (has_merge_field df) merge_fields.
Proof.
  intros Hmv H. unfold merge_haplotypes in H.
  destruct is_inv as [b|]; [| discriminate]. rewrite bind_Ok, Hmv, bind_Ok in H.
  apply bind_Ok_inv in H as (df1 & H1 & H).
  apply bind_Ok_inv in H as (u & _ & H).
  apply bind_Ok_inv in H as (df2 & H2 & H).
  apply bind_Ok_inv in H as (df3 & H3 & H). cbv zeta in H.
  apply bind_Ok_inv in H as (df4 & H4 & H).
  apply bind_Ok_inv in H as (df5 & H5 & H).
  apply bind_Ok_inv in H as (df6 & H6 & H).
  apply bind_Ok_inv in H as (df7 & H7 & _).
  assert ("ID" ∈ columns df) as Hid.
  { unfold set_index, getitem_col in H1. by destruct (decide ("ID" ∈ columns df)). }
  split; [exact Hid |].
  destruct (set_index_rows _ _ _ H1) as [Hc1 _].
  pose proof (if_present_delitem_columns _ _ _ H2) as I2.
  pose proof (if_present_delitem_columns _ _ _ H3) as I3.
  assert (forall field, has_merge_field df3 field -> has_merge_field df field) as Hback.
  { intros field. apply has_merge_field_incl. intros c Hc. rewrite <- Hc1. auto. }
  apply delitem_columns in H4 as [N4 I4]. apply delitem_columns in H5 as [N5 I5].
  apply delitem_columns in H6 as [N6 I6]. apply delitem_columns in H7 as [N7 _].
  unfold merge_fields. repeat apply Forall_cons_2; [.. | apply Forall_nil_2]; apply Hback.
  - apply (renamed_merge_field df3 "SRC"). exact N4.
  - apply (renamed_merge_field df3 "SRC_ID"), I4. exact N5.
  - apply (renamed_merge_field df3 "AC"), I4, I5. exact N6.
  - apply (renamed_merge_field df3 "AF"), I4, I5, I6. exact N7.
Qed.

Lemma merge_haplotypes_required_columns_witness :
  ("ID" ∈ columns merged_table) /\ Forall (has_merge_field merged_table) merge_fields.
Proof.
  apply (merge_haplotypes_required_columns sample_merge_variants sample_read_csv_chrom
           sample_read_csv "h1.bed" "h2.bed" "h1_callable.bed" "h2_callable.bed"
           "nr:szro=50" 1 None (Some false) merged_table sample_merged).
  - reflexivity.
  - vm_compute. reflexivity.
Defined.
